(** * rossi_strand: motif strand annotation of ChExMix peaks

    A shallow embedding of [src/rossi_strand/rossi_strand.py] and the
    properties of its join, its de-duplication, its loaders and its drivers.

    Conventions of the embedding.
    - A Python string is the byte string of its UTF-8 encoding.  The string
      methods ([lower], [strip], [capitalize]) are those of Python on the
      ASCII characters; of the characters outside ASCII, [lower] knows the
      Kelvin sign (U+212A, whose lower case is the ASCII "k"), and the bytes
      of the others are left alone.  The theorems that depend on the case or
      the trimming of a name say for which names they hold.
    - A DataFrame with a fixed schema is the list of its rows, each row a
      record; the index is not modelled, every operation used by the script
      works by position.  Columns are typed as in the data model: [chrom] and
      [strand] are strings, [start] and [end] integers; the columns that are
      only copied or compared for equality ([name], [score], [col3], [col4],
      [Replicate], [Sample ID]) are dynamically typed cells.  Floating point
      cells are left out.
    - The file system is a finite map from path strings to file contents and
      a finite set of directories; path strings are not normalised.
    - The libraries the script calls ([requests], [zipfile], the parsers of
      [pandas]) are an environment [Env] the definitions are parameterised
      over. *)

From Stdlib Require Import Ascii String ZArith.
From stdpp Require Import gmap strings list fin_maps pretty.

Open Scope string_scope.
Open Scope nat_scope.
Open Scope list_scope.

(** ** Python string methods *)

Module PyStr.

Definition code (c : ascii) : nat := nat_of_ascii c.

Definition is_upper (c : ascii) : bool := (65 <=? code c) && (code c <=? 90).
Definition is_lower (c : ascii) : bool := (97 <=? code c) && (code c <=? 122).

Definition lower_char (c : ascii) : ascii :=
  if is_upper c then ascii_of_nat (code c + 32) else c.
Definition upper_char (c : ascii) : ascii :=
  if is_lower c then ascii_of_nat (code c - 32) else c.

(** [str.isspace] on one ASCII character: TAB, LF, VT, FF, CR, FS, GS, RS,
    US and the space. *)
Definition is_space (c : ascii) : bool :=
  ((9 <=? code c) && (code c <=? 13)) || ((28 <=? code c) && (code c <=? 32)).

(** [s.isascii()] *)
Fixpoint isascii (s : string) : bool :=
  match s with
  | EmptyString => true
  | String c s' => (code c <? 128) && isascii s'
  end.

(** The three bytes of U+212A KELVIN SIGN, the one character outside ASCII
    that [str.lower] turns into an ASCII letter. *)
Definition is_kelvin_sign (c0 c1 c2 : ascii) : bool :=
  (code c0 =? 226) && (code c1 =? 132) && (code c2 =? 170).

(** [s.lower()]: an ASCII capital becomes the small letter, the Kelvin sign
    becomes "k". *)
Fixpoint lower (s : string) : string :=
  match s with
  | EmptyString => EmptyString
  | String c s' =>
      match s' with
      | String c1 (String c2 s'') =>
          if is_kelvin_sign c c1 c2 then String "k" (lower s'')
          else String (lower_char c) (lower s')
      | _ => String (lower_char c) (lower s')
      end
  end.

(** [s.capitalize()]: first character upper-cased, the others lower-cased.
    An ASCII small letter becomes the capital; the Kelvin sign, which has
    no other upper case, stays. *)
Definition capitalize (s : string) : string :=
  match s with
  | EmptyString => EmptyString
  | String c s' => String (upper_char c) (lower s')
  end.

Fixpoint lstrip (s : string) : string :=
  match s with
  | EmptyString => EmptyString
  | String c s' => if is_space c then lstrip s' else s
  end.

Definition rstrip (s : string) : string := String.rev (lstrip (String.rev s)).

(** [s.strip()] *)
Definition strip (s : string) : string := rstrip (lstrip s).

Definition startswith_slash (s : string) : bool :=
  match s with
  | String "/"%char _ => true
  | _ => false
  end.

Fixpoint endswith_slash (s : string) : bool :=
  match s with
  | EmptyString => false
  | String c EmptyString => bool_decide (c = "/"%char)
  | String _ s' => endswith_slash s'
  end.

(** [os.path.join(a, b)] (posixpath, two arguments). *)
Definition path_join (a b : string) : string :=
  if startswith_slash b then b
  else if bool_decide (a = "") || endswith_slash a then a +:+ b
  else a +:+ "/" +:+ b.

(** The part of [s] up to and including its last slash ([acc] holds, in
    reverse, the characters read so far). *)
Fixpoint head_go (acc : string) (s : string) : string :=
  match s with
  | EmptyString => EmptyString
  | String c s' =>
      let acc' := String c acc in
      let rest := head_go acc' s' in
      if bool_decide (rest = "") then
        (if bool_decide (c = "/"%char) then String.rev acc' else "")
      else rest
  end.

Fixpoint all_slashes (s : string) : bool :=
  match s with
  | EmptyString => true
  | String c s' => bool_decide (c = "/"%char) && all_slashes s'
  end.

Fixpoint lstrip_slashes (s : string) : string :=
  match s with
  | EmptyString => EmptyString
  | String c s' => if bool_decide (c = "/"%char) then lstrip_slashes s' else s
  end.

(** [os.path.dirname(p)] (posixpath). *)
Definition dirname (p : string) : string :=
  let head := head_go "" p in
  if all_slashes head then head
  else String.rev (lstrip_slashes (String.rev head)).

End PyStr.

Import PyStr.

(** ** Data model *)

(** A dynamically typed cell of a DataFrame. *)
Inductive cell : Type :=
| CInt (z : Z)
| CStr (s : string)
| CNaN.

Global Instance cell_eq_dec : EqDecision cell.
Proof. solve_decision. Defined.

(** [str(c)] *)
Definition cell_str (c : cell) : string :=
  match c with
  | CInt z => pretty z
  | CStr s => s
  | CNaN => "nan"
  end.

(** A row of the metadata sheet, restricted to the columns the script reads.
    [tf_common_name] is [None] for a cell that holds no string. *)
Record MetaRow : Type := mkMetaRow {
  tf_common_name : option string;   (* 'Yeast Target Common Name' *)
  meta_replicate : cell;            (* 'Replicate' *)
  meta_sample_id : cell             (* 'Sample ID' *)
}.

(** A row of a motif table, columns as named at line 65. *)
Record MotifRow : Type := mkMotifRow {
  m_chrom : string;
  m_start : Z;
  m_end : Z;
  m_col3 : cell;
  m_col4 : cell;
  m_strand : string
}.

(** A row of the ChExMix peak table, columns as named at lines 103-105. *)
Record PeakRow : Type := mkPeakRow {
  p_chrom : string;
  p_start_abf1 : Z;
  p_end_abf1 : Z;
  p_name : cell;
  p_score : cell;
  p_strand : string
}.

(** A row of [pd.merge(chexmix_df, motif_df, on='chrom',
    suffixes=('_abf1', '_four'))]: the key, the other columns of the left
    table, the other columns of the right table; the one name the two
    tables share besides the key, [strand], gets the suffixes. *)
Record MergedRow : Type := mkMergedRow {
  g_chrom : string;
  g_start_abf1 : Z;
  g_end_abf1 : Z;
  g_name : cell;
  g_score : cell;
  g_strand_abf1 : string;
  g_start : Z;
  g_end : Z;
  g_col3 : cell;
  g_col4 : cell;
  g_strand_four : string
}.

(** A row of the table [merge_motif_with_chexmix] returns. *)
Record JoinedRow : Type := mkJoinedRow {
  chrom : string;
  start_abf1 : Z;
  end_abf1 : Z;
  score : cell;
  strand_four : string;
  motif : nat
}.

(** A row of a per-replicate table after lines 152-153. *)
Record AggRow : Type := mkAggRow {
  joined : JoinedRow;
  sample_id : string;
  replicate : cell
}.

Global Instance MotifRow_eq_dec : EqDecision MotifRow.
Proof. solve_decision. Defined.
Global Instance PeakRow_eq_dec : EqDecision PeakRow.
Proof. solve_decision. Defined.
Global Instance MergedRow_eq_dec : EqDecision MergedRow.
Proof. solve_decision. Defined.
Global Instance JoinedRow_eq_dec : EqDecision JoinedRow.
Proof. solve_decision. Defined.
Global Instance AggRow_eq_dec : EqDecision AggRow.
Proof. solve_decision. Defined.

(** ** The pandas operations the script uses *)

Module Pandas.

Section Duplicates.
Context {A K : Type} `{EqDecision K} (key : A → K).

(** [df.duplicated(subset, keep='first')]: the mask that is [true] at a
    row whose key was met at an earlier row. *)
Fixpoint duplicated_from (seen : list K) (df : list A) : list bool :=
  match df with
  | [] => []
  | r :: df' =>
      bool_decide (key r ∈ seen) :: duplicated_from (key r :: seen) df'
  end.

Definition duplicated (df : list A) : list bool := duplicated_from [] df.

(** [df[mask]] with the mask negated. *)
Fixpoint drop_masked (df : list A) (mask : list bool) : list A :=
  match df, mask with
  | r :: df', b :: mask' =>
      if b then drop_masked df' mask' else r :: drop_masked df' mask'
  | _, _ => []
  end.

(** [df.drop_duplicates(subset)] *)
Definition drop_duplicates_by (df : list A) : list A :=
  drop_masked df (duplicated df).
End Duplicates.

(** [df.drop_duplicates()]: the key is the whole row. *)
Definition drop_duplicates {A} `{EqDecision A} (df : list A) : list A :=
  drop_duplicates_by (λ r, r) df.

Definition merged_row (l : PeakRow) (r : MotifRow) : MergedRow :=
  {| g_chrom := p_chrom l;
     g_start_abf1 := p_start_abf1 l; g_end_abf1 := p_end_abf1 l;
     g_name := p_name l; g_score := p_score l; g_strand_abf1 := p_strand l;
     g_start := m_start r; g_end := m_end r;
     g_col3 := m_col3 r; g_col4 := m_col4 r; g_strand_four := m_strand r |}.

(** [pd.merge(left, right, on='chrom')], an inner join: every pair of a
    left and a right row with the same key, in the order of the left rows
    and, for one left row, of the right rows (the order pandas documents for
    an inner join; releases before 2.2 group the pairs by key instead, which
    is the same order when the rows of a chromosome are contiguous). *)
Definition merge_on_chrom (left : list PeakRow) (right : list MotifRow)
  : list MergedRow :=
  flat_map (λ l,
    merged_row l <$> List.filter (λ r, bool_decide (p_chrom l = m_chrom r)) right)
    left.

(** [pd.concat(frames)] of a non-empty list of frames. *)
Definition concat_frames {A} (frames : list (list A)) : list A := concat frames.

End Pandas.

Import Pandas.

(** ** The pure steps of the script *)

(** Line 19: the mask of the rows of the sheet kept for [tf_name]. *)
Definition tf_mask (tf_name : string) (r : MetaRow) : bool :=
  match tf_common_name r with
  | Some s => bool_decide (lower (strip s) = lower tf_name)
  | None => false
  end.

(** Lines 19-22 of [get_replicates_for_tf], on the sheet already read. *)
Definition replicates_of_sheet (tf_name : string) (df : list MetaRow)
  : list (cell * cell) :=
  let df_tf := List.filter (tf_mask tf_name) df in
  drop_duplicates ((λ r, (meta_replicate r, meta_sample_id r)) <$> df_tf).

(** Line 117: the mask on the merged table. *)
Definition condition (x : MergedRow) : bool :=
  (g_start_abf1 x >=? g_start x)%Z && (g_start_abf1 x <=? g_end x)%Z.

(** Lines 120-121: the columns kept, and the motif number added. *)
Definition select_columns (motif_num : nat) (x : MergedRow) : JoinedRow :=
  {| chrom := g_chrom x;
     start_abf1 := g_start_abf1 x; end_abf1 := g_end_abf1 x;
     score := g_score x; strand_four := g_strand_four x;
     motif := motif_num |}.

(** Lines 115-121: the body of the loop of [merge_motif_with_chexmix]. *)
Definition merge_one (chexmix_df : list PeakRow) (motif_num : nat)
  (motif_df : list MotifRow) : list JoinedRow :=
  let merged := merge_on_chrom chexmix_df motif_df in
  let filtered := List.filter condition merged in
  select_columns motif_num <$> filtered.

(** [merge_motif_with_chexmix(motif_dfs, chexmix_df)], lines 108-127, without
    its [print].  [motif_dfs] is the dict in its iteration order. *)
Definition merge_motif_with_chexmix (motif_dfs : list (nat * list MotifRow))
  (chexmix_df : list PeakRow) : list JoinedRow :=
  let all_results :=
    (λ kv, merge_one chexmix_df (fst kv) (snd kv)) <$> motif_dfs in
  match all_results with
  | [] => []
  | _ => drop_duplicates (concat_frames all_results)
  end.

(** Lines 152-153: the sample and the replicate added to every row. *)
Definition tag_replicate (sample : string) (replicate_name : cell)
  (combined : list JoinedRow) : list AggRow :=
  (λ j, {| joined := j; sample_id := sample; replicate := replicate_name |})
    <$> combined.

(** The subset of columns of line 157. *)
Definition coord_key (r : AggRow) : string * Z * Z * cell :=
  (chrom (joined r), start_abf1 (joined r), end_abf1 (joined r), score (joined r)).

(** Lines 156-160: [Some] of the final table, or [None] where the script
    prints that there are no results and returns. *)
Definition aggregate (aggregated_results : list (list AggRow))
  : option (list AggRow) :=
  match aggregated_results with
  | [] => None
  | _ => Some (drop_duplicates_by coord_key (concat_frames aggregated_results))
  end.


(** ** The world of the script: file system, network, libraries *)

(** The Python exception classes that can be raised in the script. *)
Inductive exn_class : Type :=
| HTTPError            (* requests: raise_for_status *)
| ConnectionError      (* requests: transport failure *)
| FileNotFoundError
| FileExistsError
| IsADirectoryError
| NotADirectoryError
| BadZipFile           (* zipfile *)
| ParserError          (* pandas parsers, EmptyDataError included *)
| ValueError           (* pandas: wrong number of column names, missing sheet *)
| OtherError.

(** An exception: its class and [str(e)]. *)
Record exn : Type := Exn { exn_cls : exn_class; exn_msg : string }.

Global Instance exn_class_eq_dec : EqDecision exn_class.
Proof. solve_decision. Defined.
Global Instance exn_eq_dec : EqDecision exn.
Proof. solve_decision. Defined.

(** The error classes of the specification, for the exceptions above. *)
Inductive spec_error : Type := NetworkError | FormatError | UnclassifiedError.

Definition spec_error_of (e : exn) : spec_error :=
  match exn_cls e with
  | HTTPError | ConnectionError => NetworkError
  | ParserError | ValueError | BadZipFile => FormatError
  | _ => UnclassifiedError
  end.

(** What [requests.get(url)] does: it returns a response or raises. *)
Inductive response : Type :=
| Response (status_code : nat) (reason : string) (content : string)
| NoResponse (e : exn).

(** What [pd.read_csv(f, sep='\t', header=None)] returns: the number of
    columns and, read at the six-column schema, the rows.  The rows are
    looked at only when there are six columns. *)
Record Bed6 : Type := mkBed6 {
  b0 : string; b1 : Z; b2 : Z; b3 : cell; b4 : cell; b5 : string
}.

Record Frame : Type := mkFrame { ncols : nat; rows : list Bed6 }.

(** The libraries and the network, as functions of what they are given:
    a URL, the content of a file. *)
Record Env : Type := mkEnv {
  requests_get : string → response;
  read_csv : string → exn + Frame;
  zip_members : string → exn + list (string * string);
  read_excel : string → string → exn + list MetaRow
}.

(** The file system. *)
Record FS : Type := mkFS {
  files : gmap string string;
  dirs : gset string
}.

(** What the script does to the outside, in order: the lines and the tables
    it prints, the requests it sends, the archives it extracts. *)
Inductive event : Type :=
| Stdout (line : string)
| StdoutFrame (df : list MotifRow)
| HttpGet (url : string)
| Unzipped (zip_filename extract_path : string).

Global Instance event_eq_dec : EqDecision event.
Proof. solve_decision. Defined.

(** How a call ends: with a value, with an exception, or not at all (a loop
    that was given too little fuel). *)
Inductive outcome (A : Type) : Type :=
| Ok (a : A)
| Raised (e : exn)
| Diverges.

Arguments Ok {A} a.
Arguments Raised {A} e.
Arguments Diverges {A}.

(** A computation of the script: from a file system to an outcome, the file
    system it leaves and the events it caused. *)
Definition M (A : Type) : Type := FS → outcome A * FS * list event.

Definition ret {A} (a : A) : M A := λ fs, (Ok a, fs, []).

(** The events [evs] happened before the run [r]. *)
Definition prepend {A} (evs : list event) (r : outcome A * FS * list event)
  : outcome A * FS * list event :=
  (fst (fst r), snd (fst r), evs ++ snd r).

Definition bind {A B} (m : M A) (k : A → M B) : M B := λ fs,
  match m fs with
  | (Ok a, fs1, ev1) => prepend ev1 (k a fs1)
  | (Raised e, fs1, ev1) => (Raised e, fs1, ev1)
  | (Diverges, fs1, ev1) => (Diverges, fs1, ev1)
  end.

Notation "x <- m ;; k" := (bind m (λ x, k))
  (at level 100, m at next level, right associativity).
Notation "m ;; k" := (bind m (λ _, k))
  (at level 100, right associativity).

Definition raise {A} (e : exn) : M A := λ fs, (Raised e, fs, []).
Definition diverge {A} : M A := λ fs, (Diverges, fs, []).
Definition emit (e : event) : M unit := λ fs, (Ok tt, fs, [e]).
Definition print (line : string) : M unit := emit (Stdout line).
Definition get_fs : M FS := λ fs, (Ok fs, fs, []).
Definition put_fs (fs' : FS) : M unit := λ _, (Ok tt, fs', []).

(** [try: m except Exception as e: h(e)] *)
Definition try_except {A} (m : M A) (h : exn → M A) : M A := λ fs,
  match m fs with
  | (Raised e, fs1, ev1) => prepend ev1 (h e fs1)
  | other => other
  end.

(** The URLs requested and the archives extracted, among the events. *)
Definition downloads (ev : list event) : list string :=
  omap (λ e, match e with HttpGet url => Some url | _ => None end) ev.
Definition extractions (ev : list event) : list (string * string) :=
  omap (λ e, match e with Unzipped z d => Some (z, d) | _ => None end) ev.

(** The three parts of a run. *)
Definition result {A} (r : outcome A * FS * list event) : outcome A := fst (fst r).
Definition state {A} (r : outcome A * FS * list event) : FS := snd (fst r).
Definition events {A} (r : outcome A * FS * list event) : list event := snd r.

(** [ends m fs Q]: the run of [m] from [fs] ends in an outcome, a file system
    and events that satisfy [Q]. *)
Definition ends {A} (m : M A) (fs : FS)
  (Q : outcome A → FS → list event → Prop) : Prop :=
  Q (result (m fs)) (state (m fs)) (events (m fs)).

(** [m] ends, with a value or an exception, from every file system. *)
Definition terminates {A} (m : M A) : Prop :=
  ∀ fs, result (m fs) ≠ Diverges.

(** Events that are lines and requests only: no table printed, no archive
    extracted. *)
Definition quiet (ev : list event) : Prop :=
  Forall (λ e, match e with Stdout _ | HttpGet _ => True | _ => False end) ev.

Definition lift_result {A} (r : exn + A) : M A :=
  match r with
  | inl e => raise e
  | inr a => ret a
  end.

(** *** File system calls *)

Definition isfile (p : string) (fs : FS) : bool :=
  bool_decide (is_Some (files fs !! p)).
Definition isdir (p : string) (fs : FS) : bool :=
  bool_decide (p ∈ dirs fs).

(** The file system only grows: no file and no directory goes away. *)
Definition grows (fs fs' : FS) : Prop :=
  (∀ p, isfile p fs = true → isfile p fs' = true) ∧
  (∀ p, isdir p fs = true → isdir p fs' = true).

Definition os_path_isfile (p : string) : M bool := fs <- get_fs ;; ret (isfile p fs).
Definition os_path_isdir (p : string) : M bool := fs <- get_fs ;; ret (isdir p fs).
Definition os_path_exists (p : string) : M bool :=
  fs <- get_fs ;; ret (isfile p fs || isdir p fs).

Definition quoted (p : string) : string := "'" +:+ p +:+ "'".

(** The directories above [p], nearest first. *)
Fixpoint ancestors_go (fuel : nat) (p : string) : list string :=
  match fuel with
  | 0 => []
  | S fuel' =>
      let d := dirname p in
      if bool_decide (d = "") || bool_decide (d = p) then []
      else d :: ancestors_go fuel' d
  end.

Definition ancestors (p : string) : list string :=
  ancestors_go (String.length p) p.

(** [os.makedirs(p, exist_ok=True)] *)
Definition os_makedirs (p : string) : M unit :=
  fs <- get_fs ;;
  if isfile p fs then
    raise (Exn FileExistsError ("[Errno 17] File exists: " +:+ quoted p))
  else
    match List.filter (λ d, isfile d fs) (ancestors p) with
    | d :: _ =>
        raise (Exn NotADirectoryError ("[Errno 20] Not a directory: " +:+ quoted p))
    | [] =>
        put_fs {| files := files fs;
                  dirs := dirs fs ∪ {[ p ]} ∪ list_to_set (ancestors p) |}
    end.

(** [with open(p, 'wb') as f: f.write(content)] *)
Definition write_file (p content : string) : M unit :=
  fs <- get_fs ;;
  if isdir p fs then
    raise (Exn IsADirectoryError ("[Errno 21] Is a directory: " +:+ quoted p))
  else if bool_decide (dirname p = "") || isdir (dirname p) fs then
    put_fs {| files := <[ p := content ]> (files fs); dirs := dirs fs |}
  else
    raise (Exn FileNotFoundError
             ("[Errno 2] No such file or directory: " +:+ quoted p)).

(** Opening [p] for reading and reading all of it. *)
Definition read_file (p : string) : M string :=
  fs <- get_fs ;;
  match files fs !! p with
  | Some content => ret content
  | None =>
      if isdir p fs then
        raise (Exn IsADirectoryError ("[Errno 21] Is a directory: " +:+ quoted p))
      else
        raise (Exn FileNotFoundError
                 ("[Errno 2] No such file or directory: " +:+ quoted p))
  end.

(** ** The script *)

(** Lines 7-10. *)
Definition metadata_xlsx : string :=
  "/usr/xtmp/nd141/projects/data/supplementary-data-4-210306.xlsx".
Definition base_url : string :=
  "https://www.datacommons.psu.edu/download/eberly/pughlab/yeast-epigenome-project/".
Definition data_dir : string := "/usr/xtmp/nd141/projects/data".
Definition output_dir : string := "./output".

Definition sheet_name : string := "GEO_GPL19756_GSE147927".
Definition chexmix_url : string :=
  "https://github.com/CEGRcode/2021-Rossi_Nature/raw/master/04_ChExMix_Peaks/".

Definition newline : string := String (ascii_of_nat 10) EmptyString.
Definition tab : string := String (ascii_of_nat 9) EmptyString.

(** [df.columns = [...]] with six names: pandas refuses a frame that does not
    have six columns. *)
Definition length_mismatch (old_len new_len : nat) : exn :=
  Exn ValueError
    ("Length mismatch: Expected axis has " +:+ pretty old_len +:+
     " elements, new values have " +:+ pretty new_len +:+ " elements").

Definition set_columns6 (df : Frame) : M (list Bed6) :=
  if bool_decide (ncols df = 6) then ret (rows df)
  else raise (length_mismatch (ncols df) 6).

(** Line 65: the names of a motif table. *)
Definition motif_row (b : Bed6) : MotifRow :=
  {| m_chrom := b0 b; m_start := b1 b; m_end := b2 b;
     m_col3 := b3 b; m_col4 := b4 b; m_strand := b5 b |}.

(** Lines 103-105: the names of the peak table. *)
Definition peak_row (b : Bed6) : PeakRow :=
  {| p_chrom := b0 b; p_start_abf1 := b1 b; p_end_abf1 := b2 b;
     p_name := b3 b; p_score := b4 b; p_strand := b5 b |}.

(** [r.raise_for_status()] *)
Definition raise_for_status (url : string) (status_code : nat) (reason : string)
  : M unit :=
  if (400 <=? status_code) && (status_code <? 500) then
    raise (Exn HTTPError (pretty status_code +:+ " Client Error: " +:+ reason
                          +:+ " for url: " +:+ url))
  else if (500 <=? status_code) && (status_code <? 600) then
    raise (Exn HTTPError (pretty status_code +:+ " Server Error: " +:+ reason
                          +:+ " for url: " +:+ url))
  else ret tt.

Definition rstrip_slashes (s : string) : string :=
  String.rev (lstrip_slashes (String.rev s)).

(** The file name of motif [motif_num], line 59. *)
Definition motif_file_path (extract_path sample : string) (motif_num : nat)
  : string :=
  path_join extract_path
    (sample +:+ "_YEP/" +:+ sample +:+ "_Motif_" +:+ pretty motif_num
     +:+ "_FourColor.bed").

(** One field of the file [to_csv] writes; a missing value is written as
    the empty field.  (The quoting of a field that holds a separator is not
    modelled.) *)
Definition csv_cell (c : cell) : string :=
  match c with
  | CNaN => ""
  | _ => cell_str c
  end.

Fixpoint join_with (sep : string) (fields : list string) : string :=
  match fields with
  | [] => ""
  | [f] => f
  | f :: fields' => f +:+ sep +:+ join_with sep fields'
  end.

(** Line 162: the names of the final table. *)
Definition final_columns : list string :=
  ["chr"; "start"; "end"; "peakVal"; "strand"; "motif"; "sample_id"; "replicate"].

Definition csv_line (r : AggRow) : string :=
  join_with tab
    [chrom (joined r); pretty (start_abf1 (joined r));
     pretty (end_abf1 (joined r)); csv_cell (score (joined r));
     strand_four (joined r); pretty (motif (joined r));
     sample_id r; csv_cell (replicate r)] +:+ newline.

(** The text of [final_df.to_csv(f, sep='\t', index=False)]. *)
Definition to_csv_text (final_df : list AggRow) : string :=
  join_with tab final_columns +:+ newline +:+
  foldr (λ r acc, csv_line r +:+ acc) "" final_df.

Definition output_bed_file (tf_name : string) : string :=
  path_join output_dir (lower tf_name +:+ "_rossi_peak_w_strand.bed").

(** Lines 28 and 30: the archive of a sample, on disk and on the server. *)
Definition zip_path (sample dest_folder : string) : string :=
  path_join dest_folder (sample +:+ "_YEP.zip").
Definition sample_url (sample : string) : string :=
  base_url +:+ sample +:+ "_YEP.zip".

Section Script.
Context (E : Env).

(** [requests.get(url)]: the status, the reason and the body. *)
Definition http_get (url : string) : M (nat * string * string) :=
  emit (HttpGet url) ;;
  match requests_get E url with
  | Response status_code reason content => ret (status_code, reason, content)
  | NoResponse e => raise e
  end.

(** [pd.read_csv(path, sep='\t', header=None)] *)
Definition pd_read_csv (path : string) : M Frame :=
  content <- read_file path ;;
  lift_result (read_csv E content).

(** [pd.read_excel(path, sheet_name=sheet)] *)
Definition pd_read_excel (path sheet : string) : M (list MetaRow) :=
  content <- read_file path ;;
  lift_result (read_excel E content sheet).

(** [get_replicates_for_tf(tf_name, metadata_file)], lines 13-22. *)
Definition get_replicates_for_tf (tf_name metadata_file : string)
  : M (list (cell * cell)) :=
  df <- pd_read_excel metadata_file sheet_name ;;
  ret (replicates_of_sheet tf_name df).

(** One member of an archive, extracted under [extract_path]: the
    directories above it are made where missing, then it is written (a name
    that ends with a slash is a directory). *)
Definition extract_member (extract_path : string) (member : string * string)
  : M unit :=
  let arcname := lstrip_slashes (fst member) in
  let targetpath := rstrip_slashes (path_join extract_path arcname) in
  let upperdirs := dirname targetpath in
  there <- os_path_exists upperdirs ;;
  (if bool_decide (upperdirs = "") || there then ret tt
   else os_makedirs upperdirs) ;;
  if endswith_slash (fst member) then
    there' <- os_path_isdir targetpath ;;
    if there' then ret tt else os_makedirs targetpath
  else write_file targetpath (snd member).

Fixpoint extract_members (extract_path : string)
  (members : list (string * string)) : M unit :=
  match members with
  | [] => ret tt
  | member :: members' =>
      extract_member extract_path member ;;
      extract_members extract_path members'
  end.

(** [with zipfile.ZipFile(zip_filename, 'r') as zip_ref:
       zip_ref.extractall(extract_path)] *)
Definition zip_extractall (zip_filename extract_path : string) : M unit :=
  content <- read_file zip_filename ;;
  members <- lift_result (zip_members E content) ;;
  emit (Unzipped zip_filename extract_path) ;;
  extract_members extract_path members.

(** [download_and_extract_zip(sample_id, dest_folder)], lines 24-48. *)
Definition download_and_extract_zip (sample dest_folder : string) : M string :=
  let zip_filename := zip_path sample dest_folder in
  downloaded <- os_path_isfile zip_filename ;;
  (if negb downloaded then
     let url := sample_url sample in
     print ("Downloading " +:+ url +:+ " ...") ;;
     r <- http_get url ;;
     raise_for_status url (fst (fst r)) (snd (fst r)) ;;
     write_file zip_filename (snd r)
   else
     print (zip_filename +:+ " already downloaded.")) ;;
  let extract_path := path_join dest_folder sample in
  extracted <- os_path_isdir extract_path ;;
  (if negb extracted then
     print ("Extracting " +:+ zip_filename +:+ " to " +:+ extract_path) ;;
     zip_extractall zip_filename extract_path
   else
     print (extract_path +:+ " already extracted.")) ;;
  ret extract_path.

(** The [while True] loop of lines 58-67, from [motif_num] on; [fuel] bounds
    the number of turns. *)
Fixpoint load_motifs_from (fuel : nat) (extract_path sample : string)
  (motif_num : nat) (motif_dfs : list (nat * list MotifRow))
  : M (list (nat * list MotifRow)) :=
  match fuel with
  | 0 => diverge
  | S fuel' =>
      let motif_file := motif_file_path extract_path sample motif_num in
      there <- os_path_isfile motif_file ;;
      if negb there then ret motif_dfs
      else
        print ("Reading motif file: " +:+ motif_file) ;;
        df <- pd_read_csv motif_file ;;
        named <- set_columns6 df ;;
        load_motifs_from fuel' extract_path sample (motif_num + 1)
          (motif_dfs ++ [(motif_num, motif_row <$> named)])
  end.

(** [load_all_motif_bed_files(extract_path, sample_id)], lines 50-68.  The
    loop gets one turn more than there are files. *)
Definition load_all_motif_bed_files (extract_path sample : string)
  : M (list (nat * list MotifRow)) :=
  fs <- get_fs ;;
  load_motifs_from (S (size (files fs))) extract_path sample 1 [].

(** The file name, the URL and the local path of lines 75-78. *)
Definition chexmix_filename (tf_name : string) : string :=
  capitalize tf_name +:+ "_CX.bed".
Definition chexmix_file_url (tf_name : string) : string :=
  chexmix_url +:+ chexmix_filename tf_name.
Definition chexmix_out_path (tf_name dest_dir : string) : string :=
  path_join dest_dir (chexmix_filename tf_name).

(** [download_tf_chexmix_bed(tf_name, dest_dir)], lines 70-90. *)
Definition download_tf_chexmix_bed (tf_name dest_dir : string) : M string :=
  let filename := chexmix_filename tf_name in
  let url := chexmix_file_url tf_name in
  let out_path := chexmix_out_path tf_name dest_dir in
  there <- os_path_exists out_path ;;
  (if negb there then
     print ("Downloading " +:+ filename +:+ " from " +:+ url +:+ " ...") ;;
     r <- http_get url ;;
     raise_for_status url (fst (fst r)) (snd (fst r)) ;;
     write_file out_path (snd r) ;;
     print ("Saved to " +:+ out_path)
   else
     print (filename +:+ " already downloaded.")) ;;
  ret out_path.

(** [load_tf_chexmix_bed(tf_name, data_dir)], lines 92-106. *)
Definition load_tf_chexmix_bed (tf_name dest_dir : string) : M (list PeakRow) :=
  os_makedirs dest_dir ;;
  chexmix_bed_file <- download_tf_chexmix_bed tf_name dest_dir ;;
  df <- pd_read_csv chexmix_bed_file ;;
  named <- set_columns6 df ;;
  ret (peak_row <$> named).

(** [merge_motif_with_chexmix] with its [print] of every motif table. *)
Definition merge_motif_with_chexmix_m (motif_dfs : list (nat * list MotifRow))
  (chexmix_df : list PeakRow) : M (list JoinedRow) :=
  foldr (λ kv rest, emit (StdoutFrame (snd kv)) ;; rest) (ret tt) motif_dfs ;;
  ret (merge_motif_with_chexmix motif_dfs chexmix_df).

(** The body of the loop of [main], lines 139-154: [Some] of the table the
    replicate adds to [aggregated_results], [None] at the [continue]. *)
Definition replicate_body (chexmix_df : list PeakRow) (row : cell * cell)
  : M (option (list AggRow)) :=
  let sample := cell_str (snd row) in
  let replicate_name := fst row in
  print ("Processing replicate: " +:+ cell_str replicate_name +:+
         " Sample ID: " +:+ sample) ;;
  extract_path <- download_and_extract_zip sample data_dir ;;
  motif_dfs <- load_all_motif_bed_files extract_path sample ;;
  match motif_dfs with
  | [] =>
      print ("No motif files found for sample " +:+ sample +:+ ", skipping.") ;;
      ret None
  | _ =>
      combined <- merge_motif_with_chexmix_m motif_dfs chexmix_df ;;
      ret (Some (tag_replicate sample replicate_name combined))
  end.

(** The loop of [main], lines 138-154. *)
Fixpoint for_replicates (chexmix_df : list PeakRow)
  (replicates : list (cell * cell)) (aggregated_results : list (list AggRow))
  : M (list (list AggRow)) :=
  match replicates with
  | [] => ret aggregated_results
  | row :: replicates' =>
      r <- replicate_body chexmix_df row ;;
      match r with
      | None => for_replicates chexmix_df replicates' aggregated_results
      | Some combined =>
          for_replicates chexmix_df replicates' (aggregated_results ++ [combined])
      end
  end.

(** Lines 131-135 of [main]: the replicates and the peak table. *)
Definition main_load (tf_name : string)
  : M (list (cell * cell) * list PeakRow) :=
  replicates <- get_replicates_for_tf tf_name metadata_xlsx ;;
  print ("Found " +:+ pretty (length replicates) +:+ " replicates for TF "
         +:+ tf_name +:+ ".") ;;
  chexmix_df <- load_tf_chexmix_bed tf_name data_dir ;;
  ret (replicates, chexmix_df).

(** Lines 156-167 of [main].  The final table has eight columns, so the
    eight names of line 162 always fit. *)
Definition main_save (tf_name : string) (aggregated_results : list (list AggRow))
  : M unit :=
  match aggregate aggregated_results with
  | None => print "No results found for any replicates."
  | Some final_df =>
      print ("Saving final results to " +:+ output_bed_file tf_name) ;;
      write_file (output_bed_file tf_name) (to_csv_text final_df) ;;
      print "Pipeline finished."
  end.

(** [main(tf_name)], lines 129-167. *)
Definition main (tf_name : string) : M unit :=
  loaded <- main_load tf_name ;;
  aggregated_results <- for_replicates (snd loaded) (fst loaded) [] ;;
  main_save tf_name aggregated_results.

(** Line 179: the distinct names of the sheet, nulls dropped. *)
Definition unique_tfs (df : list MetaRow) : list string :=
  drop_duplicates (omap tf_common_name df).

(** Lines 181-186: the loop of [run_all_tfs]. *)
Fixpoint for_tfs (tfs : list string) : M unit :=
  match tfs with
  | [] => ret tt
  | tf_name :: tfs' =>
      print (newline +:+ "Running pipeline for TF: " +:+ tf_name) ;;
      try_except (main tf_name)
        (λ e, print ("Error processing " +:+ tf_name +:+ ": " +:+ exn_msg e)) ;;
      for_tfs tfs'
  end.

(** [run_all_tfs(metadata_file)], lines 175-186. *)
Definition run_all_tfs (metadata_file : string) : M unit :=
  df <- pd_read_excel metadata_file sheet_name ;;
  for_tfs (unique_tfs df).

(** The module itself: lines 11 and 189. *)
Definition script : M unit :=
  os_makedirs output_dir ;;
  run_all_tfs metadata_xlsx.

End Script.

(** The table of motif [i] of a sample, as [load_all_motif_bed_files] reads
    it: the file is there, it parses, it has six columns. *)
Definition motif_table_at (E : Env) (fs : FS) (extract_path sample : string)
  (i : nat) : option (list MotifRow) :=
  content ← files fs !! motif_file_path extract_path sample i;
  match read_csv E content with
  | inr df => if decide (ncols df = 6) then Some (motif_row <$> rows df) else None
  | inl _ => None
  end.

(** ** The claims' reading of the join and of the de-duplication

    The definitions of this part follow the words of the specification; the
    theorems below compare them with the definitions above, which follow
    the code. *)

Module Spec.

(** The rows that are first among the rows with their key: row number [i]
    is kept when no row before it has its key. *)
Definition first_occurrences {A K} `{EqDecision K} (key : A → K) (l : list A)
  : list A :=
  omap (λ ix : nat * A,
          if decide (Exists (λ y, key y = key (snd ix)) (take (fst ix) l))
          then None else Some (snd ix))
       (imap pair l).

(** The same, when the rows [pre] came before [l]. *)
Definition firsts_after {A K} `{EqDecision K} (key : A → K) (pre l : list A)
  : list A :=
  omap (λ ix : nat * A,
          if decide (Exists (λ y, key y = key (snd ix)) (take (fst ix) (pre ++ l)))
          then None else Some (snd ix))
       (imap (λ i, pair (length pre + i)) l).

(** The reference row [R] lies on the motif row [M]: same chromosome, and
    the start of [R] within the closed interval of [M]. *)
Definition on_motif (R : PeakRow) (M : MotifRow) : Prop :=
  p_chrom R = m_chrom M ∧ (m_start M ≤ p_start_abf1 R ≤ m_end M)%Z.

Global Instance on_motif_dec R M : Decision (on_motif R M).
Proof. unfold on_motif. apply _. Defined.

(** The projection of a pair to {chrom, R.start, R.end, R.score, M.strand},
    tagged with the motif index. *)
Definition project (motif_index : nat) (R : PeakRow) (M : MotifRow) : JoinedRow :=
  {| chrom := p_chrom R; start_abf1 := p_start_abf1 R; end_abf1 := p_end_abf1 R;
     score := p_score R; strand_four := m_strand M; motif := motif_index |}.

(** The pairs of one motif table, projected. *)
Definition pairs (reference : list PeakRow) (motif_index : nat)
  (table : list MotifRow) : list JoinedRow :=
  R ← reference; M ← table;
  if decide (on_motif R M) then [project motif_index R M] else [].

(** The join of the specification. *)
Definition join (reference : list PeakRow) (motifs : list (nat * list MotifRow))
  : list JoinedRow :=
  first_occurrences (λ r, r) (kv ← motifs; pairs reference (fst kv) (snd kv)).

(** Two names are the same under the case-insensitive, whitespace-trimmed
    comparison. *)
Definition same_tf (a b : string) : Prop :=
  lower (strip a) = lower (strip b).

Global Instance same_tf_dec a b : Decision (same_tf a b).
Proof. unfold same_tf. apply _. Defined.

(** The distinct (Replicate, Sample ID) pairs of the rows of the sheet whose
    name is the same as [tf_name]. *)
Definition replicates (tf_name : string) (sheet : list MetaRow)
  : list (cell * cell) :=
  first_occurrences (λ p, p)
    (r ← sheet;
     match tf_common_name r with
     | Some s => if decide (same_tf s tf_name)
                 then [(meta_replicate r, meta_sample_id r)] else []
     | None => []
     end).

(** A character with its ASCII letter upper-cased, lower-cased. *)
Definition upper_letter (c : ascii) : ascii :=
  let n := nat_of_ascii c in
  if (97 <=? n) && (n <=? 122) then ascii_of_nat (n - 32) else c.
Definition lower_letter (c : ascii) : ascii :=
  let n := nat_of_ascii c in
  if (65 <=? n) && (n <=? 90) then ascii_of_nat (n + 32) else c.

(** A name with every character lower-cased: two names are equal
    case-insensitively when they are equal so written. *)
Fixpoint lowered (s : string) : string :=
  match s with
  | EmptyString => EmptyString
  | String c s' => String (lower_letter c) (lowered s')
  end.

(** A name with its first character upper-cased and every remaining
    character lower-cased. *)
Definition capitalized (s : string) : string :=
  match s with
  | EmptyString => EmptyString
  | String c s' => String (upper_letter c) (lowered s')
  end.

(** The key of the aggregation: chrom, start, end and score. *)
Definition coordinates (r : AggRow) : string * Z * Z * cell :=
  (chrom (joined r), start_abf1 (joined r), end_abf1 (joined r), score (joined r)).

(** Two rows identical on chrom, start, end and score. *)
Definition same_coordinates (r1 r2 : AggRow) : Prop :=
  chrom (joined r1) = chrom (joined r2)
  ∧ start_abf1 (joined r1) = start_abf1 (joined r2)
  ∧ end_abf1 (joined r1) = end_abf1 (joined r2)
  ∧ score (joined r1) = score (joined r2).

(** The aggregation of the specification: the tables of the replicates one
    after the other, in replicate order, and of the rows with one key the
    first. *)
Definition aggregation (tables : list (list AggRow)) : list AggRow :=
  first_occurrences coordinates (concat tables).

End Spec.

(** ** A test bench: a small environment to run the script in *)

Module Fixture.

(** [s.split(sep)] *)
Fixpoint split_go (sep : ascii) (cur : string) (s : string) : list string :=
  match s with
  | EmptyString => [String.rev cur]
  | String c s' =>
      if bool_decide (c = sep) then String.rev cur :: split_go sep "" s'
      else split_go sep (String c cur) s'
  end.

Definition split (sep : ascii) (s : string) : list string := split_go sep "" s.

Fixpoint digits_go (acc : N) (s : string) : option N :=
  match s with
  | EmptyString => Some acc
  | String c s' =>
      match Ascii.is_nat c with
      | Some d => digits_go (acc * 10 + N.of_nat d)%N s'
      | None => None
      end
  end.

(** A decimal integer, with an optional minus sign. *)
Definition parse_int (s : string) : option Z :=
  match s with
  | EmptyString => None
  | String "-"%char s' =>
      if bool_decide (s' = "") then None
      else (λ n, (- Z.of_N n)%Z) <$> digits_go 0 s'
  | _ => Z.of_N <$> digits_go 0 s
  end.

Definition parse_cell (s : string) : cell :=
  match parse_int s with
  | Some z => CInt z
  | None => if bool_decide (s = "") then CNaN else CStr s
  end.

Definition parse_bed6 (fields : list string) : option Bed6 :=
  match fields with
  | [c; s; e; x; y; d] =>
      match parse_int s, parse_int e with
      | Some s', Some e' => Some (mkBed6 c s' e' (parse_cell x) (parse_cell y) d)
      | _, _ => None
      end
  | _ => None
  end.

(** A reader of tab-separated text: as many columns as the first line has
    fields. *)
Definition tsv_read_csv (content : string) : exn + Frame :=
  let lines := List.filter (λ l, negb (bool_decide (l = "")))
                 (split (ascii_of_nat 10) content) in
  match lines with
  | [] => inl (Exn ParserError "No columns to parse from file")
  | l :: _ =>
      inr {| ncols := length (split (ascii_of_nat 9) l);
             rows := omap (λ l', parse_bed6 (split (ascii_of_nat 9) l')) lines |}
  end.

Definition tsv (lines : list (list string)) : string :=
  foldr (λ l acc, join_with tab l +:+ newline +:+ acc) "" lines.

Fixpoint assoc {V} (k : string) (l : list (string * V)) : option V :=
  match l with
  | [] => None
  | (k', v) :: l' => if bool_decide (k = k') then Some v else assoc k l'
  end.

(** An environment from tables: the responses by URL (404 elsewhere), the
    members by archive content, the sheet by workbook content. *)
Definition env (urls : list (string * response))
  (archives : list (string * list (string * string)))
  (workbooks : list (string * list MetaRow)) : Env :=
  {| requests_get := λ url,
       default (Response 404 "Not Found" "") (assoc url urls);
     read_csv := tsv_read_csv;
     zip_members := λ content,
       match assoc content archives with
       | Some members => inr members
       | None => inl (Exn BadZipFile "File is not a zip file")
       end;
     read_excel := λ content sheet,
       if bool_decide (sheet = sheet_name) then
         match assoc content workbooks with
         | Some sheet_rows => inr sheet_rows
         | None => inl (Exn ValueError "Excel file format cannot be determined")
         end
       else inl (Exn ValueError ("Worksheet named '" +:+ sheet +:+ "' not found")) |}.

Definition cx_url (tf_name : string) : string := chexmix_url +:+ tf_name +:+ "_CX.bed".

(** The workbook of the end-to-end scenario: one factor, two replicates. *)
Definition abf1_sheet : list MetaRow :=
  [ mkMetaRow (Some "Abf1") (CStr "R1") (CStr "S1");
    mkMetaRow (Some "Abf1") (CStr "R2") (CStr "S2") ].

Definition motif_text (lo hi strand : string) : string :=
  tsv [["chrI"; lo; hi; "."; "0"; strand]].

Definition peaks_text : string := tsv [["chrI"; "150"; "160"; "."; "5"; "+"]].
Definition far_peaks_text : string := tsv [["chrI"; "500"; "510"; "."; "5"; "+"]].
Definition short_peaks_text : string := tsv [["chrI"; "150"; "160"; "."; "5"]].

Definition s1_members : list (string * string) :=
  [ ("S1_YEP/S1_Motif_1_FourColor.bed", motif_text "100" "200" "+");
    ("S1_YEP/S1_Motif_2_FourColor.bed", motif_text "300" "400" "-") ].
Definition s2_members : list (string * string) :=
  [ ("S2_YEP/readme.txt", "no motifs") ].
Definition s3_members : list (string * string) :=
  [ ("S3_YEP/S3_Motif_1_FourColor.bed", motif_text "100" "200" "+");
    ("S3_YEP/S3_Motif_3_FourColor.bed", motif_text "300" "400" "-") ].

Definition s2_full_members : list (string * string) :=
  [ ("S2_YEP/S2_Motif_1_FourColor.bed", motif_text "100" "200" "-") ].

Definition archives : list (string * list (string * string)) :=
  [ ("zip of S1", s1_members); ("zip of S2", s2_members);
    ("zip of S3", s3_members); ("full zip of S2", s2_full_members);
    ("empty zip", []) ].

(** A workbook whose one name carries a trailing space. *)
Definition spaced_sheet : list MetaRow :=
  [ mkMetaRow (Some "Abf1 ") (CStr "R1") (CStr "S1") ].

Definition workbooks : list (string * list MetaRow) :=
  [ ("workbook", abf1_sheet); ("spaced workbook", spaced_sheet) ].

(** The disk before the script runs: the workbook, the data and the output
    directories. *)
Definition disk0 : FS :=
  {| files := {[ metadata_xlsx := "workbook" ]};
     dirs := {[ data_dir; output_dir ]} |}.

(** The end-to-end scenario of the specification. *)
Definition env_e2e : Env :=
  env [ (sample_url "S1", Response 200 "OK" "zip of S1");
        (sample_url "S2", Response 200 "OK" "zip of S2");
        (cx_url "Abf1", Response 200 "OK" peaks_text) ]
      archives workbooks.

(** The archive of the first sample is not on the server; the second sample
    has a motif under the peak. *)
Definition env_s1_missing : Env :=
  env [ (sample_url "S2", Response 200 "OK" "full zip of S2");
        (cx_url "Abf1", Response 200 "OK" peaks_text) ]
      archives workbooks.

(** The same as the first, but the peak lies on no motif. *)
Definition env_far_peak : Env :=
  env [ (sample_url "S1", Response 200 "OK" "zip of S1");
        (sample_url "S2", Response 200 "OK" "zip of S2");
        (cx_url "Abf1", Response 200 "OK" far_peaks_text) ]
      archives workbooks.

(** No sample has a motif file. *)
Definition env_no_motifs : Env :=
  env [ (sample_url "S1", Response 200 "OK" "zip of S2");
        (sample_url "S2", Response 200 "OK" "zip of S2");
        (cx_url "Abf1", Response 200 "OK" peaks_text) ]
      archives workbooks.

(** The same as the first, but the peak file has five columns. *)
Definition env_short_peaks : Env :=
  env [ (sample_url "S1", Response 200 "OK" "zip of S1");
        (sample_url "S2", Response 200 "OK" "zip of S2");
        (cx_url "Abf1", Response 200 "OK" short_peaks_text) ]
      archives workbooks.

(** The disk with the workbook whose name carries a trailing space. *)
Definition disk_spaced : FS :=
  {| files := {[ metadata_xlsx := "spaced workbook" ]};
     dirs := {[ data_dir; output_dir ]} |}.

(** A server whose archive of the first sample is empty. *)
Definition env_empty_zip : Env :=
  env [ (sample_url "S1", Response 200 "OK" "empty zip") ] archives workbooks.

(** A disk without the data directory. *)
Definition disk_no_data_dir : FS :=
  {| files := {[ metadata_xlsx := "workbook" ]};
     dirs := {[ output_dir ]} |}.


(** What the script reads of the first workbook and of the peak files. *)
Definition abf1_replicates : list (cell * cell) :=
  [ (CStr "R1", CStr "S1"); (CStr "R2", CStr "S2") ].
Definition abf1_peaks : list PeakRow :=
  [ mkPeakRow "chrI" 150 160 (CStr ".") (CInt 5) "+" ].
Definition far_peaks : list PeakRow :=
  [ mkPeakRow "chrI" 500 510 (CStr ".") (CInt 5) "+" ].

(** Two calls of the fetcher in sequence: the second call, and the events of
    both. *)
Definition second_call (E : Env) (sample dest_folder : string) (fs : FS)
  : outcome string * FS * list event :=
  download_and_extract_zip E sample dest_folder
    (state (download_and_extract_zip E sample dest_folder fs)).

Definition both_calls (E : Env) (sample dest_folder : string) (fs : FS)
  : list event :=
  events (download_and_extract_zip E sample dest_folder fs)
  ++ events (second_call E sample dest_folder fs).

End Fixture.

(** ** Further notions for the properties of the script *)

(** The coordinates of a peak, as the key of line 157 reads them off a row
    of the output. *)
Definition peak_key (R : PeakRow) : string * Z * Z * cell :=
  (p_chrom R, p_start_abf1 R, p_end_abf1 R, p_score R).

(** The table the loop of [main] adds for the replicate [row]: the join of
    the peak table with the motif tables 1..k of the sample, tagged with the
    sample and the replicate (lines 142-153). *)
Definition table_of (chexmix_df : list PeakRow) (row : cell * cell)
  (t : list AggRow) : Prop :=
  ∃ motif_dfs k,
    fst <$> motif_dfs = seq 1 k
    ∧ t = tag_replicate (cell_str (snd row)) (fst row)
            (merge_motif_with_chexmix motif_dfs chexmix_df).

(** Lines 134-167 of [main]: what it does once the replicates are read. *)
Definition main_rest (E : Env) (tf_name : string) (replicates : list (cell * cell))
  : M unit :=
  chexmix_df <- load_tf_chexmix_bed E tf_name data_dir ;;
  aggregated_results <- for_replicates E chexmix_df replicates [] ;;
  main_save tf_name aggregated_results.

(** A string that does not begin with whitespace. *)
Definition head_ok (s : string) : Prop :=
  match s with
  | EmptyString => True
  | String c _ => is_space c = false
  end.

(** A string that does not end with whitespace. *)
Fixpoint last_ok (s : string) : Prop :=
  match s with
  | EmptyString => True
  | String c s' =>
      match s' with
      | EmptyString => is_space c = false
      | _ => last_ok s'
      end
  end.

(** ** More cases for the test bench *)

Module Cases.
Import Fixture.

(** The row of the end-to-end scenario, and the same peak met again under
    a motif of the second sample. *)
Definition row_s1 : AggRow :=
  mkAggRow (mkJoinedRow "chrI" 150 160 (CInt 5) "+" 1) "S1" (CStr "R1").
Definition row_s2 : AggRow :=
  mkAggRow (mkJoinedRow "chrI" 150 160 (CInt 5) "-" 1) "S2" (CStr "R2").

(** The tables of the loop in the end-to-end scenario: the second sample
    has no motif file. *)
Definition e2e_tables : list (list AggRow) := [[row_s1]].

(** A server whose archive of the first sample is not an archive. *)
Definition env_bad_zip : Env :=
  env [ (sample_url "S1", Response 200 "OK" "not a zip") ] archives workbooks.

(** A server without any peak file. *)
Definition env_no_peaks : Env := env [] archives workbooks.

(** A disk with a directory in the place of the peak file. *)
Definition disk_peak_dir : FS :=
  {| files := {[ metadata_xlsx := "workbook" ]};
     dirs := {[ data_dir; output_dir; chexmix_out_path "Abf1" data_dir ]} |}.

(** A disk with the extracted files of a sample whose second motif file has
    five columns. *)
Definition disk_bad_motif : FS :=
  {| files := {[ "/d/S3/S3_YEP/S3_Motif_1_FourColor.bed" := motif_text "100" "200" "+";
                 "/d/S3/S3_YEP/S3_Motif_2_FourColor.bed" := short_peaks_text ]};
     dirs := {[ "/d"; "/d/S3"; "/d/S3/S3_YEP" ]} |}.

(** The Kelvin sign, U+212A: in UTF-8 the bytes E2 84 AA.  A name that has
    it where "Kar4" has its first letter. *)
Definition kelvin_sign : string :=
  String (ascii_of_nat 226) (String (ascii_of_nat 132) (String (ascii_of_nat 170) "")).
Definition kelvin_kar4 : string := kelvin_sign +:+ "ar4".

End Cases.

(** * Theorems *)

(** ** De-duplication *)

Section DuplicatesFacts.
Context {A K : Type} `{EqDecision K} (key : A → K).

Lemma drop_from_cons (seen : list K) (x : A) (l : list A) :
  drop_masked (x :: l) (duplicated_from key seen (x :: l)) =
  if bool_decide (key x ∈ seen)
  then drop_masked l (duplicated_from key (key x :: seen) l)
  else x :: drop_masked l (duplicated_from key (key x :: seen) l).
Proof. reflexivity. Qed.

(** The mask is [true] exactly at the rows whose key is in [seen] or at an
    earlier row. *)
Lemma duplicated_from_lookup (seen : list K) (l : list A) (j : nat) (x : A) :
  l !! j = Some x →
  ∃ b, duplicated_from key seen l !! j = Some b ∧
       (b = true ↔
        key x ∈ seen ∨ ∃ i y, i < j ∧ l !! i = Some y ∧ key y = key x).
Proof.
  revert seen j. induction l as [|a l IH]; intros seen j Hj; [done|].
  destruct j as [|j]; simpl in *.
  - injection Hj as ->. eexists. split; [done|].
    rewrite bool_decide_eq_true. split; [tauto|].
    intros [?|(i & y & Hi & _)]; [done|lia].
  - destruct (IH (key a :: seen) _ Hj) as (b & Hb & Hiff).
    exists b. split; [done|]. rewrite Hiff, elem_of_cons. split.
    + intros [[Heq|Hin]|(i & y & Hi & Hy & Hk)].
      * right. exists 0, a. split; [lia|]. by split.
      * by left.
      * right. exists (S i), y. split; [lia|]. by split.
    + intros [Hin|(i & y & Hi & Hy & Hk)]; [left; by right|].
      destruct i as [|i]; simpl in Hy.
      * injection Hy as ->. left. by left.
      * right. exists i, y. split; [lia|]. by split.
Qed.

Lemma elem_of_drop_from (seen : list K) (l : list A) (x : A) :
  x ∈ drop_masked l (duplicated_from key seen l) ↔
  ∃ l1 l2, l = l1 ++ (x :: l2) ∧ (key x ∉ seen) ∧ ∀ y, y ∈ l1 → key y ≠ key x.
Proof.
  revert seen. induction l as [|a l IH]; intros seen.
  - simpl. split; [by intros ?%elem_of_nil|].
    intros (l1 & l2 & Hl & _). by destruct l1.
  - rewrite drop_from_cons. split.
    + intros Hx.
      assert (x = a ∧ key a ∉ seen ∨
              x ∈ drop_masked l (duplicated_from key (key a :: seen) l)) as [[-> Hn]|Hin].
      { case_bool_decide; [by right|]. apply elem_of_cons in Hx as [->|?]; auto. }
      * exists [], l. split; [done|]. split; [done|]. by intros y ?%elem_of_nil.
      * apply IH in Hin as (l1 & l2 & -> & Hn & Hl1).
        exists (a :: l1), l2. split; [done|]. rewrite not_elem_of_cons in Hn.
        split; [tauto|]. intros y [->|?]%elem_of_cons; [|by auto].
        intros Heq. by destruct Hn as [Hn _].
    + intros (l1 & l2 & Hl & Hn & Hl1). destruct l1 as [|b l1]; simplify_eq/=.
      * rewrite bool_decide_eq_false_2 by done. by left.
      * assert (x ∈ drop_masked (l1 ++ x :: l2)
                      (duplicated_from key (key b :: seen) (l1 ++ x :: l2))) as Hin.
        { apply IH. exists l1, l2. split; [done|]. split.
          - rewrite not_elem_of_cons. split; [|done].
            intros Heq. eapply (Hl1 b); [by left|done].
          - intros y Hy. apply Hl1. by right. }
        case_bool_decide; [done|]. by right.
Qed.

Lemma drop_from_keys (seen : list K) (l : list A) :
  NoDup (key <$> drop_masked l (duplicated_from key seen l)) ∧
  ∀ x, x ∈ drop_masked l (duplicated_from key seen l) → key x ∉ seen.
Proof.
  revert seen. induction l as [|a l IH]; intros seen.
  - simpl. split; [constructor|]. by intros x ?%elem_of_nil.
  - rewrite drop_from_cons. destruct (IH (key a :: seen)) as [Hnd Hout].
    case_bool_decide as Ha.
    + split; [done|]. intros x Hx. specialize (Hout x Hx).
      rewrite not_elem_of_cons in Hout. tauto.
    + split.
      * rewrite fmap_cons. constructor; [|done].
        intros (y & Hy & Hin)%list_elem_of_fmap. specialize (Hout y Hin).
        rewrite not_elem_of_cons in Hout. destruct Hout as [Hout _]. by apply Hout.
      * intros x [->|Hx]%elem_of_cons; [done|]. specialize (Hout x Hx).
        rewrite not_elem_of_cons in Hout. tauto.
Qed.

Lemma drop_from_sublist (seen : list K) (l : list A) :
  drop_masked l (duplicated_from key seen l) `sublist_of` l.
Proof.
  revert seen. induction l as [|a l IH]; intros seen; [done|].
  rewrite drop_from_cons. case_bool_decide.
  - by apply sublist_cons.
  - by apply sublist_skip.
Qed.

Lemma firsts_after_nil (l : list A) :
  Spec.firsts_after key [] l = Spec.first_occurrences key l.
Proof. reflexivity. Qed.

Lemma firsts_after_cons (pre : list A) (x : A) (l : list A) :
  Spec.firsts_after key pre (x :: l) =
  (if decide (Exists (λ y, key y = key x) pre) then [] else [x])
  ++ Spec.firsts_after key (pre ++ [x]) l.
Proof.
  unfold Spec.firsts_after. rewrite imap_cons. simpl.
  rewrite Nat.add_0_r, take_app_length.
  assert (imap ((λ i : nat, pair (length pre + i)) ∘ S) l
          = imap (λ i : nat, pair (length (pre ++ [x]) + i)) l) as ->.
  { apply imap_ext. intros i y _. simpl. rewrite length_app. simpl. f_equal. lia. }
  rewrite <- (assoc_L (++) pre [x] l). simpl.
  by destruct (decide (Exists (λ y, key y = key x) pre)).
Qed.

Lemma drop_from_firsts (seen : list K) (pre l : list A) :
  (∀ k, k ∈ seen ↔ ∃ y, y ∈ pre ∧ key y = k) →
  drop_masked l (duplicated_from key seen l) = Spec.firsts_after key pre l.
Proof.
  revert seen pre. induction l as [|x l IH]; intros seen pre Hseen; [done|].
  rewrite drop_from_cons, firsts_after_cons.
  rewrite (IH (key x :: seen) (pre ++ [x])).
  - case_bool_decide as Hx; destruct (decide _) as [He|He]; try done.
    + exfalso. apply He, Exists_exists. by apply Hseen.
    + exfalso. apply Hx, Hseen. by apply Exists_exists in He.
  - intros k. rewrite elem_of_cons, Hseen. split.
    + intros [->|(y & Hy & <-)].
      * exists x. split; [|done]. apply elem_of_app. right. by left.
      * exists y. split; [|done]. apply elem_of_app. by left.
    + intros (y & [Hy|Hy%list_elem_of_singleton]%elem_of_app & <-).
      * right. by exists y.
      * left. by rewrite Hy.
Qed.

(** [drop_duplicates_by] keeps the rows that are first with their key. *)
Lemma drop_duplicates_by_firsts (l : list A) :
  drop_duplicates_by key l = Spec.first_occurrences key l.
Proof.
  rewrite <- firsts_after_nil. apply drop_from_firsts.
  intros k. split; [by intros ?%elem_of_nil|]. by intros (y & ?%elem_of_nil & _).
Qed.

Lemma elem_of_drop_duplicates_by (l : list A) (x : A) :
  x ∈ drop_duplicates_by key l ↔
  ∃ l1 l2, l = l1 ++ (x :: l2) ∧ ∀ y, y ∈ l1 → key y ≠ key x.
Proof.
  unfold drop_duplicates_by, duplicated. rewrite elem_of_drop_from.
  split; intros (l1 & l2 & Hl & H'); exists l1, l2; split; try done.
  - tauto.
  - split; [by intros ?%elem_of_nil|done].
Qed.

Lemma NoDup_drop_duplicates_by (l : list A) :
  NoDup (key <$> drop_duplicates_by key l).
Proof. apply drop_from_keys. Qed.

Lemma first_with_key (l : list A) (x : A) :
  x ∈ l →
  ∃ l1 x' l2, l = l1 ++ (x' :: l2) ∧ key x' = key x ∧ ∀ y, y ∈ l1 → key y ≠ key x.
Proof.
  induction l as [|a l IH]; [by intros ?%elem_of_nil|].
  intros Hin. destruct (decide (key a = key x)) as [Heq|Hne].
  - exists [], a, l. split; [done|]. split; [done|]. by intros y ?%elem_of_nil.
  - apply elem_of_cons in Hin as [->|Hin]; [done|].
    destruct (IH Hin) as (l1 & x' & l2 & -> & Hk & Hl1).
    exists (a :: l1), x', l2. split; [done|]. split; [done|].
    by intros y [->|?]%elem_of_cons; [|apply Hl1].
Qed.

Lemma drop_duplicates_by_covers (l : list A) (x : A) :
  x ∈ l → ∃ x', x' ∈ drop_duplicates_by key l ∧ key x' = key x.
Proof.
  intros (l1 & x' & l2 & -> & Hk & Hl1)%first_with_key.
  exists x'. split; [|done]. apply elem_of_drop_duplicates_by.
  exists l1, l2. split; [done|]. intros y Hy. rewrite Hk. by apply Hl1.
Qed.

End DuplicatesFacts.

Lemma elem_of_drop_duplicates {A} `{EqDecision A} (l : list A) (x : A) :
  x ∈ drop_duplicates l ↔ x ∈ l.
Proof.
  unfold drop_duplicates. split.
  - intros Hx. eapply elem_of_sublist; [exact Hx|]. apply drop_from_sublist.
  - intros Hin. apply elem_of_drop_duplicates_by.
    induction l as [|a l IH]; [by apply elem_of_nil in Hin|].
    destruct (decide (a = x)) as [->|Hne].
    + exists [], l. split; [done|]. by intros y ?%elem_of_nil.
    + apply elem_of_cons in Hin as [?|Hin]; [done|].
      destruct (IH Hin) as (l1 & l2 & -> & Hl1). exists (a :: l1), l2.
      split; [done|]. by intros y [->|?]%elem_of_cons; [|apply Hl1].
Qed.

(** ** The join *)

Lemma condition_merged_row (R : PeakRow) (M : MotifRow) :
  condition (merged_row R M) = true ↔ (m_start M ≤ p_start_abf1 R ≤ m_end M)%Z.
Proof. unfold condition. simpl. rewrite andb_true_iff. lia. Qed.

Lemma merge_row_pairs (motif_num : nat) (R : PeakRow) (t : list MotifRow) :
  select_columns motif_num <$>
    List.filter condition
      (merged_row R <$> List.filter (λ r, bool_decide (p_chrom R = m_chrom r)) t)
  = (M ← t; if decide (Spec.on_motif R M) then [Spec.project motif_num R M] else []).
Proof.
  induction t as [|M t IH]; [done|].
  change ((M :: t) ≫= ?f) with (f M ++ (t ≫= f)). rewrite <- IH. cbn [List.filter].
  destruct (decide (Spec.on_motif R M)) as [[Hc Hi]|Hn].
  - rewrite bool_decide_eq_true_2 by done. cbn [fmap list_fmap List.filter].
    by rewrite (proj2 (condition_merged_row R M) Hi).
  - case_bool_decide as Hc; [|done]. cbn [fmap list_fmap List.filter].
    destruct (condition (merged_row R M)) eqn:Hcond; [|done].
    exfalso. apply Hn. split; [done|]. by apply condition_merged_row.
Qed.

(** The body of the loop of [merge_motif_with_chexmix] computes the pairs of
    the specification, in the order of the reference rows. *)
Lemma merge_one_pairs (chexmix_df : list PeakRow) (motif_num : nat)
  (t : list MotifRow) :
  merge_one chexmix_df motif_num t = Spec.pairs chexmix_df motif_num t.
Proof.
  unfold merge_one, merge_on_chrom, Spec.pairs.
  induction chexmix_df as [|R ref IH]; [done|]. simpl.
  rewrite List.filter_app, fmap_app, IH. f_equal. apply merge_row_pairs.
Qed.

Lemma elem_of_pairs (reference : list PeakRow) (i : nat) (t : list MotifRow)
  (row : JoinedRow) :
  row ∈ Spec.pairs reference i t ↔
  ∃ R M, R ∈ reference ∧ M ∈ t ∧ Spec.on_motif R M ∧ row = Spec.project i R M.
Proof.
  unfold Spec.pairs. rewrite list_elem_of_bind. split.
  - intros (R & (M & Hrow & HM)%list_elem_of_bind & HR).
    destruct (decide (Spec.on_motif R M)); [|by apply elem_of_nil in Hrow].
    apply list_elem_of_singleton in Hrow. by exists R, M.
  - intros (R & M & HR & HM & Hon & ->). exists R. split; [|done].
    apply list_elem_of_bind. exists M. split; [|done].
    rewrite decide_True by done. by left.
Qed.

Lemma elem_of_merge_on_chrom (left : list PeakRow) (right : list MotifRow)
  (x : MergedRow) :
  x ∈ merge_on_chrom left right ↔
  ∃ R M, R ∈ left ∧ M ∈ right ∧ p_chrom R = m_chrom M ∧ x = merged_row R M.
Proof.
  unfold merge_on_chrom. rewrite list_elem_of_In, in_flat_map. split.
  - intros (R & HR & Hx). apply list_elem_of_In, list_elem_of_fmap in Hx as (M & -> & HM).
    apply list_elem_of_In, filter_In in HM as [HM Hc]. apply bool_decide_eq_true in Hc.
    exists R, M. by rewrite !list_elem_of_In.
  - intros (R & M & HR & HM & Hc & ->). exists R. rewrite <- list_elem_of_In. split; [done|].
    apply list_elem_of_In, list_elem_of_fmap. exists M. split; [done|].
    apply list_elem_of_In, filter_In. rewrite <- list_elem_of_In.
    split; [done|]. by apply bool_decide_eq_true.
Qed.

Lemma concat_fmap_bind {A B} (f : A → list B) (l : list A) :
  concat (f <$> l) = l ≫= f.
Proof.
  induction l as [|a l IH]; [done|].
  rewrite fmap_cons, bind_cons. simpl. by rewrite IH.
Qed.

Lemma merge_motif_with_chexmix_pairs
  (motif_dfs : list (nat * list MotifRow)) (chexmix_df : list PeakRow) :
  merge_motif_with_chexmix motif_dfs chexmix_df
  = drop_duplicates (kv ← motif_dfs; Spec.pairs chexmix_df (fst kv) (snd kv)).
Proof.
  unfold merge_motif_with_chexmix, concat_frames.
  assert (concat ((λ kv, merge_one chexmix_df (fst kv) (snd kv)) <$> motif_dfs)
          = (kv ← motif_dfs; Spec.pairs chexmix_df (fst kv) (snd kv))) as <-.
  { rewrite concat_fmap_bind. apply list_bind_ext; [|done].
    intros kv. apply merge_one_pairs. }
  by destruct motif_dfs.
Qed.

(** C1.  [merge_motif_with_chexmix] returns the join of the specification:
    over the motif indices in the order of the mapping, the pairs of a
    reference row R and a motif row M with the same chromosome and
    M.start <= R.start <= M.end, projected to {chrom, R.start, R.end,
    R.score, M.strand} and tagged with the motif index, concatenated, and of
    the rows that are equal only the first kept.  So the result has no row
    twice; a row is in it exactly when such a pair projects to it; a pair
    with the same chromosome passes the filter exactly when
    M.start <= R.start <= M.end; and an empty motif table, an empty reference
    table or an empty mapping gives no row. *)
Theorem merge_motif_with_chexmix_join
  (motif_dfs : list (nat * list MotifRow)) (chexmix_df : list PeakRow) :
  merge_motif_with_chexmix motif_dfs chexmix_df = Spec.join chexmix_df motif_dfs
  ∧ NoDup (merge_motif_with_chexmix motif_dfs chexmix_df)
  ∧ (∀ row, row ∈ merge_motif_with_chexmix motif_dfs chexmix_df ↔
       ∃ i t R M, (i, t) ∈ motif_dfs ∧ R ∈ chexmix_df ∧ M ∈ t ∧
                  Spec.on_motif R M ∧ row = Spec.project i R M)
  ∧ (∀ t R M, R ∈ chexmix_df → M ∈ t → p_chrom R = m_chrom M →
       (merged_row R M ∈ List.filter condition (merge_on_chrom chexmix_df t)
        ↔ (m_start M ≤ p_start_abf1 R ≤ m_end M)%Z))
  ∧ (∀ i, merge_one chexmix_df i [] = [])
  ∧ (∀ i t, merge_one [] i t = [])
  ∧ merge_motif_with_chexmix [] chexmix_df = []
  ∧ merge_motif_with_chexmix motif_dfs [] = [].
Proof.
  pose proof (merge_motif_with_chexmix_pairs motif_dfs chexmix_df) as Hcode.
  split; [|split; [|split; [|split; [|split; [|split; [|split]]]]]].
  - rewrite Hcode. apply drop_duplicates_by_firsts.
  - rewrite Hcode. unfold drop_duplicates.
    rewrite <- (list_fmap_id (drop_duplicates_by _ _)).
    apply (NoDup_drop_duplicates_by (λ r : JoinedRow, r)).
  - intros row. rewrite Hcode. unfold drop_duplicates. split.
    + intros Hrow. eapply elem_of_sublist in Hrow; [|apply drop_from_sublist].
      apply list_elem_of_bind in Hrow as ([i t] & Hrow & Hkv).
      apply elem_of_pairs in Hrow as (R & M & ? & ? & ? & ?).
      by exists i, t, R, M.
    + intros (i & t & R & M & Hkv & HR & HM & Hon & ->).
      assert (Spec.project i R M ∈
              (kv ← motif_dfs; Spec.pairs chexmix_df (fst kv) (snd kv))) as Hin.
      { apply list_elem_of_bind. exists (i, t). split; [|done].
        apply elem_of_pairs. by exists R, M. }
      by apply elem_of_drop_duplicates.
  - intros t R M HR HM Hc. rewrite list_elem_of_In, filter_In, <- list_elem_of_In.
    rewrite condition_merged_row, elem_of_merge_on_chrom. split; [tauto|].
    intros Hi. split; [|done]. by exists R, M.
  - intros i. rewrite merge_one_pairs. unfold Spec.pairs. clear Hcode.
    induction chexmix_df as [|R ref IH]; [done|].
    rewrite bind_cons. apply IH.
  - done.
  - done.
  - rewrite merge_motif_with_chexmix_pairs. clear Hcode.
    assert ((kv ← motif_dfs; Spec.pairs [] (fst kv) (snd kv)) = []) as ->; [|done].
    induction motif_dfs as [|kv l IH]; [done|]. rewrite bind_cons. apply IH.
Qed.

(** C2.  The final aggregation is the concatenation of the per-replicate
    tables, in their order, without the rows whose key (chrom, start, end,
    score) is the key of an earlier row: [aggregate] returns the
    aggregation of the specification, which is written with the
    concatenation of lists and with the four columns spelled out.  The rows
    kept are rows of the concatenation, in its order; every row of the
    concatenation has its four columns on a row kept; no two rows kept are
    identical on the four columns; the mask of [duplicated] is [true] at a
    row exactly when an earlier row is identical to it on the four columns;
    and of two rows identical on the four columns that differ in the sample
    or the replicate, the one met first (no row before it is identical to it
    on the four columns) is in the output and the other is not. *)
Theorem aggregate_keeps_first_on_coordinates (tables : list (list AggRow)) :
  let l := concat tables in
  let out := Spec.aggregation tables in
  aggregate tables = (if bool_decide (tables = []) then None else Some out)
  ∧ out `sublist_of` l
  ∧ (∀ r, r ∈ l → ∃ r', r' ∈ out ∧ Spec.same_coordinates r' r)
  ∧ (∀ i j r1 r2, out !! i = Some r1 → out !! j = Some r2 →
       Spec.same_coordinates r1 r2 → i = j)
  ∧ (∀ j r, l !! j = Some r →
       ∃ b, duplicated coord_key l !! j = Some b ∧
            (b = true ↔ ∃ i r', i < j ∧ l !! i = Some r' ∧ Spec.same_coordinates r' r))
  ∧ (∀ l1 r1 l2 r2 l3,
       l = l1 ++ (r1 :: l2) ++ (r2 :: l3) →
       Spec.same_coordinates r1 r2 →
       sample_id r1 ≠ sample_id r2 ∨ replicate r1 ≠ replicate r2 →
       (∀ y, y ∈ l1 → ¬ Spec.same_coordinates y r1) →
       r1 ∈ out ∧ r2 ∉ out).
Proof.
  intros l out.
  assert (∀ r1 r2, Spec.same_coordinates r1 r2 ↔ coord_key r1 = coord_key r2) as Hsame.
  { intros r1 r2. unfold Spec.same_coordinates, coord_key. split.
    - by intros (-> & -> & -> & ->).
    - by intros [= -> -> -> ->]. }
  assert (out = drop_duplicates_by coord_key l) as Hout.
  { subst out. unfold Spec.aggregation. symmetry. apply drop_duplicates_by_firsts. }
  split; [|split; [|split; [|split; [|split]]]].
  - rewrite Hout. by destruct tables.
  - rewrite Hout. apply drop_from_sublist.
  - intros r Hr. rewrite Hout.
    destruct (first_with_key coord_key l r Hr) as (l1 & r' & l2 & Hl & Hk & Hl1).
    exists r'. split; [|by apply Hsame]. apply elem_of_drop_duplicates_by.
    exists l1, l2. split; [done|]. intros y Hy. rewrite Hk. by apply Hl1.
  - intros i j r1 r2 Hi Hj Hk%Hsame.
    pose proof (NoDup_drop_duplicates_by coord_key l) as Hnd. rewrite <- Hout in Hnd.
    eapply NoDup_lookup; [exact Hnd| |].
    + rewrite list_lookup_fmap, Hi. reflexivity.
    + rewrite list_lookup_fmap, Hj. simpl. by rewrite Hk.
  - intros j r Hj. destruct (duplicated_from_lookup coord_key [] l j r Hj) as (b & Hb & Hiff).
    exists b. split; [done|]. rewrite Hiff. split.
    + intros [?%elem_of_nil|(i & r' & ? & ? & ?)]; [done|].
      exists i, r'. by rewrite Hsame.
    + intros (i & r' & ? & ? & ?%Hsame). right. by exists i, r'.
  - intros l1 r1 l2 r2 l3 Hl Hkey%Hsame Hdiff Hfirst. rewrite Hout.
    assert (∀ y, y ∈ l1 → coord_key y ≠ coord_key r1) as Hfirst'.
    { intros y Hy Hk. by apply (Hfirst y Hy), Hsame. }
    assert (r1 ∈ drop_duplicates_by coord_key l) as Hr1.
    { apply elem_of_drop_duplicates_by. exists l1, (l2 ++ r2 :: l3).
      split; [by rewrite Hl|]. done. }
    split; [done|]. intros Hr2.
    apply elem_of_drop_duplicates_by in Hr2 as (k1 & k2 & Hk & Hk1).
    assert (l !! length l1 = Some r1) as H1.
    { rewrite Hl. by rewrite lookup_app_r, Nat.sub_diag by lia. }
    assert (l !! length k1 = Some r2) as H2.
    { rewrite Hk. by rewrite lookup_app_r, Nat.sub_diag by lia. }
    destruct (Nat.lt_trichotomy (length k1) (length l1)) as [Hlt|[Heq|Hgt]].
    + apply (Hfirst' r2); [|done]. apply list_elem_of_lookup. exists (length k1).
      rewrite Hl in H2. by rewrite lookup_app_l in H2.
    + rewrite Heq, H1 in H2. injection H2 as ->. by destruct Hdiff.
    + apply (Hk1 r1); [|done]. apply list_elem_of_lookup. exists (length l1).
      rewrite Hk in H1. by rewrite lookup_app_l in H1.
Qed.

(** ** Letter case *)

Lemma upper_of_lower_char (c : ascii) : upper_char (lower_char c) = upper_char c.
Proof. by destruct c as [[] [] [] [] [] [] [] []]. Qed.

Lemma upper_char_eq_of_lower (c1 c2 : ascii) :
  lower_char c1 = lower_char c2 → upper_char c1 = upper_char c2.
Proof.
  intros H. by rewrite <- (upper_of_lower_char c1), H, upper_of_lower_char.
Qed.

Lemma lower_cons (c : ascii) (s : string) :
  code c ≠ 226 → lower (String c s) = String (lower_char c) (lower s).
Proof.
  intros Hc. destruct s as [|c1 [|c2 s'']]; try done.
  change (lower (String c (String c1 (String c2 s''))))
    with (if is_kelvin_sign c c1 c2 then String "k" (lower s'')
          else String (lower_char c) (lower (String c1 (String c2 s'')))).
  unfold is_kelvin_sign. by rewrite (proj2 (Nat.eqb_neq _ _) Hc).
Qed.

Lemma lower_kelvin_sign (c0 c1 c2 : ascii) (s : string) :
  is_kelvin_sign c0 c1 c2 = true →
  lower (String c0 (String c1 (String c2 s))) = String "k" (lower s).
Proof.
  intros H.
  change (lower (String c0 (String c1 (String c2 s))))
    with (if is_kelvin_sign c0 c1 c2 then String "k" (lower s)
          else String (lower_char c0) (lower (String c1 (String c2 s)))).
  by rewrite H.
Qed.

Lemma isascii_cons (c : ascii) (s : string) :
  isascii (String c s) = true ↔ code c < 128 ∧ isascii s = true.
Proof.
  cbn [isascii]. rewrite andb_true_iff, Nat.ltb_lt. done.
Qed.

Lemma lower_cons_ascii (c : ascii) (s : string) :
  code c < 128 → lower (String c s) = String (lower_char c) (lower s).
Proof. intros Hc. apply lower_cons. lia. Qed.

(** For names of ASCII characters: equal once lower-cased, equal once
    capitalised. *)
Lemma capitalize_eq_of_lower (a b : string) :
  isascii a = true → isascii b = true →
  lower a = lower b → capitalize a = capitalize b.
Proof.
  destruct a as [|c a], b as [|d b]; try done.
  - intros _ [Hd _]%isascii_cons. by rewrite lower_cons_ascii.
  - intros [Hc _]%isascii_cons _. by rewrite lower_cons_ascii.
  - intros [Hc _]%isascii_cons [Hd _]%isascii_cons.
    rewrite !lower_cons_ascii by done. cbn [capitalize].
    intros [= Hcd Hs]. by rewrite (upper_char_eq_of_lower _ _ Hcd), Hs.
Qed.

(** ** Reasoning on runs *)

Section Ends.
Context {A B : Type}.
Implicit Types (m : M A) (k : A → M B) (fs : FS).

Lemma ends_inv m fs Q r fs' ev :
  ends m fs Q → m fs = (r, fs', ev) → Q r fs' ev.
Proof. unfold ends, result, state, events, result, state, events. intros H H'. by rewrite H' in H. Qed.

Lemma ends_weaken m fs (Q Q' : outcome A → FS → list event → Prop) :
  ends m fs Q → (∀ r fs' ev, Q r fs' ev → Q' r fs' ev) → ends m fs Q'.
Proof. unfold ends, result, state, events, result, state, events. auto. Qed.

Lemma ends_bind m k fs (Q : outcome B → FS → list event → Prop) :
  ends m fs (λ r fs1 ev1,
    match r with
    | Ok a => ends (k a) fs1 (λ r2 fs2 ev2, Q r2 fs2 (ev1 ++ ev2))
    | Raised e => Q (Raised e) fs1 ev1
    | Diverges => Q Diverges fs1 ev1
    end) →
  ends (bind m k) fs Q.
Proof.
  unfold ends, result, state, events, bind. destruct (m fs) as [[[a|e|] fs1] ev1]; simpl; [|done..].
  by destruct (k a fs1) as [[] ?].
Qed.

Lemma ends_ret (a : A) fs Q : Q (Ok a) fs [] → ends (ret a) fs Q.
Proof. done. Qed.

Lemma ends_raise (e : exn) fs (Q : outcome A → _) :
  Q (Raised e) fs [] → ends (raise e) fs Q.
Proof. done. Qed.

Lemma ends_diverge fs (Q : outcome A → _) :
  Q Diverges fs [] → ends diverge fs Q.
Proof. done. Qed.

Lemma ends_lift_result (x : exn + A) fs Q :
  match x with inl e => Q (Raised e) fs [] | inr a => Q (Ok a) fs [] end →
  ends (lift_result x) fs Q.
Proof. by destruct x. Qed.

Lemma ends_try_except m (h : exn → M A) fs Q :
  ends m fs (λ r fs1 ev1,
    match r with
    | Raised e => ends (h e) fs1 (λ r2 fs2 ev2, Q r2 fs2 (ev1 ++ ev2))
    | other => Q other fs1 ev1
    end) →
  ends (try_except m h) fs Q.
Proof.
  unfold ends, result, state, events, try_except. destruct (m fs) as [[[a|e|] fs1] ev1]; simpl; [done| |done].
  by destruct (h e fs1) as [[] ?].
Qed.

End Ends.

Lemma ends_emit (e : event) fs Q : Q (Ok tt) fs [e] → ends (emit e) fs Q.
Proof. done. Qed.

Lemma ends_print (s : string) fs Q : Q (Ok tt) fs [Stdout s] → ends (print s) fs Q.
Proof. done. Qed.

Lemma ends_get_fs fs Q : Q (Ok fs) fs [] → ends get_fs fs Q.
Proof. done. Qed.

Lemma ends_put_fs fs' fs Q : Q (Ok tt) fs' [] → ends (put_fs fs') fs Q.
Proof. done. Qed.

Lemma ends_isfile p fs Q : Q (Ok (isfile p fs)) fs [] → ends (os_path_isfile p) fs Q.
Proof. done. Qed.

Lemma ends_isdir p fs Q : Q (Ok (isdir p fs)) fs [] → ends (os_path_isdir p) fs Q.
Proof. done. Qed.

Lemma ends_exists p fs Q :
  Q (Ok (isfile p fs || isdir p fs)) fs [] → ends (os_path_exists p) fs Q.
Proof. done. Qed.

Global Opaque ends.

(** The rules for the calls that are not defined with [bind]. *)
Ltac wp_prim :=
  lazymatch goal with
  | |- ends (bind _ _) _ _ => apply ends_bind
  | |- ends (ret _) _ _ => apply ends_ret
  | |- ends (raise _) _ _ => apply ends_raise
  | |- ends diverge _ _ => apply ends_diverge
  | |- ends (print _) _ _ => apply ends_print
  | |- ends (emit _) _ _ => apply ends_emit
  | |- ends get_fs _ _ => apply ends_get_fs
  | |- ends (put_fs _) _ _ => apply ends_put_fs
  | |- ends (os_path_isfile _) _ _ => apply ends_isfile
  | |- ends (os_path_isdir _) _ _ => apply ends_isdir
  | |- ends (os_path_exists _) _ _ => apply ends_exists
  | |- ends (lift_result _) _ _ => apply ends_lift_result
  | |- ends (try_except _ _) _ _ => apply ends_try_except
  end.

Ltac wp := repeat (cbn beta iota; wp_prim); cbn beta iota; cbn [app].

Section Primitives.
Context (E : Env).

Global Instance grows_refl : Reflexive grows.
Proof. by split. Qed.
Global Instance grows_trans : Transitive grows.
Proof. intros a b c [] []. split; auto. Qed.

Lemma ends_http_get url fs Q :
  match requests_get E url with
  | Response st reason content => Q (Ok (st, reason, content)) fs [HttpGet url]
  | NoResponse e => Q (Raised e) fs [HttpGet url]
  end →
  ends (http_get E url) fs Q.
Proof.
  intros H. unfold http_get. wp. by destruct (requests_get E url); wp.
Qed.

Lemma ends_raise_for_status url st reason fs (Q : outcome unit → _) :
  (∀ e, Q (Raised e) fs []) → Q (Ok tt) fs [] →
  ends (raise_for_status url st reason) fs Q.
Proof.
  intros He Hok. unfold raise_for_status.
  destruct (_ && _); [by wp|]. destruct (_ && _); by wp.
Qed.

Lemma ends_write_file p c fs (Q : outcome unit → _) :
  (∀ e, Q (Raised e) fs []) →
  Q (Ok tt) {| files := <[ p := c ]> (files fs); dirs := dirs fs |} [] →
  ends (write_file p c) fs Q.
Proof.
  intros He Hok. unfold write_file. wp.
  destruct (isdir p fs); [by wp|]. destruct (_ || _); by wp.
Qed.

Lemma ends_read_file p fs (Q : outcome string → _) :
  (∀ e, files fs !! p = None → Q (Raised e) fs []) →
  (∀ c, files fs !! p = Some c → Q (Ok c) fs []) →
  ends (read_file p) fs Q.
Proof.
  intros He Hok. unfold read_file. wp.
  destruct (files fs !! p) eqn:Hp; [by wp; auto|].
  destruct (isdir p fs); wp; auto.
Qed.

Lemma ends_makedirs p fs (Q : outcome unit → _) :
  (∀ e, Q (Raised e) fs []) →
  (∀ fs', grows fs fs' → files fs' = files fs → isdir p fs' = true → Q (Ok tt) fs' []) →
  ends (os_makedirs p) fs Q.
Proof.
  intros He Hok. unfold os_makedirs. wp.
  destruct (isfile p fs); [by wp|].
  destruct (List.filter _ _); wp; [|done]. apply Hok; [|done|].
  - split; [done|]. unfold isdir. simpl. intros q Hq%bool_decide_eq_true.
    apply bool_decide_eq_true. set_solver.
  - unfold isdir. simpl. apply bool_decide_eq_true. set_solver.
Qed.

Lemma grows_write_file p c fs :
  grows fs {| files := <[ p := c ]> (files fs); dirs := dirs fs |}.
Proof.
  split; [|done]. unfold isfile. simpl. intros q Hq%bool_decide_eq_true.
  apply bool_decide_eq_true. destruct (decide (p = q)) as [->|].
  - rewrite lookup_insert_eq. by eexists.
  - by rewrite lookup_insert_ne.
Qed.

Lemma isfile_write p c fs :
  isfile p {| files := <[ p := c ]> (files fs); dirs := dirs fs |} = true.
Proof.
  unfold isfile. apply bool_decide_eq_true. simpl. rewrite lookup_insert_eq. by eexists.
Qed.

End Primitives.

(** ** The artifact fetcher *)

Section Fetch.
Context (E : Env).

Lemma ends_extract_member ep member fs :
  ends (extract_member ep member) fs (λ r fs' ev,
    ev = [] ∧ grows fs fs' ∧ r ≠ Diverges).
Proof.
  unfold extract_member. wp.
  set (target := rstrip_slashes _). 
  assert (ends (if bool_decide (dirname target = "") || (isfile (dirname target) fs || isdir (dirname target) fs)
                then ret tt else os_makedirs (dirname target)) fs
            (λ r fs' ev, ev = [] ∧ grows fs fs' ∧ r ≠ Diverges)) as Hup.
  { destruct (_ || _); [by wp|]. apply ends_makedirs; [done|]. by intros fs' ? _ _. }
  eapply ends_weaken; [exact Hup|]. clear Hup. cbn beta.
  intros [[]|e|] fs1 ev1 (-> & Hg & Hnd); [|done..].
  destruct (endswith_slash member.1).
  - wp. destruct (isdir target fs1); wp; [done|].
    apply ends_makedirs; [done|]. intros fs' Hg' _ _. split; [done|].
    split; [by trans fs1|done].
  - apply ends_write_file; [done|]. split; [done|]. split; [|done].
    trans fs1; [done|]. apply grows_write_file.
Qed.

Lemma ends_extract_members ep members fs :
  ends (extract_members ep members) fs (λ r fs' ev,
    ev = [] ∧ grows fs fs' ∧ r ≠ Diverges).
Proof.
  revert fs. induction members as [|member members IH]; intros fs; [by wp|].
  simpl. wp. eapply ends_weaken; [apply ends_extract_member|]. cbn beta.
  intros [[]|e|] fs1 ev1 (-> & Hg & Hnd); [|done..].
  eapply ends_weaken; [apply IH|]. cbn beta.
  intros r fs2 ev2 (-> & Hg' & Hnd'). split; [done|]. split; [by trans fs1|done].
Qed.

Lemma ends_zip_extractall zip ep fs :
  ends (zip_extractall E zip ep) fs (λ r fs' ev,
    grows fs fs' ∧ r ≠ Diverges ∧ downloads ev = [] ∧
    (ev = [] ∧ (∃ e, r = Raised e) ∨ ev = [Unzipped zip ep])).
Proof.
  unfold zip_extractall. wp.
  apply ends_read_file; [intros e _; do 3 (split; [done|]); left; eauto|].
  intros c _. wp. destruct (zip_members E c) as [e|members].
  { do 3 (split; [done|]). left; eauto. }
  wp. eapply ends_weaken; [apply ends_extract_members|]. cbn beta.
  intros r fs' ev (-> & Hg & Hnd). do 3 (split; [done|]). by right.
Qed.

(** The second call: with the archive and the directory in place, nothing
    is done. *)
Lemma download_and_extract_zip_again sample dest fs :
  isfile (zip_path sample dest) fs = true →
  isdir (path_join dest sample) fs = true →
  download_and_extract_zip E sample dest fs =
  (Ok (path_join dest sample), fs,
   [Stdout (zip_path sample dest +:+ " already downloaded.");
    Stdout (path_join dest sample +:+ " already extracted.")]).
Proof.
  intros Hf Hd. unfold download_and_extract_zip, bind, os_path_isfile, os_path_isdir.
  cbn. rewrite Hf. cbn. by rewrite Hd.
Qed.

Lemma downloads_app ev1 ev2 : downloads (ev1 ++ ev2) = downloads ev1 ++ downloads ev2.
Proof. apply omap_app. Qed.

Lemma extractions_app ev1 ev2 :
  extractions (ev1 ++ ev2) = extractions ev1 ++ extractions ev2.
Proof. apply omap_app. Qed.

Lemma download_and_extract_zip_ends sample dest fs :
  ends (download_and_extract_zip E sample dest) fs (λ r fs' ev,
    grows fs fs'
    ∧ r ≠ Diverges
    ∧ downloads ev = (if isfile (zip_path sample dest) fs then [] else [sample_url sample])
    ∧ length (extractions ev) ≤ 1
    ∧ (isdir (path_join dest sample) fs = true → extractions ev = [])
    ∧ (∀ p, r = Ok p → p = path_join dest sample ∧
                        isfile (zip_path sample dest) fs' = true)).
Proof.
  unfold download_and_extract_zip.
  wp.
  assert (ends
    (if negb (isfile (zip_path sample dest) fs)
     then
      print ("Downloading " +:+ sample_url sample +:+ " ...");;
      r <- http_get E (sample_url sample);;
      raise_for_status (sample_url sample) r.1.1 r.1.2;;
      write_file (zip_path sample dest) r.2
     else print (zip_path sample dest +:+ " already downloaded."))
    fs
    (λ r fs1 ev1,
       grows fs fs1 ∧ dirs fs1 = dirs fs ∧ r ≠ Diverges
       ∧ downloads ev1 = (if isfile (zip_path sample dest) fs then [] else [sample_url sample])
       ∧ extractions ev1 = []
       ∧ (r = Ok tt → isfile (zip_path sample dest) fs1 = true))) as Hblock.
  { destruct (isfile (zip_path sample dest) fs) eqn:Hf; cbn [negb]; [by wp|].
    wp. apply ends_http_get.
    destruct (requests_get E (sample_url sample)) as [st reason content|e]; [|done].
    wp. apply ends_raise_for_status; [done|]. cbn [fst snd].
    apply ends_write_file; [done|].
    split; [apply grows_write_file|]. do 4 (split; [done|]). intros _.
    apply isfile_write. }
  eapply ends_weaken; [exact Hblock|]. clear Hblock. cbn beta.
  intros [[]|e|] fs1 ev1 (Hg & Hdirs & Hnd & Hdl & Hex & Hzip); [| |done].
  2:{ rewrite Hex. do 3 (split; [done|]). split; [simpl; lia|]. by split. }
  specialize (Hzip eq_refl). wp.
  assert (isdir (path_join dest sample) fs1 = isdir (path_join dest sample) fs) as ->.
  { unfold isdir. by rewrite Hdirs. }
  destruct (isdir (path_join dest sample) fs) eqn:Hd; cbn [negb]; wp.
  { rewrite !downloads_app, !extractions_app, Hdl, Hex, !app_nil_r. simpl.
    split; [done|]. split; [done|]. split; [done|]. split; [lia|]. split; [done|].
    by intros p [= <-]. }
  eapply ends_weaken; [apply ends_zip_extractall|]. cbn beta.
  intros r fs2 ev2 (Hg2 & Hnd2 & Hdl2 & Hev2).
  assert (grows fs fs2) as Hg' by (by trans fs1).
  assert (length (extractions ev2) ≤ 1) as Hlen.
  { destruct Hev2 as [[-> _]| ->]; simpl; lia. }
  assert (downloads (ev1 ++ Stdout ("Extracting " +:+ zip_path sample dest +:+ " to "
                                   +:+ path_join dest sample) :: ev2)
          = (if isfile (zip_path sample dest) fs then [] else [sample_url sample])) as Hd1.
  { rewrite downloads_app, Hdl. cbn. change (omap _ ev2) with (downloads ev2).
    by rewrite Hdl2, app_nil_r. }
  assert (extractions (ev1 ++ Stdout ("Extracting " +:+ zip_path sample dest +:+ " to "
                                   +:+ path_join dest sample) :: ev2)
          = extractions ev2) as Hx1.
  { by rewrite extractions_app, Hex. }
  destruct r as [[]|e|].
  - wp. rewrite app_nil_r, Hd1, Hx1. do 4 (split; [done|]). split; [done|].
    intros p [= <-]. split; [done|]. by apply Hg2.
  - rewrite Hd1, Hx1. by do 5 (split; [done|]).
  - done.
Qed.
(** C6, as the script has it.  A call skips the download when the archive
    is there and the extraction when the directory is there.  When the first
    call returns and has left the extraction directory in place, the second
    call does nothing: it returns the same path, leaves the file system as
    it is, sends no request and extracts nothing, so that the two calls
    together make at most one download and at most one extraction. *)
Theorem download_and_extract_zip_twice (sample dest : string) (fs : FS) :
  let first := download_and_extract_zip E sample dest fs in
  let second := download_and_extract_zip E sample dest (state first) in
  (isfile (zip_path sample dest) fs = true → downloads (events first) = [])
  ∧ (isdir (path_join dest sample) fs = true → extractions (events first) = [])
  ∧ (∀ r1, result first = Ok r1 →
       isdir (path_join dest sample) (state first) = true →
       r1 = path_join dest sample
       ∧ result second = Ok r1
       ∧ state second = state first
       ∧ events second =
           [Stdout (zip_path sample dest +:+ " already downloaded.");
            Stdout (path_join dest sample +:+ " already extracted.")]
       ∧ length (downloads (events first ++ events second)) ≤ 1
       ∧ length (extractions (events first ++ events second)) ≤ 1).
Proof.
  intros first second. subst second first.
  destruct (download_and_extract_zip E sample dest fs) as [[r fs1] ev1] eqn:Hfirst.
  apply (ends_inv _ _ _ _ _ _ (download_and_extract_zip_ends sample dest fs)) in Hfirst
    as (_ & _ & Hdl & Hlen & Hskip & Hok).
  unfold result, state, events. cbn [fst snd].
  split; [|split; [done|]].
  { intros Hf. by rewrite Hdl, Hf. }
  intros r1 -> Hdir. destruct (Hok r1 eq_refl) as [-> Hzip].
  rewrite (download_and_extract_zip_again sample dest fs1 Hzip Hdir). cbn [fst snd].
  do 4 (split; [done|]).
  rewrite downloads_app, extractions_app, !length_app. cbn.
  split; [|lia]. rewrite Hdl. destruct (isfile _ fs); simpl; lia.
Qed.

End Fetch.

(** ** Strings *)

Lemma string_app_cons (c : ascii) (s t : string) :
  String c s +:+ t = String c (s +:+ t).
Proof. reflexivity. Qed.

Lemma string_length_app (s t : string) :
  String.length (s +:+ t) = String.length s + String.length t.
Proof.
  induction s as [|c s IH]; [done|]. rewrite string_app_cons. simpl. by rewrite IH.
Qed.

Lemma string_app_inj_r (t s1 s2 : string) : s1 +:+ t = s2 +:+ t → s1 = s2.
Proof.
  revert s2. induction s1 as [|c s1 IH]; intros [|d s2] H; [done| | |].
  - apply (f_equal String.length) in H.
    rewrite !string_length_app in H. simpl in H. lia.
  - apply (f_equal String.length) in H.
    rewrite !string_length_app in H. simpl in H. lia.
  - rewrite !string_app_cons in H. injection H as -> H. f_equal. by apply IH.
Qed.

Lemma startswith_slash_app (s : string) (c : ascii) (t : string) :
  startswith_slash (s +:+ String c t) =
  match s with
  | EmptyString => bool_decide (c = "/"%char)
  | String a _ => bool_decide (a = "/"%char)
  end.
Proof.
  destruct s as [|a s].
  - change ("" +:+ String c t) with (String c t). simpl.
    case_bool_decide as H; [by rewrite H|].
    destruct c as [[] [] [] [] [] [] [] []]; try done.
  - rewrite string_app_cons. simpl.
    case_bool_decide as H; [by rewrite H|].
    destruct a as [[] [] [] [] [] [] [] []]; try done.
Qed.

(** The file names of the motifs of a sample are pairwise different. *)
Lemma motif_file_path_inj (extract_path sample : string) :
  Inj (=) (=) (motif_file_path extract_path sample).
Proof.
  intros n m. unfold motif_file_path, path_join.
  change ("_YEP/" +:+ ?z) with (String "_" ("YEP/" +:+ z)).
  rewrite !startswith_slash_app.
  assert (∀ a b : nat,
    sample +:+ String "_" ("YEP/" +:+ sample +:+ "_Motif_" +:+ pretty a +:+ "_FourColor.bed")
    = sample +:+ String "_" ("YEP/" +:+ sample +:+ "_Motif_" +:+ pretty b +:+ "_FourColor.bed")
    → a = b) as Hinj.
  { intros a b H. apply (inj (String.app sample)) in H. injection H as H.
    change ("" +:+ ?x) with x in H.
    apply (inj (String.app sample)), (inj (String.app "_Motif_")),
      string_app_inj_r in H.
    by apply (inj pretty) in H. }
  destruct (match sample with "" => _ | String a _ => _ end); [apply Hinj|].
  destruct (_ || _); intros H.
  - apply (inj (String.app extract_path)) in H. by apply Hinj.
  - apply (inj (String.app extract_path)), (inj (String.app "/")) in H. by apply Hinj.
Qed.

(** ** The motif loader *)

Section Load.
Context (E : Env).

Lemma ends_pd_read_csv path fs (Q : outcome Frame → _) :
  (∀ e, (∀ c df, files fs !! path = Some c → read_csv E c ≠ inr df) →
        Q (Raised e) fs []) →
  (∀ c df, files fs !! path = Some c → read_csv E c = inr df → Q (Ok df) fs []) →
  ends (pd_read_csv E path) fs Q.
Proof.
  intros He Hok. unfold pd_read_csv. wp. apply ends_read_file.
  - intros e Hn. apply He. intros c df Hc. by rewrite Hn in Hc.
  - intros c Hc. wp. destruct (read_csv E c) as [e|df] eqn:Hr.
    + apply He. intros c' df Hc'. rewrite Hc in Hc'. injection Hc' as <-. by rewrite Hr.
    + by apply (Hok c).
Qed.

Lemma ends_set_columns6 df fs (Q : outcome (list Bed6) → _) :
  (ncols df ≠ 6 → Q (Raised (length_mismatch (ncols df) 6)) fs []) →
  (ncols df = 6 → Q (Ok (rows df)) fs []) →
  ends (set_columns6 df) fs Q.
Proof.
  intros He Hok. unfold set_columns6. case_bool_decide; wp; auto.
Qed.

Lemma load_motifs_from_ends (fuel : nat) (ep sample : string) (n : nat)
  (acc : list (nat * list MotifRow)) (fs : FS) (D : gset string) :
  size D < fuel →
  (∀ i, n ≤ i → isfile (motif_file_path ep sample i) fs = true →
        motif_file_path ep sample i ∈ D) →
  ends (load_motifs_from E fuel ep sample n acc) fs (λ r fs' ev,
    fs' = fs ∧ r ≠ Diverges
    ∧ downloads ev = [] ∧ extractions ev = []
    ∧ (isfile (motif_file_path ep sample n) fs = false → r = Ok acc ∧ ev = [])
    ∧ (∀ e, r = Raised e →
         ∃ i, n ≤ i ∧ isfile (motif_file_path ep sample i) fs = true ∧
              motif_table_at E fs ep sample i = None ∧
              ∀ j, n ≤ j < i → is_Some (motif_table_at E fs ep sample j))
    ∧ (∀ dict, r = Ok dict →
         ∃ k tables,
           dict = acc ++ tables ∧ fst <$> tables = seq n k
           ∧ (∀ i, n ≤ i < n + k → isfile (motif_file_path ep sample i) fs = true)
           ∧ isfile (motif_file_path ep sample (n + k)) fs = false
           ∧ (∀ i t, (i, t) ∈ tables → motif_table_at E fs ep sample i = Some t))).
Proof.
  revert n acc D. induction fuel as [|fuel IH]; intros n acc D Hsize HD; [lia|].
  simpl. wp.
  destruct (isfile (motif_file_path ep sample n) fs) eqn:Hn; cbn [negb]; wp.
  2:{ do 4 (split; [done|]). split; [done|]. split; [done|].
      intros dict [= <-]. exists 0, []. rewrite app_nil_r, Nat.add_0_r.
      split; [done|]. split; [done|]. split; [intros; lia|]. split; [done|].
      by intros i t ?%elem_of_nil. }
  apply ends_pd_read_csv.
  { intros e Hbad. do 4 (split; [done|]). split; [done|]. split; [|done].
    intros ? _. exists n. split; [lia|]. split; [done|]. split; [|intros; lia].
    unfold motif_table_at. destruct (files fs !! _) as [c|] eqn:Hc; [|done]. simpl.
    destruct (read_csv E c) as [|df] eqn:Hr; [done|]. by destruct (Hbad c df). }
  intros c df Hc Hr. wp. apply ends_set_columns6.
  { intros Hcols. do 4 (split; [done|]). split; [done|]. split; [|done].
    intros ? _. exists n. split; [lia|]. split; [done|]. split; [|intros; lia].
    unfold motif_table_at. rewrite Hc. simpl. rewrite Hr. by rewrite decide_False. }
  intros Hcols.
  assert (motif_table_at E fs ep sample n = Some (motif_row <$> rows df)) as Htn.
  { unfold motif_table_at. rewrite Hc. simpl. rewrite Hr. by rewrite decide_True. }
  eapply ends_weaken.
  { apply (IH (n + 1) _ (D ∖ {[ motif_file_path ep sample n ]})).
    - assert (motif_file_path ep sample n ∈ D) as Hin by (apply HD; [lia|done]).
      rewrite size_difference by (by apply singleton_subseteq_l).
      rewrite size_singleton.
      assert (size D ≠ 0); [|lia]. apply size_non_empty_iff.
      intros Hempty. rewrite Hempty in Hin. by apply not_elem_of_empty in Hin.
    - intros i Hi Hfile. apply elem_of_difference. split; [apply HD; [lia|done]|].
      intros Heq%elem_of_singleton. apply motif_file_path_inj in Heq. lia. }
  cbn beta. intros r fs' ev (-> & Hnd & Hdl & Hex & _ & Herr & Hok).
  split; [done|]. split; [done|]. split; [done|]. split; [done|].
  split; [by intros [=]|]. split.
  - intros e He. destruct (Herr e He) as (i & Hi & Hfile & Hnone & Hbefore).
    exists i. split; [lia|]. split; [done|]. split; [done|].
    intros j Hj. destruct (decide (j = n)) as [->|]; [by rewrite Htn|].
    apply Hbefore. lia.
  - intros dict Hdict. destruct (Hok dict Hdict) as (k & tables & -> & Hkeys & Hfiles & Hstop & Htab).
    exists (S k), ((n, motif_row <$> rows df) :: tables).
    split; [by rewrite <- (assoc_L (++))|]. split.
    { rewrite fmap_cons. simpl. f_equal. by rewrite Hkeys, Nat.add_1_r. }
    split.
    { intros i Hi. destruct (decide (i = n)) as [->|]; [done|]. apply Hfiles. lia. }
    split.
    { by replace (n + S k) with (n + 1 + k) by lia. }
    by intros i t [[= -> ->]|Hin]%elem_of_cons; [|apply Htab].
Qed.


(** The run of [load_all_motif_bed_files] is the run of its loop, with one
    turn more than there are files. *)
Lemma load_all_motif_bed_files_ends (ep sample : string) (fs : FS) :
  ends (load_all_motif_bed_files E ep sample) fs (λ r fs' ev,
    fs' = fs ∧ r ≠ Diverges
    ∧ downloads ev = [] ∧ extractions ev = []
    ∧ (isfile (motif_file_path ep sample 1) fs = false → r = Ok [] ∧ ev = [])
    ∧ (∀ e, r = Raised e →
         ∃ i, 1 ≤ i ∧ isfile (motif_file_path ep sample i) fs = true ∧
              motif_table_at E fs ep sample i = None ∧
              ∀ j, 1 ≤ j < i → is_Some (motif_table_at E fs ep sample j))
    ∧ (∀ dict, r = Ok dict →
         ∃ k tables,
           dict = [] ++ tables ∧ fst <$> tables = seq 1 k
           ∧ (∀ i, 1 ≤ i < 1 + k → isfile (motif_file_path ep sample i) fs = true)
           ∧ isfile (motif_file_path ep sample (1 + k)) fs = false
           ∧ (∀ i t, (i, t) ∈ tables → motif_table_at E fs ep sample i = Some t))).
Proof.
  unfold load_all_motif_bed_files. wp.
  apply (load_motifs_from_ends _ ep sample 1 [] fs (dom (files fs))).
  - rewrite size_dom. lia.
  - intros i _ Hi%bool_decide_eq_true. by apply elem_of_dom.
Qed.


End Load.

(** ** Termination *)

Section Terminates.
Context {A B : Type}.

Lemma terminates_bind (m : M A) (k : A → M B) :
  terminates m → (∀ a, terminates (k a)) → terminates (bind m k).
Proof.
  intros Hm Hk fs. unfold result, bind. specialize (Hm fs).
  destruct (m fs) as [[[a|e|] fs1] ev1]; [|done..]. apply Hk.
Qed.

Lemma terminates_ret (a : A) : terminates (ret a).
Proof. by intros fs. Qed.

Lemma terminates_raise (e : exn) : terminates (raise e : M A).
Proof. by intros fs. Qed.

Lemma terminates_lift_result (x : exn + A) : terminates (lift_result x).
Proof. by destruct x. Qed.

Lemma terminates_try_except (m : M A) (h : exn → M A) :
  terminates m → (∀ e, terminates (h e)) → terminates (try_except m h).
Proof.
  intros Hm Hh fs. unfold result, try_except. specialize (Hm fs).
  destruct (m fs) as [[[a|e|] fs1] ev1]; [done| |done]. apply Hh.
Qed.

Lemma terminates_ends (m : M A) :
  (∀ fs, ends m fs (λ r _ _, r ≠ Diverges)) → terminates m.
Proof.
  intros H fs. destruct (m fs) as [[r fs'] ev] eqn:Hrun.
  by apply (ends_inv _ _ _ _ _ _ (H fs) Hrun).
Qed.

End Terminates.

Lemma terminates_emit e : terminates (emit e).
Proof. by intros fs. Qed.
Lemma terminates_print s : terminates (print s).
Proof. by intros fs. Qed.
Lemma terminates_get_fs : terminates get_fs.
Proof. by intros fs. Qed.
Lemma terminates_put_fs fs' : terminates (put_fs fs').
Proof. by intros fs. Qed.

Ltac term_step :=
  lazymatch goal with
  | |- terminates (bind _ _) => apply terminates_bind; [|intros ?]
  | |- terminates (ret _) => apply terminates_ret
  | |- terminates (raise _) => apply terminates_raise
  | |- terminates (lift_result _) => apply terminates_lift_result
  | |- terminates (try_except _ _) => apply terminates_try_except; [|intros ?]
  | |- terminates (emit _) => apply terminates_emit
  | |- terminates (print _) => apply terminates_print
  | |- terminates get_fs => apply terminates_get_fs
  | |- terminates (put_fs _) => apply terminates_put_fs
  | |- terminates (if ?b then _ else _) => destruct b
  | |- terminates (match ?x with _ => _ end) => destruct x
  end.

Ltac term := repeat term_step.

Section MainFacts.
Context (E : Env).

Lemma terminates_isfile p : terminates (os_path_isfile p).
Proof. unfold os_path_isfile. term. Qed.
Lemma terminates_isdir p : terminates (os_path_isdir p).
Proof. unfold os_path_isdir. term. Qed.
Lemma terminates_exists p : terminates (os_path_exists p).
Proof. unfold os_path_exists. term. Qed.
Lemma terminates_makedirs p : terminates (os_makedirs p).
Proof. unfold os_makedirs. term. Qed.
Lemma terminates_write_file p c : terminates (write_file p c).
Proof. unfold write_file. term. Qed.
Lemma terminates_read_file p : terminates (read_file p).
Proof. unfold read_file. term. Qed.
Lemma terminates_http_get url : terminates (http_get E url).
Proof. unfold http_get. term. Qed.
Lemma terminates_raise_for_status url st reason :
  terminates (raise_for_status url st reason).
Proof. unfold raise_for_status. term. Qed.
Lemma terminates_pd_read_csv p : terminates (pd_read_csv E p).
Proof. unfold pd_read_csv. term. apply terminates_read_file. Qed.
Lemma terminates_pd_read_excel p s : terminates (pd_read_excel E p s).
Proof. unfold pd_read_excel. term. apply terminates_read_file. Qed.
Lemma terminates_set_columns6 df : terminates (set_columns6 df).
Proof. unfold set_columns6. term. Qed.

Lemma terminates_get_replicates_for_tf tf f :
  terminates (get_replicates_for_tf E tf f).
Proof. unfold get_replicates_for_tf. term. apply terminates_pd_read_excel. Qed.

Lemma terminates_download_tf_chexmix_bed tf d :
  terminates (download_tf_chexmix_bed E tf d).
Proof.
  unfold download_tf_chexmix_bed. term;
    auto using terminates_exists, terminates_http_get, terminates_raise_for_status,
      terminates_write_file.
Qed.

Lemma terminates_load_tf_chexmix_bed tf d : terminates (load_tf_chexmix_bed E tf d).
Proof.
  unfold load_tf_chexmix_bed. term;
    auto using terminates_makedirs, terminates_download_tf_chexmix_bed,
      terminates_pd_read_csv, terminates_set_columns6.
Qed.

Lemma terminates_download_and_extract_zip sample d :
  terminates (download_and_extract_zip E sample d).
Proof.
  apply terminates_ends. intros fs.
  eapply ends_weaken; [apply download_and_extract_zip_ends|]. cbn beta. tauto.
Qed.

Lemma terminates_load_all_motif_bed_files ep sample :
  terminates (load_all_motif_bed_files E ep sample).
Proof.
  apply terminates_ends. intros fs.
  eapply ends_weaken; [apply load_all_motif_bed_files_ends|]. cbn beta. tauto.
Qed.

Lemma terminates_merge_motif_with_chexmix_m motif_dfs chexmix_df :
  terminates (merge_motif_with_chexmix_m motif_dfs chexmix_df).
Proof.
  unfold merge_motif_with_chexmix_m. term.
  induction motif_dfs as [|kv l IH]; simpl; term. done.
Qed.

Lemma terminates_replicate_body chexmix_df row :
  terminates (replicate_body E chexmix_df row).
Proof.
  unfold replicate_body. term;
    auto using terminates_download_and_extract_zip,
      terminates_load_all_motif_bed_files, terminates_merge_motif_with_chexmix_m.
Qed.

Lemma terminates_for_replicates chexmix_df replicates acc :
  terminates (for_replicates E chexmix_df replicates acc).
Proof.
  revert acc. induction replicates as [|row l IH]; intros acc; simpl; term;
    auto using terminates_replicate_body.
Qed.

Lemma terminates_main_load tf : terminates (main_load E tf).
Proof.
  unfold main_load. term;
    auto using terminates_get_replicates_for_tf, terminates_load_tf_chexmix_bed.
Qed.

Lemma terminates_main_save tf agg : terminates (main_save tf agg).
Proof. unfold main_save. term; auto using terminates_write_file. Qed.

(** [main] ends from every file system. *)
Lemma terminates_main tf : terminates (main E tf).
Proof.
  unfold main. term;
    auto using terminates_main_load, terminates_for_replicates, terminates_main_save.
Qed.

End MainFacts.

(** ** Runs of [bind] whose first call is known *)

Section BindRuns.
Context {A B : Type}.
Implicit Types (m : M A) (k : A → M B) (fs : FS).

Lemma prepend_prepend (e1 e2 : list event) (r : outcome A * FS * list event) :
  prepend e1 (prepend e2 r) = prepend (e1 ++ e2) r.
Proof. destruct r as [[] ?]. unfold prepend. simpl. by rewrite (assoc_L (++)). Qed.

Lemma bind_Ok m k fs a fs1 ev1 :
  m fs = (Ok a, fs1, ev1) → bind m k fs = prepend ev1 (k a fs1).
Proof. unfold bind. intros H. by rewrite H. Qed.

Lemma bind_Raised m k fs e fs1 ev1 :
  m fs = (Raised e, fs1, ev1) → bind m k fs = (Raised e, fs1, ev1).
Proof. unfold bind. intros H. by rewrite H. Qed.

End BindRuns.

(** ** The pipeline of one factor *)

Section MainTheorems.
Context (E : Env).

Lemma for_replicates_app chexmix_df pre post acc fs acc1 fs1 ev1 :
  for_replicates E chexmix_df pre acc fs = (Ok acc1, fs1, ev1) →
  for_replicates E chexmix_df (pre ++ post) acc fs
  = prepend ev1 (for_replicates E chexmix_df post acc1 fs1).
Proof.
  revert acc fs ev1. induction pre as [|row pre IH]; intros acc fs ev1.
  - simpl. intros [= -> -> <-]. by destruct (for_replicates _ _ _ _ _) as [[] ?].
  - simpl. unfold bind at 1 2.
    destruct (replicate_body E chexmix_df row fs) as [[[[t|]|e|] fs0] ev0]; try done.
    + destruct (for_replicates E chexmix_df pre (acc ++ [t]) fs0)
        as [[r' fs'] ev'] eqn:Hpre.
      unfold prepend at 1. simpl. intros [= -> -> <-].
      rewrite (IH _ _ _ Hpre). by rewrite prepend_prepend.
    + destruct (for_replicates E chexmix_df pre acc fs0)
        as [[r' fs'] ev'] eqn:Hpre.
      unfold prepend at 1. simpl. intros [= -> -> <-].
      rewrite (IH _ _ _ Hpre). by rewrite prepend_prepend.
Qed.

(** What makes the body of the loop raise: the fetch, or the loading of the
    motif files. *)
Lemma replicate_body_raises chexmix_df row fs e fs2 ev :
  let sample := cell_str (snd row) in
  let line := Stdout ("Processing replicate: " +:+ cell_str (fst row) +:+
                      " Sample ID: " +:+ sample) in
  (download_and_extract_zip E sample data_dir fs = (Raised e, fs2, ev)
   ∨ ∃ ep fs1 ev1 ev2,
       download_and_extract_zip E sample data_dir fs = (Ok ep, fs1, ev1)
       ∧ load_all_motif_bed_files E ep sample fs1 = (Raised e, fs2, ev2)
       ∧ ev = ev1 ++ ev2) →
  replicate_body E chexmix_df row fs = (Raised e, fs2, line :: ev).
Proof.
  intros sample line H. unfold replicate_body. fold sample.
  erewrite bind_Ok by reflexivity. destruct H as [H|(ep & fs1 & ev1 & ev2 & H1 & H2 & ->)].
  - by rewrite (bind_Raised _ _ _ _ _ _ H).
  - rewrite (bind_Ok _ _ _ _ _ _ H1), (bind_Raised _ _ _ _ _ _ H2). done.
Qed.

(** The one case in which the loop goes on without a table: the sample has
    no motif file. *)
Lemma replicate_body_skips chexmix_df row fs ep fs1 ev1 fs2 ev2 :
  let sample := cell_str (snd row) in
  download_and_extract_zip E sample data_dir fs = (Ok ep, fs1, ev1) →
  load_all_motif_bed_files E ep sample fs1 = (Ok [], fs2, ev2) →
  replicate_body E chexmix_df row fs
  = (Ok None, fs2,
     Stdout ("Processing replicate: " +:+ cell_str (fst row) +:+
             " Sample ID: " +:+ sample)
     :: ev1 ++ ev2
     ++ [Stdout ("No motif files found for sample " +:+ sample +:+ ", skipping.")]).
Proof.
  intros sample H1 H2. unfold replicate_body. fold sample.
  erewrite bind_Ok by reflexivity.
  rewrite (bind_Ok _ _ _ _ _ _ H1), (bind_Ok _ _ _ _ _ _ H2).
  erewrite bind_Ok by reflexivity. unfold prepend, ret. by cbn [fst snd app].
Qed.

(** C3, as the script has it.  An exception raised while one sample is
    fetched, or while its motif files are loaded, is not caught in [main]:
    the body of the loop raises it, the loop ends there and [main] raises
    it, in the file system the failing call left and with the events up to
    it; the replicates after it are not processed and nothing is saved. *)
Theorem main_stops_at_failing_replicate
  (tf_name : string) (fs : FS)
  (replicates : list (cell * cell)) (chexmix_df : list PeakRow)
  (fs0 : FS) (ev0 : list event)
  (pre : list (cell * cell)) (row : cell * cell) (post : list (cell * cell))
  (acc : list (list AggRow)) (fs1 : FS) (ev1 : list event)
  (e : exn) (fs2 : FS) (ev2 : list event) :
  main_load E tf_name fs = (Ok (replicates, chexmix_df), fs0, ev0) →
  replicates = pre ++ row :: post →
  for_replicates E chexmix_df pre [] fs0 = (Ok acc, fs1, ev1) →
  (download_and_extract_zip E (cell_str (snd row)) data_dir fs1 = (Raised e, fs2, ev2)
   ∨ ∃ ep fsm evm evl,
       download_and_extract_zip E (cell_str (snd row)) data_dir fs1 = (Ok ep, fsm, evm)
       ∧ load_all_motif_bed_files E ep (cell_str (snd row)) fsm = (Raised e, fs2, evl)
       ∧ ev2 = evm ++ evl) →
  let line := Stdout ("Processing replicate: " +:+ cell_str (fst row) +:+
                      " Sample ID: " +:+ cell_str (snd row)) in
  replicate_body E chexmix_df row fs1 = (Raised e, fs2, line :: ev2)
  ∧ for_replicates E chexmix_df replicates [] fs0
    = (Raised e, fs2, ev1 ++ line :: ev2)
  ∧ main E tf_name fs = (Raised e, fs2, ev0 ++ ev1 ++ line :: ev2).
Proof.
  intros Hload -> Hpre Hfail line.
  pose proof (replicate_body_raises chexmix_df row fs1 e fs2 ev2 Hfail) as Hrow.
  cbn zeta in Hrow. fold line in Hrow.
  assert (for_replicates E chexmix_df (pre ++ row :: post) [] fs0
          = (Raised e, fs2, ev1 ++ line :: ev2)) as Hloop.
  { rewrite (for_replicates_app _ _ _ _ _ _ _ _ Hpre). simpl.
    by rewrite (bind_Raised _ _ _ _ _ _ Hrow). }
  split; [done|]. split; [done|]. unfold main.
  rewrite (bind_Ok _ _ _ _ _ _ Hload). simpl.
  by rewrite (bind_Raised _ _ _ _ _ _ Hloop).
Qed.

(** The tables the loop had are kept, new ones come after them. *)
Lemma for_replicates_prefix chexmix_df replicates acc fs tables fs' ev :
  for_replicates E chexmix_df replicates acc fs = (Ok tables, fs', ev) →
  ∃ new, tables = acc ++ new.
Proof.
  revert acc fs fs' ev. induction replicates as [|row l IH]; intros acc fs fs' ev.
  - simpl. intros [= <- _ _]. exists []. by rewrite app_nil_r.
  - simpl. unfold bind at 1.
    destruct (replicate_body E chexmix_df row fs) as [[[[t|]|e|] fs0] ev0]; try done.
    + destruct (for_replicates E chexmix_df l (acc ++ [t]) fs0)
        as [[r1 fs1] ev1] eqn:Hrest.
      unfold prepend. simpl. intros [= -> _ _].
      destruct (IH _ _ _ _ Hrest) as [new ->]. exists (t :: new).
      by rewrite <- (assoc_L (++)).
    + destruct (for_replicates E chexmix_df l acc fs0) as [[r1 fs1] ev1] eqn:Hrest.
      unfold prepend. simpl. intros [= -> _ _]. by apply (IH _ _ _ _ Hrest).
Qed.

(** The loop ends without a table only when the body gave none for the first
    replicate, and the loop none for the others. *)
Lemma for_replicates_no_table chexmix_df row replicates fs fs' ev :
  for_replicates E chexmix_df (row :: replicates) [] fs = (Ok [], fs', ev) →
  ∃ fs1 ev1 ev2,
    replicate_body E chexmix_df row fs = (Ok None, fs1, ev1)
    ∧ for_replicates E chexmix_df replicates [] fs1 = (Ok [], fs', ev2)
    ∧ ev = ev1 ++ ev2.
Proof.
  simpl. unfold bind at 1.
  destruct (replicate_body E chexmix_df row fs) as [[[[t|]|e|] fs0] ev0]; try done.
  - cbn [app].
    destruct (for_replicates E chexmix_df replicates [t] fs0)
      as [[r1 fs1] ev1] eqn:Hrest.
    unfold prepend. simpl. intros [= -> _ _].
    destruct (for_replicates_prefix _ _ _ _ _ _ _ Hrest) as [new Hnew].
    by destruct new.
  - destruct (for_replicates E chexmix_df replicates [] fs0) as [[r1 fs1] ev1] eqn:Hrest.
    unfold prepend. simpl. intros [= -> <- <-]. by exists fs0, ev0, ev1.
Qed.

(** The body gives no table only at the [continue]: the sample was fetched
    and has no motif file. *)
Lemma replicate_body_no_table chexmix_df row fs fs' ev :
  replicate_body E chexmix_df row fs = (Ok None, fs', ev) →
  ∃ ep fs1 ev1 ev2,
    download_and_extract_zip E (cell_str (snd row)) data_dir fs = (Ok ep, fs1, ev1)
    ∧ load_all_motif_bed_files E ep (cell_str (snd row)) fs1 = (Ok [], fs', ev2).
Proof.
  unfold replicate_body. erewrite bind_Ok by reflexivity. unfold bind at 1.
  destruct (download_and_extract_zip E (cell_str (snd row)) data_dir fs)
    as [[[ep|e|] fs1] ev1] eqn:Hfetch; try done.
  unfold bind at 1.
  destruct (load_all_motif_bed_files E ep (cell_str (snd row)) fs1)
    as [[[[|kv dict]|e|] fs2] ev2] eqn:Hload; try done.
  - unfold bind, print, emit, ret, prepend. simpl. intros [= <- _].
    by exists ep, fs1, ev1, ev2.
  - unfold bind at 1.
    by destruct (merge_motif_with_chexmix_m (kv :: dict) chexmix_df fs2)
      as [[[c|e|] fs3] ev3].
Qed.

(** C4, as the script has it.  When the loop ends with no table from any
    replicate (there is no replicate, or each was skipped for want of motif
    files), [main] prints "No results found for any replicates." and
    returns: it writes nothing, the file system is the one the loop left. *)
Theorem main_without_tables_writes_nothing
  (tf_name : string) (fs : FS)
  (replicates : list (cell * cell)) (chexmix_df : list PeakRow)
  (fs0 : FS) (ev0 : list event) (fs1 : FS) (ev1 : list event) :
  main_load E tf_name fs = (Ok (replicates, chexmix_df), fs0, ev0) →
  for_replicates E chexmix_df replicates [] fs0 = (Ok [], fs1, ev1) →
  main E tf_name fs
  = (Ok tt, fs1, ev0 ++ ev1 ++ [Stdout "No results found for any replicates."]).
Proof.
  intros Hload Hloop. unfold main.
  rewrite (bind_Ok _ _ _ _ _ _ Hload). simpl.
  by rewrite (bind_Ok _ _ _ _ _ _ Hloop).
Qed.

End MainTheorems.

(** ** The peak loader and the driver *)

Section MoreTheorems.
Context (E : Env).

Lemma download_tf_chexmix_bed_ends tf_name dest_dir fs :
  ends (download_tf_chexmix_bed E tf_name dest_dir) fs (λ r fs' ev,
    quiet ev
    ∧ downloads ev =
        (if isfile (chexmix_out_path tf_name dest_dir) fs
            || isdir (chexmix_out_path tf_name dest_dir) fs
         then [] else [chexmix_file_url tf_name])
    ∧ (∀ p, r = Ok p →
         p = chexmix_out_path tf_name dest_dir ∧
         (isfile p fs' = true ∨ isdir p fs = true))).
Proof.
  unfold download_tf_chexmix_bed. wp.
  destruct (isfile _ fs) eqn:Hf; cbn [orb negb].
  { wp. split; [by repeat constructor|]. split; [done|]. intros p [= <-]. auto. }
  destruct (isdir _ fs) eqn:Hd; cbn [orb negb].
  { wp. split; [by repeat constructor|]. split; [done|]. intros p [= <-]. auto. }
  wp. apply ends_http_get.
  destruct (requests_get E (chexmix_file_url tf_name)) as [st reason content|e].
  2:{ split; [by repeat constructor|]. by split. }
  wp. apply ends_raise_for_status.
  { intros e. split; [by repeat constructor|]. by split. }
  wp. apply ends_write_file.
  { intros e. split; [by repeat constructor|]. by split. }
  wp. split; [by repeat constructor|]. split; [done|].
  intros p [= <-]. split; [done|]. left. apply isfile_write.
Qed.

Lemma pd_read_csv_run path fs content df :
  files fs !! path = Some content → read_csv E content = inr df →
  pd_read_csv E path fs = (Ok df, fs, []).
Proof.
  intros Hfile Hread. unfold pd_read_csv, read_file.
  erewrite (bind_Ok (bind get_fs _)).
  2:{ erewrite (bind_Ok get_fs) by reflexivity. rewrite Hfile. reflexivity. }
  by rewrite Hread.
Qed.

Lemma pd_read_excel_run path sheet fs content df :
  files fs !! path = Some content → read_excel E content sheet = inr df →
  pd_read_excel E path sheet fs = (Ok df, fs, []).
Proof.
  intros Hfile Hread. unfold pd_read_excel, read_file.
  erewrite (bind_Ok (bind get_fs _)).
  2:{ erewrite (bind_Ok get_fs) by reflexivity. rewrite Hfile. reflexivity. }
  by rewrite Hread.
Qed.

Lemma get_replicates_for_tf_ends tf_name metadata_file fs :
  ends (get_replicates_for_tf E tf_name metadata_file) fs (λ r fs' ev,
    fs' = fs ∧ ev = []).
Proof.
  unfold get_replicates_for_tf, pd_read_excel. wp.
  apply ends_read_file; [done|]. intros c _. wp.
  destruct (read_excel E c sheet_name); by wp.
Qed.

Lemma os_makedirs_silent p fs : ends (os_makedirs p) fs (λ r fs' ev, ev = []).
Proof. by apply ends_makedirs. Qed.

(** C8.  When the peak file, downloaded or already on disk, parses to a
    table that does not have six columns, [load_tf_chexmix_bed] raises the
    length mismatch of pandas, a format error, and [main] raises it with
    it: [main] has then done nothing but read the metadata and fetch the
    peak file, no archive was extracted, no motif table was joined, nothing
    was saved. *)
Theorem short_peak_file_stops_main
  (tf_name : string) (fs : FS) (replicates : list (cell * cell))
  (fs0 : FS) (ev0 : list event) (fsa : FS) (eva : list event)
  (path : string) (fs1 : FS) (evb : list event) (content : string) (df : Frame) :
  get_replicates_for_tf E tf_name metadata_xlsx fs = (Ok replicates, fs0, ev0) →
  os_makedirs data_dir fs0 = (Ok tt, fsa, eva) →
  download_tf_chexmix_bed E tf_name data_dir fsa = (Ok path, fs1, evb) →
  files fs1 !! path = Some content →
  read_csv E content = inr df →
  ncols df ≠ 6 →
  let e := length_mismatch (ncols df) 6 in
  let found := Stdout ("Found " +:+ pretty (length replicates) +:+
                      " replicates for TF " +:+ tf_name +:+ ".") in
  spec_error_of e = FormatError
  ∧ load_tf_chexmix_bed E tf_name data_dir fs0 = (Raised e, fs1, eva ++ evb)
  ∧ main E tf_name fs = (Raised e, fs1, ev0 ++ found :: eva ++ evb)
  ∧ quiet (ev0 ++ found :: eva ++ evb).
Proof.
  intros Hrep Hmk Hdl Hfile Hread Hcols e found.
  assert (load_tf_chexmix_bed E tf_name data_dir fs0 = (Raised e, fs1, eva ++ evb)) as Hload.
  { unfold load_tf_chexmix_bed.
    rewrite (bind_Ok _ _ _ _ _ _ Hmk), (bind_Ok _ _ _ _ _ _ Hdl).
    rewrite (bind_Ok _ _ _ _ _ _ (pd_read_csv_run _ _ _ _ Hfile Hread)).
    unfold set_columns6. rewrite bool_decide_eq_false_2 by done.
    erewrite bind_Raised by reflexivity.
    unfold prepend. cbn [fst snd]. by rewrite !app_nil_r. }
  split; [done|]. split; [done|]. split.
  - unfold main, main_load.
    assert ((replicates0 <- get_replicates_for_tf E tf_name metadata_xlsx;;
             print ("Found " +:+ pretty (length replicates0) +:+
                    " replicates for TF " +:+ tf_name +:+ ".");;
             chexmix_df <- load_tf_chexmix_bed E tf_name data_dir;;
             ret (replicates0, chexmix_df)) fs
            = (Raised e, fs1, ev0 ++ found :: eva ++ evb)) as Hm.
    { rewrite (bind_Ok _ _ _ _ _ _ Hrep). erewrite (bind_Ok (print _)) by reflexivity.
      by rewrite (bind_Raised _ _ _ _ _ _ Hload). }
    by rewrite (bind_Raised _ _ _ _ _ _ Hm).
  - apply (ends_inv _ _ _ _ _ _ (get_replicates_for_tf_ends _ _ _)) in Hrep as [_ ->].
    apply (ends_inv _ _ _ _ _ _ (os_makedirs_silent _ _)) in Hmk as ->.
    cbn [app]. constructor; [done|].
    by apply (ends_inv _ _ _ _ _ _ (download_tf_chexmix_bed_ends tf_name data_dir fsa)) in Hdl
      as [? _].
Qed.

(** The loop of [run_all_tfs], one factor at a time. *)
Lemma for_tfs_cons (tf_name : string) (tfs : list string) (fs : FS) :
  for_tfs E (tf_name :: tfs) fs =
  (let '(r, fs1, ev1) := main E tf_name fs in
   let '(r', fs2, ev2) := for_tfs E tfs fs1 in
   (r', fs2,
    Stdout (newline +:+ "Running pipeline for TF: " +:+ tf_name)
    :: ev1
    ++ match r with
       | Raised e => [Stdout ("Error processing " +:+ tf_name +:+ ": " +:+ exn_msg e)]
       | _ => []
       end
    ++ ev2)).
Proof.
  simpl. erewrite (bind_Ok (print _)) by reflexivity.
  pose proof (terminates_main E tf_name fs) as Hterm.
  unfold bind, try_except, prepend.
  destruct (main E tf_name fs) as [[[[]|e|] fs1] ev1]; [| |done]; simpl.
  - destruct (for_tfs E tfs fs1) as [[r' fs2] ev2]. simpl. done.
  - destruct (for_tfs E tfs fs1) as [[r' fs2] ev2]. simpl.
    by rewrite <- (assoc_L (++)).
Qed.

Lemma for_tfs_Ok (tfs : list string) (fs : FS) :
  fst (fst (for_tfs E tfs fs)) = Ok tt.
Proof.
  revert fs. induction tfs as [|tf_name tfs IH]; intros fs; [done|].
  rewrite for_tfs_cons. destruct (main E tf_name fs) as [[r fs1] ev1].
  specialize (IH fs1). by destruct (for_tfs E tfs fs1) as [[r' fs2] ev2].
Qed.

Lemma for_tfs_runs_each (tfs : list string) (fs : FS) (tf_name : string) :
  tf_name ∈ tfs →
  Stdout (newline +:+ "Running pipeline for TF: " +:+ tf_name)
  ∈ snd (for_tfs E tfs fs).
Proof.
  revert fs. induction tfs as [|tf' tfs IH]; intros fs; [by intros ?%elem_of_nil|].
  intros Hin. rewrite for_tfs_cons. destruct (main E tf' fs) as [[r fs1] ev1].
  specialize (IH fs1). destruct (for_tfs E tfs fs1) as [[r' fs2] ev2]. simpl in *.
  apply elem_of_cons in Hin as [->|Hin]; [by left|]. right.
  rewrite !elem_of_app. right. right. by apply IH.
Qed.

(** C7.  The loop of [run_all_tfs] never raises and always ends: for each
    name in turn it calls [main], in the file system the names before it
    left; an exception of [main] is turned into the line
    "Error processing <name>: <message>", and the loop goes on with the
    names after it; every name gets its "Running pipeline for TF" line.
    [run_all_tfs] itself, once the metadata is read, ends normally and runs
    the pipeline for every name of the sheet. *)
Theorem run_all_tfs_isolates_failures :
  (∀ tfs fs, ∃ fs' ev, for_tfs E tfs fs = (Ok tt, fs', ev))
  ∧ (∀ tf_name tfs fs,
       for_tfs E (tf_name :: tfs) fs =
       (let '(r, fs1, ev1) := main E tf_name fs in
        let '(r', fs2, ev2) := for_tfs E tfs fs1 in
        (r', fs2,
         Stdout (newline +:+ "Running pipeline for TF: " +:+ tf_name)
         :: ev1
         ++ match r with
            | Raised e =>
                [Stdout ("Error processing " +:+ tf_name +:+ ": " +:+ exn_msg e)]
            | _ => []
            end
         ++ ev2)))
  ∧ (∀ tfs fs tf_name, tf_name ∈ tfs →
       Stdout (newline +:+ "Running pipeline for TF: " +:+ tf_name)
       ∈ snd (for_tfs E tfs fs))
  ∧ (∀ metadata_file fs content df,
       files fs !! metadata_file = Some content →
       read_excel E content sheet_name = inr df →
       ∃ fs' ev,
         run_all_tfs E metadata_file fs = (Ok tt, fs', ev)
         ∧ ∀ tf_name, Some tf_name ∈ tf_common_name <$> df →
             Stdout (newline +:+ "Running pipeline for TF: " +:+ tf_name) ∈ ev).
Proof.
  split; [|split; [apply for_tfs_cons|split; [apply for_tfs_runs_each|]]].
  - intros tfs fs. pose proof (for_tfs_Ok tfs fs) as H.
    destruct (for_tfs E tfs fs) as [[r fs'] ev]. simpl in H. subst. by eexists _, _.
  - intros metadata_file fs content df Hfile Hread.
    unfold run_all_tfs.
    rewrite (bind_Ok _ _ _ _ _ _ (pd_read_excel_run _ _ _ _ _ Hfile Hread)).
    pose proof (for_tfs_Ok (unique_tfs df) fs) as Hok.
    pose proof (for_tfs_runs_each (unique_tfs df) fs) as Heach.
    destruct (for_tfs E (unique_tfs df) fs) as [[r fs'] ev]. simpl in *. subst.
    exists fs', ev. split; [done|]. intros tf_name Htf. apply Heach.
    unfold unique_tfs. apply elem_of_drop_duplicates.
    apply list_elem_of_omap. apply list_elem_of_fmap in Htf as (row & Hrow & Hin).
    by exists row.
Qed.

Lemma lower_lowered (s : string) : isascii s = true → lower s = Spec.lowered s.
Proof.
  induction s as [|c s IH]; [done|]. intros [Hc Hs]%isascii_cons.
  rewrite lower_cons_ascii by done. cbn [Spec.lowered]. by rewrite IH.
Qed.

Lemma capitalize_capitalized (s : string) :
  isascii s = true → capitalize s = Spec.capitalized s.
Proof.
  destruct s as [|c s]; [done|]. intros [Hc Hs]%isascii_cons.
  cbn [capitalize Spec.capitalized]. by rewrite lower_lowered.
Qed.

(** C10, for the names of ASCII characters.  The file name of the peaks of
    such a factor is its name with the first character upper-cased and every
    other character lower-cased, followed by "_CX.bed".  Two such names that
    are equal case-insensitively have the same URL and the same local path.
    For "ABF1" the name is "Abf1_CX.bed", and the download, when the file is
    not there, requests the URL that ends with "Abf1_CX.bed" and no other,
    and saves to "Abf1_CX.bed" in the destination directory. *)
Theorem chexmix_file_key_is_capitalized :
  (∀ tf_name, isascii tf_name = true →
     chexmix_filename tf_name = Spec.capitalized tf_name +:+ "_CX.bed")
  ∧ (∀ a b dest_dir, isascii a = true → isascii b = true →
       Spec.lowered a = Spec.lowered b →
       chexmix_file_url a = chexmix_file_url b ∧
       chexmix_out_path a dest_dir = chexmix_out_path b dest_dir)
  ∧ chexmix_filename "ABF1" = "Abf1_CX.bed"
  ∧ (∀ dest_dir fs,
       isfile (path_join dest_dir "Abf1_CX.bed") fs = false →
       isdir (path_join dest_dir "Abf1_CX.bed") fs = false →
       ∃ r fs' ev,
         download_tf_chexmix_bed E "ABF1" dest_dir fs = (r, fs', ev)
         ∧ downloads ev = [chexmix_url +:+ "Abf1_CX.bed"]
         ∧ (∀ p, r = Ok p →
              p = path_join dest_dir "Abf1_CX.bed" ∧ isfile p fs' = true)).
Proof.
  split; [|split; [|split; [done|]]].
  { intros tf_name Hascii. unfold chexmix_filename.
    by rewrite capitalize_capitalized. }
  { intros a b dest_dir Ha Hb Hab.
    unfold chexmix_file_url, chexmix_out_path, chexmix_filename.
    rewrite (capitalize_eq_of_lower a b Ha Hb); [done|].
    by rewrite !lower_lowered. }
  intros dest_dir fs Hf Hd.
  destruct (download_tf_chexmix_bed E "ABF1" dest_dir fs) as [[r fs'] ev] eqn:Hrun.
  apply (ends_inv _ _ _ _ _ _ (download_tf_chexmix_bed_ends "ABF1" dest_dir fs)) in Hrun
    as (_ & Hdl & Hok).
  change (chexmix_out_path "ABF1" dest_dir) with (path_join dest_dir "Abf1_CX.bed") in *.
  rewrite Hf, Hd in Hdl. exists r, fs', ev. split; [done|]. split; [done|].
  intros p Hp. destruct (Hok p Hp) as [-> [?|?]]; [done|congruence].
Qed.

End MoreTheorems.

(** ** The metadata reader *)

(** What [get_replicates_for_tf] keeps: the rows whose name, trimmed and
    lower-cased, is the requested name lower-cased. *)
Lemma replicates_of_sheet_firsts (tf_name : string) (df : list MetaRow) :
  replicates_of_sheet tf_name df =
  Spec.first_occurrences (λ p, p)
    (r ← df;
     match tf_common_name r with
     | Some s => if decide (lower (strip s) = lower tf_name)
                 then [(meta_replicate r, meta_sample_id r)] else []
     | None => []
     end).
Proof.
  unfold replicates_of_sheet, drop_duplicates. rewrite drop_duplicates_by_firsts.
  f_equal. induction df as [|r df IH]; [done|].
  rewrite bind_cons, <- IH. cbn [List.filter]. unfold tf_mask at 1.
  destruct (tf_common_name r) as [s|]; [|done].
  case_bool_decide; by destruct (decide _).
Qed.

(** For a requested name without surrounding whitespace this is the reading
    of the specification. *)
Lemma replicates_of_sheet_trimmed (tf_name : string) (df : list MetaRow) :
  strip tf_name = tf_name →
  replicates_of_sheet tf_name df = Spec.replicates tf_name df.
Proof.
  intros Htrim. rewrite replicates_of_sheet_firsts. unfold Spec.replicates.
  f_equal. apply list_bind_ext; [|done]. intros r.
  destruct (tf_common_name r) as [s|]; [|done].
  destruct (decide (lower (strip s) = lower tf_name)) as [H1|H1],
    (decide (Spec.same_tf s tf_name)) as [H2|H2]; try done;
    unfold Spec.same_tf in H2; rewrite Htrim in H2; done.
Qed.

(** No matching row: an empty result, not an error. *)
Lemma replicates_of_sheet_no_match (tf_name : string) (df : list MetaRow) :
  (∀ r, r ∈ df → tf_mask tf_name r = false) →
  replicates_of_sheet tf_name df = [].
Proof.
  intros Hno. unfold replicates_of_sheet.
  assert (List.filter (tf_mask tf_name) df = []) as ->; [|done].
  induction df as [|r df IH]; [done|]. cbn [List.filter].
  rewrite (Hno r) by (by left). apply IH. intros r' Hr'. apply Hno. by right.
Qed.

(** ** Runs on the test bench *)

Import Fixture Cases.

Ltac run_done := first [ compute_done | vm_compute; reflexivity ].

(** C9, at a name that carries a trailing space, as the sheet has it and as
    [run_all_tfs] passes it on: the name is the same as itself under the
    comparison of the specification, the specification keeps the row, the
    script keeps none and goes on with zero replicates. *)
Theorem get_replicates_for_tf_untrimmed_name :
  Spec.same_tf "Abf1 " "Abf1 "
  ∧ Spec.replicates "Abf1 " spaced_sheet = [(CStr "R1", CStr "S1")]
  ∧ replicates_of_sheet "Abf1 " spaced_sheet = []
  ∧ result (get_replicates_for_tf env_e2e "Abf1 " metadata_xlsx disk_spaced) = Ok []
  ∧ unique_tfs spaced_sheet = ["Abf1 "]
  ∧ Stdout "Found 0 replicates for TF Abf1 ." ∈ events (script env_e2e disk_spaced).
Proof. repeat split; run_done. Qed.

(** The end-to-end scenario of the specification: one row, of the first
    sample and its first motif. *)
Example end_to_end_output :
  result (main env_e2e "Abf1" disk0) = Ok tt
  ∧ files (state (main env_e2e "Abf1" disk0)) !! output_bed_file "Abf1"
    = Some (to_csv_text
              [ {| joined := {| chrom := "chrI"; start_abf1 := 150; end_abf1 := 160;
                                score := CInt 5; strand_four := "+"; motif := 1 |};
                   sample_id := "S1"; replicate := CStr "R1" |} ])
  ∧ Stdout "No motif files found for sample S2, skipping."
    ∈ events (main env_e2e "Abf1" disk0).
Proof. repeat split; run_done. Qed.

(** C1 on the tables of the end-to-end scenario. *)
Example merge_end_to_end :
  merge_motif_with_chexmix
    [ (1, [mkMotifRow "chrI" 100 200 (CStr ".") (CInt 0) "+"]);
      (2, [mkMotifRow "chrI" 300 400 (CStr ".") (CInt 0) "-"]) ]
    abf1_peaks
  = [ {| chrom := "chrI"; start_abf1 := 150; end_abf1 := 160;
         score := CInt 5; strand_four := "+"; motif := 1 |} ].
Proof. run_done. Qed.


(** C3 as stated fails: the archive of the first sample is not on the server,
    [main] raises the error of that download, the second replicate, whose
    motif lies under the peak, is never processed and nothing is saved. *)
Lemma later_replicate_never_processed :
  result (main env_s1_missing "Abf1" disk0)
  = Raised (Exn HTTPError
              ("404 Client Error: Not Found for url: " +:+ sample_url "S1"))
  ∧ spec_error_of (Exn HTTPError
              ("404 Client Error: Not Found for url: " +:+ sample_url "S1"))
    = NetworkError
  ∧ Stdout "Processing replicate: R1 Sample ID: S1"
    ∈ events (main env_s1_missing "Abf1" disk0)
  ∧ (Stdout "Processing replicate: R2 Sample ID: S2"
     ∉ events (main env_s1_missing "Abf1" disk0))
  ∧ isfile (output_bed_file "Abf1") (state (main env_s1_missing "Abf1" disk0)) = false
  ∧ result (replicate_body env_s1_missing abf1_peaks (CStr "R2", CStr "S2")
              (state (main env_s1_missing "Abf1" disk0)))
    = Ok (Some [ {| joined := {| chrom := "chrI"; start_abf1 := 150;
                                 end_abf1 := 160; score := CInt 5;
                                 strand_four := "-"; motif := 1 |};
                    sample_id := "S2"; replicate := CStr "R2" |} ]).
Proof. repeat split; run_done. Qed.

(** C3, as the script has it, on the same run. *)
Lemma main_stops_at_first_replicate :
  result (main env_s1_missing "Abf1" disk0)
  = Raised (Exn HTTPError
              ("404 Client Error: Not Found for url: " +:+ sample_url "S1")).
Proof.
  pose (loaded := main_load env_s1_missing "Abf1" disk0).
  pose (failed := download_and_extract_zip env_s1_missing "S1" data_dir (state loaded)).
  destruct (main_stops_at_failing_replicate env_s1_missing "Abf1" disk0
              abf1_replicates abf1_peaks (state loaded) (events loaded)
              [] (CStr "R1", CStr "S1") [(CStr "R2", CStr "S2")]
              [] (state loaded) []
              (Exn HTTPError
                 ("404 Client Error: Not Found for url: " +:+ sample_url "S1"))
              (state failed) (events failed)) as (_ & _ & Hmain).
  - run_done.
  - reflexivity.
  - reflexivity.
  - left. run_done.
  - rewrite Hmain. reflexivity.
Defined.

(** C4 as stated fails: the one sample with motif files has no motif under
    the peak, no replicate produces a joined row, and [main] still writes
    the output file, with the header line only. *)
Lemma rowless_run_writes_header_only :
  result (main_load env_far_peak "Abf1" disk0) = Ok (abf1_replicates, far_peaks)
  ∧ result (for_replicates env_far_peak far_peaks abf1_replicates []
              (state (main_load env_far_peak "Abf1" disk0)))
    = Ok [ [] ]
  ∧ result (main env_far_peak "Abf1" disk0) = Ok tt
  ∧ files disk0 !! output_bed_file "Abf1" = None
  ∧ files (state (main env_far_peak "Abf1" disk0)) !! output_bed_file "Abf1"
    = Some (join_with tab final_columns +:+ newline)
  ∧ (Stdout "No results found for any replicates."
     ∉ events (main env_far_peak "Abf1" disk0)).
Proof. repeat split; run_done. Qed.

(** C4, as the script has it, where no sample has a motif file. *)
Lemma main_without_tables_run :
  result (main env_no_motifs "Abf1" disk0) = Ok tt
  ∧ isfile (output_bed_file "Abf1") (state (main env_no_motifs "Abf1" disk0)) = false.
Proof.
  pose (loaded := main_load env_no_motifs "Abf1" disk0).
  pose (looped := for_replicates env_no_motifs abf1_peaks abf1_replicates []
                    (state loaded)).
  rewrite (main_without_tables_writes_nothing env_no_motifs "Abf1" disk0
             abf1_replicates abf1_peaks (state loaded) (events loaded)
             (state looped) (events looped)).
  - split; run_done.
  - run_done.
  - run_done.
Defined.

(** C6 as stated fails.  Where the data directory is missing, both calls
    download the archive and both fail to save it: two downloads.  Where the
    archive on the server is empty, both calls return, and both extract:
    extracting no member does not make the directory. *)
Lemma download_and_extract_zip_repeats :
  downloads (both_calls env_e2e "S1" data_dir disk_no_data_dir)
  = [sample_url "S1"; sample_url "S1"]
  ∧ result (download_and_extract_zip env_empty_zip "S1" data_dir disk0)
    = Ok (path_join data_dir "S1")
  ∧ result (second_call env_empty_zip "S1" data_dir disk0)
    = Ok (path_join data_dir "S1")
  ∧ extractions (both_calls env_empty_zip "S1" data_dir disk0)
    = [ (zip_path "S1" data_dir, path_join data_dir "S1");
        (zip_path "S1" data_dir, path_join data_dir "S1") ].
Proof. repeat split; run_done. Qed.

(** C6, as the script has it, on the first sample of the end-to-end
    scenario. *)
Lemma download_and_extract_zip_twice_run :
  result (second_call env_e2e "S1" data_dir disk0) = Ok (path_join data_dir "S1")
  ∧ length (downloads (both_calls env_e2e "S1" data_dir disk0)) ≤ 1
  ∧ length (extractions (both_calls env_e2e "S1" data_dir disk0)) ≤ 1.
Proof.
  destruct (download_and_extract_zip_twice env_e2e "S1" data_dir disk0)
    as (_ & _ & Htwice).
  destruct (Htwice (path_join data_dir "S1")) as (_ & Hres & _ & _ & Hdl & Hex).
  - run_done.
  - run_done.
  - split; [exact Hres|]. split; [exact Hdl|exact Hex].
Defined.

(** C8 on a peak file of five columns. *)
Lemma short_peak_file_run :
  result (main env_short_peaks "Abf1" disk0)
  = Raised (Exn ValueError
      "Length mismatch: Expected axis has 5 elements, new values have 6 elements").
Proof.
  pose (made := os_makedirs data_dir disk0).
  pose (fetched := download_tf_chexmix_bed env_short_peaks "Abf1" data_dir (state made)).
  destruct (short_peak_file_stops_main env_short_peaks "Abf1" disk0
              abf1_replicates disk0 [] (state made) []
              (chexmix_out_path "Abf1" data_dir) (state fetched) (events fetched)
              short_peaks_text (mkFrame 5 [])) as (_ & _ & Hmain & _).
  - run_done.
  - run_done.
  - run_done.
  - run_done.
  - run_done.
  - simpl. lia.
  - rewrite Hmain. run_done.
Defined.

(** C10 as stated fails outside ASCII.  The name written with the Kelvin
    sign for its first letter and the name "kar4" are equal once lower-cased,
    for the lower case of the Kelvin sign is "k"; [capitalize] leaves the
    Kelvin sign as it is and makes "Kar4" of "kar4".  The two names have
    different file names, different URLs and different cache files, and the
    download for each requests a URL of its own. *)
Lemma kelvin_sign_name_has_its_own_file :
  lower kelvin_kar4 = lower "kar4"
  ∧ chexmix_filename "kar4" = "Kar4_CX.bed"
  ∧ chexmix_filename kelvin_kar4 = kelvin_sign +:+ "ar4_CX.bed"
  ∧ chexmix_file_url kelvin_kar4 ≠ chexmix_file_url "kar4"
  ∧ chexmix_out_path kelvin_kar4 data_dir ≠ chexmix_out_path "kar4" data_dir
  ∧ downloads (events (download_tf_chexmix_bed env_e2e kelvin_kar4 data_dir disk0))
    = [chexmix_url +:+ kelvin_sign +:+ "ar4_CX.bed"]
  ∧ downloads (events (download_tf_chexmix_bed env_e2e "kar4" data_dir disk0))
    = [chexmix_url +:+ "Kar4_CX.bed"].
Proof. repeat split; run_done. Qed.

(** C10, for the names of ASCII characters, at "ABF1" and "abf1". *)
Lemma chexmix_file_key_run :
  chexmix_file_url "ABF1" = chexmix_file_url "abf1"
  ∧ chexmix_out_path "ABF1" data_dir = chexmix_out_path "abf1" data_dir.
Proof.
  apply (proj1 (proj2 (chexmix_file_key_is_capitalized env_e2e))); run_done.
Defined.

(** * Further properties of the script *)

(** ** The de-duplication, once more *)

Section DuplicatesMore.
Context {A K : Type} `{EqDecision K} (key : A → K).

Lemma firsts_after_app (pre l1 l2 : list A) :
  Spec.firsts_after key pre (l1 ++ l2)
  = Spec.firsts_after key pre l1 ++ Spec.firsts_after key (pre ++ l1) l2.
Proof.
  revert pre. induction l1 as [|x l1 IH]; intros pre.
  - by rewrite app_nil_r.
  - cbn [app]. rewrite !firsts_after_cons, IH, <- !(assoc_L (++)). done.
Qed.

Lemma elem_of_firsts_after (pre l : list A) (x : A) :
  x ∈ Spec.firsts_after key pre l →
  x ∈ l ∧ ∀ y, y ∈ pre → key y ≠ key x.
Proof.
  rewrite <- (drop_from_firsts key (key <$> pre) pre l).
  2:{ intros k. rewrite list_elem_of_fmap. split; intros (y & ? & ?); by exists y. }
  intros Hx. split.
  - eapply elem_of_sublist; [exact Hx|]. apply drop_from_sublist.
  - apply elem_of_drop_from in Hx as (l1 & l2 & _ & Hn & _).
    intros y Hy Heq. apply Hn. rewrite <- Heq. by apply list_elem_of_fmap_2.
Qed.

Lemma drop_duplicates_by_app (l1 l2 : list A) :
  drop_duplicates_by key (l1 ++ l2)
  = drop_duplicates_by key l1 ++ Spec.firsts_after key l1 l2.
Proof.
  rewrite !drop_duplicates_by_firsts, <- !firsts_after_nil.
  by rewrite firsts_after_app.
Qed.

End DuplicatesMore.

(** ** The aggregation and the join, beyond their specification *)

(** X13.  The de-duplication of line 157 loses no coordinate and invents no row:
    every key of a row of some replicate is the key of a row of the final
    table, and every row of the final table is a row of some replicate. *)
Theorem aggregate_keeps_every_key (tables : list (list AggRow)) (out : list AggRow) :
  aggregate tables = Some out →
  (∀ r, r ∈ concat tables → ∃ r', r' ∈ out ∧ coord_key r' = coord_key r)
  ∧ (∀ r, r ∈ out → r ∈ concat tables).
Proof.
  intros Hagg.
  assert (out = drop_duplicates_by coord_key (concat tables)) as ->.
  { destruct tables; [done|]. by injection Hagg as <-. }
  split.
  - intros r Hr. by apply drop_duplicates_by_covers.
  - intros r Hr. eapply elem_of_sublist; [exact Hr|]. apply drop_from_sublist.
Qed.

(** X14.  More replicates after the ones aggregated only add rows at the end: the
    rows kept for the first replicates stay, in their order, and a row
    added has a key that no row of the first replicates has. *)
Theorem aggregate_extends (tables more : list (list AggRow)) (out : list AggRow) :
  aggregate tables = Some out →
  ∃ new,
    aggregate (tables ++ more) = Some (out ++ new)
    ∧ ∀ r, r ∈ new →
        r ∈ concat more ∧ ∀ r0, r0 ∈ concat tables → coord_key r0 ≠ coord_key r.
Proof.
  intros Hagg.
  assert (out = drop_duplicates_by coord_key (concat tables)) as ->.
  { destruct tables; [done|]. by injection Hagg as <-. }
  exists (Spec.firsts_after coord_key (concat tables) (concat more)). split.
  - destruct tables as [|t tables]; [done|]. cbn [app aggregate]. f_equal.
    unfold concat_frames. change (t :: tables ++ more) with ((t :: tables) ++ more).
    rewrite concat_app. apply drop_duplicates_by_app.
  - intros r Hr. by apply elem_of_firsts_after in Hr.
Qed.


(** ** The tables of the loop and the peak table *)

Lemma elem_of_concat {A} (x : A) (ls : list (list A)) :
  x ∈ concat ls ↔ ∃ l, x ∈ l ∧ l ∈ ls.
Proof.
  induction ls as [|l ls IH]; simpl.
  - split; [by intros ?%elem_of_nil|]. by intros (l & _ & ?%elem_of_nil).
  - rewrite elem_of_app, IH. split.
    + intros [?|(l' & ? & ?)]; [exists l|exists l']; split; try done; by constructor.
    + intros (l' & Hx & [->|?]%elem_of_cons); [by left|right; by exists l'].
Qed.

Lemma joined_row_from_peak (motif_dfs : list (nat * list MotifRow))
  (chexmix_df : list PeakRow) (j : JoinedRow) :
  j ∈ merge_motif_with_chexmix motif_dfs chexmix_df →
  ∃ R, R ∈ chexmix_df
       ∧ (chrom j, start_abf1 j, end_abf1 j, score j) = peak_key R.
Proof.
  rewrite merge_motif_with_chexmix_pairs, elem_of_drop_duplicates.
  intros (kv & Hj & _)%list_elem_of_bind.
  apply elem_of_pairs in Hj as (R & M0 & HR & _ & _ & ->). by exists R.
Qed.

Section LoopTables.
Context (E : Env).

Lemma print_frames_ends (motif_dfs : list (nat * list MotifRow)) fs :
  ends (foldr (λ kv rest, emit (StdoutFrame (snd kv)) ;; rest) (ret tt) motif_dfs) fs
    (λ r fs' ev, r = Ok tt ∧ fs' = fs ∧ downloads ev = [] ∧ extractions ev = []).
Proof.
  induction motif_dfs as [|kv l IH]; [by wp|].
  cbn [foldr]. wp. eapply ends_weaken; [apply IH|]. cbn beta.
  intros r fs' ev (-> & -> & Hd & Hx). by unfold downloads, extractions in *.
Qed.

Lemma merge_motif_with_chexmix_m_ends motif_dfs chexmix_df fs :
  ends (merge_motif_with_chexmix_m motif_dfs chexmix_df) fs (λ r fs' ev,
    r = Ok (merge_motif_with_chexmix motif_dfs chexmix_df) ∧ fs' = fs
    ∧ downloads ev = [] ∧ extractions ev = []).
Proof.
  unfold merge_motif_with_chexmix_m. wp.
  eapply ends_weaken; [apply print_frames_ends|]. cbn beta.
  intros r fs' ev (-> & -> & Hd & Hx). wp. by rewrite app_nil_r.
Qed.

Lemma replicate_body_table chexmix_df row fs t fs' ev :
  replicate_body E chexmix_df row fs = (Ok (Some t), fs', ev) →
  table_of chexmix_df row t.
Proof.
  unfold replicate_body. erewrite bind_Ok by reflexivity. unfold bind at 1.
  destruct (download_and_extract_zip E (cell_str (snd row)) data_dir fs)
    as [[[ep|e|] fs1] ev1]; try done.
  unfold bind at 1.
  destruct (load_all_motif_bed_files E ep (cell_str (snd row)) fs1)
    as [[[dict|e|] fs2] ev2] eqn:Hload; try done.
  apply (ends_inv _ _ _ _ _ _ (load_all_motif_bed_files_ends E _ _ _)) in Hload
    as (_ & _ & _ & _ & _ & _ & Hok).
  destruct (Hok dict eq_refl) as (k & tables & -> & Hkeys & _).
  destruct tables as [|kv tables]; [done|]. cbn [app].
  unfold bind at 1.
  destruct (merge_motif_with_chexmix_m (kv :: tables) chexmix_df fs2)
    as [[[c|e|] fs3] ev3] eqn:Hm; try done.
  apply (ends_inv _ _ _ _ _ _ (merge_motif_with_chexmix_m_ends _ _ _)) in Hm
    as ([= ->] & _).
  unfold ret, prepend. cbn [fst snd]. intros [= <- _ _].
  by exists (kv :: tables), k.
Qed.

Lemma for_replicates_tables chexmix_df replicates acc fs tables fs' ev :
  for_replicates E chexmix_df replicates acc fs = (Ok tables, fs', ev) →
  ∃ new, tables = acc ++ new
         ∧ length new ≤ length replicates
         ∧ Forall (λ t, ∃ row, row ∈ replicates ∧ table_of chexmix_df row t) new.
Proof.
  revert acc fs fs' ev. induction replicates as [|row l IH]; intros acc fs fs' ev.
  - simpl. intros [= <- _ _]. exists []. by rewrite app_nil_r.
  - simpl. unfold bind at 1.
    destruct (replicate_body E chexmix_df row fs) as [[[[t|]|e|] fs0] ev0] eqn:Hbody;
      try done.
    + destruct (for_replicates E chexmix_df l (acc ++ [t]) fs0)
        as [[r1 fs1] ev1] eqn:Hrest.
      unfold prepend. simpl. intros [= -> _ _].
      destruct (IH _ _ _ _ Hrest) as (new & -> & Hlen & Hnew). exists (t :: new).
      split; [by rewrite <- (assoc_L (++))|]. split; [simpl; lia|]. constructor.
      * exists row. split; [by left|]. by eapply replicate_body_table.
      * eapply Forall_impl; [exact Hnew|]. intros t' (row' & ? & ?). exists row'.
        split; [by right|done].
    + destruct (for_replicates E chexmix_df l acc fs0) as [[r1 fs1] ev1] eqn:Hrest.
      unfold prepend. simpl. intros [= -> _ _].
      destruct (IH _ _ _ _ Hrest) as (new & -> & Hlen & Hnew). exists new.
      split; [done|]. split; [simpl; lia|].
      eapply Forall_impl; [exact Hnew|]. intros t' (row' & ? & ?). exists row'.
      split; [by right|done].
Qed.

(** X11.  The final table is bounded by the peak table.  The tables the loop of
    [main] collects are joins with the peak table, at most one for a
    replicate; so the final table has no more rows than the peak table, and
    each of its rows carries the coordinates and the score of a peak. *)
Theorem final_table_within_peaks
  (chexmix_df : list PeakRow) (replicates : list (cell * cell)) (fs : FS)
  (tables : list (list AggRow)) (fs' : FS) (ev : list event) (out : list AggRow) :
  for_replicates E chexmix_df replicates [] fs = (Ok tables, fs', ev) →
  aggregate tables = Some out →
  length tables ≤ length replicates
  ∧ length out ≤ length chexmix_df
  ∧ ∀ r, r ∈ out → ∃ R, R ∈ chexmix_df ∧ coord_key r = peak_key R.
Proof.
  intros Hloop Hagg.
  destruct (for_replicates_tables _ _ _ _ _ _ _ Hloop) as (new & -> & Hlen & Hall).
  cbn [app] in Hagg |- *.
  assert (out = drop_duplicates_by coord_key (concat new)) as ->.
  { destruct new; [done|]. by injection Hagg as <-. }
  assert (∀ r, r ∈ drop_duplicates_by coord_key (concat new) →
            ∃ R, R ∈ chexmix_df ∧ coord_key r = peak_key R) as Hfrom.
  { intros r Hr.
    assert (r ∈ concat new) as Hin.
    { eapply elem_of_sublist; [exact Hr|]. apply drop_from_sublist. }
    apply elem_of_concat in Hin as (t & Hrt & Ht).
    rewrite Forall_forall in Hall.
    destruct (Hall t Ht) as (row & _ & dict & k & _ & ->).
    apply list_elem_of_fmap in Hrt as (j & -> & Hj).
    by apply joined_row_from_peak in Hj. }
  split; [done|]. split; [|done].
  rewrite <- (length_fmap coord_key), <- (length_fmap peak_key chexmix_df).
  apply submseteq_length, NoDup_submseteq; [apply NoDup_drop_duplicates_by|].
  intros k (r & -> & Hr)%list_elem_of_fmap.
  destruct (Hfrom r Hr) as (R & HR & ->). by apply list_elem_of_fmap_2.
Qed.

End LoopTables.


(** ** Runs as equations *)

Lemma ends_run {A} (m : M A) (fs : FS) (x : outcome A * FS * list event) :
  ends m fs (λ r fs' ev, (r, fs', ev) = x) → m fs = x.
Proof.
  intros H. destruct (m fs) as [[r fs'] ev] eqn:Hrun.
  by apply (ends_inv _ _ _ _ _ _ H) in Hrun.
Qed.

Lemma ends_of_run {A} (m : M A) (fs : FS) (Q : outcome A → FS → list event → Prop)
  r fs' ev :
  m fs = (r, fs', ev) → Q r fs' ev → ends m fs Q.
Proof.
  intros Hrun HQ. with_strategy transparent [ends] (unfold ends). by rewrite Hrun.
Qed.

Lemma raise_for_status_passes url st reason fs :
  (400 <=? st) && (st <? 600) = false →
  raise_for_status url st reason fs = (Ok tt, fs, []).
Proof.
  intros H. unfold raise_for_status.
  destruct ((400 <=? st) && (st <? 500)) eqn:H4.
  { apply andb_true_iff in H4 as [?%Nat.leb_le ?%Nat.ltb_lt].
    apply andb_false_iff in H as [?%Nat.leb_gt|?%Nat.ltb_ge]; lia. }
  destruct ((500 <=? st) && (st <? 600)) eqn:H5; [|done].
  apply andb_true_iff in H5 as [?%Nat.leb_le ?%Nat.ltb_lt].
  apply andb_false_iff in H as [?%Nat.leb_gt|?%Nat.ltb_ge]; lia.
Qed.

Lemma raise_for_status_refuses url st reason fs :
  (400 <=? st) && (st <? 600) = true →
  ∃ e, raise_for_status url st reason fs = (Raised e, fs, [])
       ∧ exn_cls e = HTTPError.
Proof.
  intros [?%Nat.leb_le ?%Nat.ltb_lt]%andb_true_iff. unfold raise_for_status.
  destruct ((400 <=? st) && (st <? 500)) eqn:H4; [by eexists|].
  destruct ((500 <=? st) && (st <? 600)) eqn:H5; [by eexists|].
  apply andb_false_iff in H4 as [?%Nat.leb_gt|?%Nat.ltb_ge]; [lia|].
  apply andb_false_iff in H5 as [?%Nat.leb_gt|?%Nat.ltb_ge]; lia.
Qed.

Lemma write_file_run p c fs :
  isdir p fs = false →
  bool_decide (dirname p = "") || isdir (dirname p) fs = true →
  write_file p c fs
  = (Ok tt, {| files := <[ p := c ]> (files fs); dirs := dirs fs |}, []).
Proof.
  intros Hd Hup. unfold write_file. erewrite bind_Ok by reflexivity.
  by rewrite Hd, Hup.
Qed.

Lemma read_file_run p fs c :
  files fs !! p = Some c → read_file p fs = (Ok c, fs, []).
Proof.
  intros H. unfold read_file. erewrite bind_Ok by reflexivity. by rewrite H.
Qed.

(** ** The artifact fetcher, when things go wrong *)

Section FetchMore.
Context (E : Env).

(** X3.  The fetch of an archive that is not on disk, when the server does not
    answer or answers with a status from 400 to 599: the call raises (an
    HTTP error in the second case) after the one request, and the file
    system is as it was: nothing is cached, nothing is extracted. *)
Theorem download_and_extract_zip_request_fails
  (sample dest_folder : string) (fs : FS) :
  isfile (zip_path sample dest_folder) fs = false →
  match requests_get E (sample_url sample) with
  | Response status_code _ _ => (400 <=? status_code) && (status_code <? 600) = true
  | NoResponse _ => True
  end →
  ∃ e,
    download_and_extract_zip E sample dest_folder fs
    = (Raised e, fs,
       [Stdout ("Downloading " +:+ sample_url sample +:+ " ...");
        HttpGet (sample_url sample)])
    ∧ match requests_get E (sample_url sample) with
      | Response _ _ _ => exn_cls e = HTTPError
      | NoResponse e' => e = e'
      end.
Proof.
  intros Hf Hresp.
  destruct (requests_get E (sample_url sample)) as [st reason content|e'] eqn:Hget.
  - destruct (raise_for_status_refuses (sample_url sample) st reason fs Hresp)
      as (e & Hraise & Hcls).
    exists e. split; [|done]. apply ends_run.
    unfold download_and_extract_zip. wp. rewrite Hf. cbn [negb]. wp.
    apply ends_http_get. rewrite Hget. wp.
    eapply ends_of_run; [exact Hraise|done].
  - exists e'. split; [|done]. apply ends_run.
    unfold download_and_extract_zip. wp. rewrite Hf. cbn [negb]. wp.
    apply ends_http_get. by rewrite Hget.
Qed.

(** An archive on disk that [zipfile] cannot read, with no extraction
    directory: the call raises the error of [zipfile], sends no request and
    leaves the file system as it was. *)
Lemma cached_archive_unreadable sample dest_folder fs content e :
  files fs !! zip_path sample dest_folder = Some content →
  isdir (path_join dest_folder sample) fs = false →
  zip_members E content = inl e →
  download_and_extract_zip E sample dest_folder fs
  = (Raised e, fs,
     [Stdout (zip_path sample dest_folder +:+ " already downloaded.");
      Stdout ("Extracting " +:+ zip_path sample dest_folder +:+ " to "
              +:+ path_join dest_folder sample)]).
Proof.
  intros Hfile Hdir Hzip. apply ends_run. unfold download_and_extract_zip. wp.
  assert (isfile (zip_path sample dest_folder) fs = true) as ->.
  { apply bool_decide_eq_true. by rewrite Hfile. }
  cbn [negb]. wp. rewrite Hdir. cbn [negb]. wp. unfold zip_extractall. wp.
  apply ends_read_file; [intros e0 H0; congruence|].
  intros c Hc. assert (c = content) as -> by congruence.
  rewrite Hzip. by wp.
Qed.

(** X4.  A bad archive stays.  When the body the server sent is saved and
    [zipfile] cannot read it, the call raises; the body is then on disk as
    the archive of the sample, and the next call finds it there: it sends no
    request, raises the same error and leaves the file system as it is.  The
    script never fetches that archive again. *)
Theorem corrupt_archive_is_never_replaced
  (sample dest_folder : string) (fs : FS)
  (status_code : nat) (reason content : string) (e : exn) :
  let zip_filename := zip_path sample dest_folder in
  let first := download_and_extract_zip E sample dest_folder fs in
  let second := download_and_extract_zip E sample dest_folder (state first) in
  isfile zip_filename fs = false →
  isdir zip_filename fs = false →
  bool_decide (dirname zip_filename = "") || isdir (dirname zip_filename) fs = true →
  isdir (path_join dest_folder sample) fs = false →
  requests_get E (sample_url sample) = Response status_code reason content →
  (400 <=? status_code) && (status_code <? 600) = false →
  zip_members E content = inl e →
  result first = Raised e
  ∧ downloads (events first) = [sample_url sample]
  ∧ files (state first) !! zip_filename = Some content
  ∧ result second = Raised e
  ∧ state second = state first
  ∧ downloads (events second) = []
  ∧ extractions (events first ++ events second) = [].
Proof.
  intros zip_filename first second Hf Hzd Hup Hdir Hresp Hst Hzip.
  set (fs1 := {| files := <[ zip_filename := content ]> (files fs); dirs := dirs fs |}).
  assert (files fs1 !! zip_filename = Some content) as Hfile.
  { unfold fs1. cbn [files]. apply lookup_insert_eq. }
  assert (first = (Raised e, fs1,
            [Stdout ("Downloading " +:+ sample_url sample +:+ " ...");
             HttpGet (sample_url sample);
             Stdout ("Extracting " +:+ zip_filename +:+ " to "
                     +:+ path_join dest_folder sample)])) as Hfirst.
  { subst first. apply ends_run. unfold download_and_extract_zip. fold zip_filename.
    wp. rewrite Hf. cbn [negb]. wp. apply ends_http_get. rewrite Hresp. wp.
    cbn [fst snd]. eapply ends_of_run; [by apply raise_for_status_passes|]. wp.
    eapply ends_of_run; [by apply write_file_run|]. fold fs1. wp.
    assert (isdir (path_join dest_folder sample) fs1 = false) as -> by exact Hdir.
    cbn [negb]. wp. unfold zip_extractall. wp.
    eapply ends_of_run; [by apply read_file_run|]. wp. rewrite Hzip. by wp. }
  assert (second = (Raised e, fs1,
            [Stdout (zip_filename +:+ " already downloaded.");
             Stdout ("Extracting " +:+ zip_filename +:+ " to "
                     +:+ path_join dest_folder sample)])) as Hsecond.
  { subst second. rewrite Hfirst. unfold state. cbn [fst snd].
    by apply (cached_archive_unreadable sample dest_folder fs1 content e). }
  rewrite Hsecond, Hfirst. unfold result, state, events. cbn [fst snd].
  by repeat split.
Qed.

End FetchMore.


(** ** The peak file: cache and load *)

Section PeaksMore.
Context (E : Env).

(** The three ways a call of [download_tf_chexmix_bed] goes: the path is
    there and nothing is done; the request or the saving fails and the file
    system is as it was; the body is saved. *)
Lemma download_tf_chexmix_bed_cases tf_name dest_dir fs :
  let out_path := chexmix_out_path tf_name dest_dir in
  let url := chexmix_file_url tf_name in
  ends (download_tf_chexmix_bed E tf_name dest_dir) fs (λ r fs' ev,
    (isfile out_path fs || isdir out_path fs = true
     ∧ r = Ok out_path ∧ fs' = fs
     ∧ ev = [Stdout (chexmix_filename tf_name +:+ " already downloaded.")])
    ∨ (isfile out_path fs || isdir out_path fs = false
       ∧ (∃ e, r = Raised e) ∧ fs' = fs ∧ downloads ev = [url]
       ∧ extractions ev = [])
    ∨ (isfile out_path fs || isdir out_path fs = false
       ∧ r = Ok out_path
       ∧ downloads ev = [url] ∧ extractions ev = []
       ∧ ∃ status_code reason content,
           requests_get E url = Response status_code reason content
           ∧ fs' = {| files := <[ out_path := content ]> (files fs);
                      dirs := dirs fs |})).
Proof.
  intros out_path url. unfold download_tf_chexmix_bed.
  fold out_path. fold url. wp.
  destruct (isfile out_path fs || isdir out_path fs) eqn:Hthere; cbn [negb].
  { wp. by left. }
  wp. apply ends_http_get.
  destruct (requests_get E url) as [st reason content|e] eqn:Hget.
  2:{ right. left. split; [done|]. split; [by eexists|]. done. }
  wp. cbn [fst snd]. apply ends_raise_for_status.
  { intros e. right. left. split; [done|]. split; [by eexists|]. done. }
  wp. apply ends_write_file.
  { intros e. right. left. split; [done|]. split; [by eexists|]. done. }
  wp. right. right. do 4 (split; [done|]). by exists st, reason, content.
Qed.

(** X6.  The peak file is fetched once.  When a call of
    [download_tf_chexmix_bed] returns, the path it returns is there (as a
    file it has just saved, or as whatever was there before), and a second
    call does nothing: no request, the file system as it is, the same path;
    the two calls together send at most one request.  A call that finds the
    path there, as a file or as a directory, sends no request either. *)
Theorem download_tf_chexmix_bed_twice (tf_name dest_dir : string) (fs : FS) :
  let out_path := chexmix_out_path tf_name dest_dir in
  let first := download_tf_chexmix_bed E tf_name dest_dir fs in
  let second := download_tf_chexmix_bed E tf_name dest_dir (state first) in
  (isfile out_path fs || isdir out_path fs = true →
     first = (Ok out_path, fs,
              [Stdout (chexmix_filename tf_name +:+ " already downloaded.")]))
  ∧ (∀ p, result first = Ok p →
       p = out_path
       ∧ isfile out_path (state first) || isdir out_path (state first) = true
       ∧ second = (Ok out_path, state first,
                   [Stdout (chexmix_filename tf_name +:+ " already downloaded.")])
       ∧ length (downloads (events first ++ events second)) ≤ 1).
Proof.
  intros out_path first second.
  pose proof (download_tf_chexmix_bed_cases tf_name dest_dir fs) as Hfirst.
  cbn zeta in Hfirst. fold out_path in Hfirst.
  assert (∀ fs0, isfile out_path fs0 || isdir out_path fs0 = true →
            download_tf_chexmix_bed E tf_name dest_dir fs0
            = (Ok out_path, fs0,
               [Stdout (chexmix_filename tf_name +:+ " already downloaded.")]))
    as Hcached.
  { intros fs0 Hthere.
    destruct (download_tf_chexmix_bed E tf_name dest_dir fs0) as [[r fs'] ev] eqn:Hrun.
    pose proof (download_tf_chexmix_bed_cases tf_name dest_dir fs0) as H0.
    cbn zeta in H0. apply (ends_inv _ _ _ _ _ _ H0) in Hrun. fold out_path in Hrun.
    destruct Hrun as [(_ & -> & -> & ->)|[(Hno & _)|(Hno & _)]]; [done|congruence..]. }
  split; [by apply Hcached|].
  subst second. destruct first as [[r fs1] ev1] eqn:Hrun.
  apply (ends_inv _ _ _ _ _ _ Hfirst) in Hrun.
  unfold result, state, events. cbn [fst snd]. intros p ->.
  destruct Hrun as [(Hthere & [= ->] & -> & ->)
                   |[(_ & [e [=]] & _)
                    |(Hno & [= ->] & Hdl & _ & st & reason & content & _ & ->)]].
  - split; [done|]. split; [done|]. rewrite (Hcached fs Hthere). cbn [fst snd].
    split; [done|]. simpl. lia.
  - assert (isfile out_path
              {| files := <[ out_path := content ]> (files fs); dirs := dirs fs |}
            || isdir out_path
              {| files := <[ out_path := content ]> (files fs); dirs := dirs fs |}
            = true) as Hthere.
    { by rewrite isfile_write. }
    split; [done|]. split; [done|]. rewrite (Hcached _ Hthere). cbn [fst snd].
    split; [done|]. rewrite downloads_app, Hdl. simpl. lia.
Qed.

Lemma os_makedirs_cases p fs :
  ends (os_makedirs p) fs (λ r fs' ev,
    ev = [] ∧ files fs' = files fs ∧ grows fs fs'
    ∧ ((∃ e, r = Raised e ∧ fs' = fs
             ∧ (exn_cls e = FileExistsError ∨ exn_cls e = NotADirectoryError))
       ∨ (r = Ok tt ∧ isdir p fs' = true))).
Proof.
  unfold os_makedirs. wp.
  destruct (isfile p fs); [wp; do 3 (split; [done|]); left; eexists; eauto|].
  destruct (List.filter _ _); wp.
  - split; [done|]. split; [done|].
    assert (∀ q, q ∈ dirs fs → q ∈ dirs fs ∪ {[p]} ∪ list_to_set (ancestors p)) as Hsub.
    { intros q Hq. apply elem_of_union_l, elem_of_union_l, Hq. }
    split.
    + split; [done|]. unfold isdir. cbn [dirs].
      intros q Hq%bool_decide_eq_true. apply bool_decide_eq_true. by apply Hsub.
    + right. split; [done|]. unfold isdir. cbn [dirs]. apply bool_decide_eq_true.
      apply elem_of_union_l, elem_of_union_r. by apply elem_of_singleton.
  - do 3 (split; [done|]). left. eexists. eauto.
Qed.

Lemma read_file_cases p fs :
  ends (read_file p) fs (λ r fs' ev,
    fs' = fs ∧ ev = []
    ∧ match files fs !! p with
      | Some c => r = Ok c
      | None =>
          ∃ e, r = Raised e
               ∧ exn_cls e = (if isdir p fs then IsADirectoryError
                              else FileNotFoundError)
      end).
Proof.
  unfold read_file. wp. destruct (files fs !! p); [by wp|].
  destruct (isdir p fs); wp; (split; [done|]); (split; [done|]); by eexists.
Qed.

Lemma load_tf_chexmix_bed_ends tf_name dest_dir fs :
  let out_path := chexmix_out_path tf_name dest_dir in
  ends (load_tf_chexmix_bed E tf_name dest_dir) fs (λ r fs' ev,
    extractions ev = []
    ∧ (∀ p, p ≠ out_path → files fs' !! p = files fs !! p)
    ∧ (isdir out_path fs = true → isfile out_path fs = false →
       downloads ev = [] ∧ files fs' = files fs
       ∧ ∃ e, r = Raised e
              ∧ (exn_cls e = IsADirectoryError
                 ∨ (fs' = fs ∧ ev = []
                    ∧ (exn_cls e = FileExistsError
                       ∨ exn_cls e = NotADirectoryError))))
    ∧ (∀ peaks, r = Ok peaks →
         isdir dest_dir fs' = true
         ∧ ∃ content df,
             files fs' !! out_path = Some content
             ∧ read_csv E content = inr df ∧ ncols df = 6
             ∧ peaks = peak_row <$> rows df
             ∧ (files fs !! out_path = Some content ∧ downloads ev = []
                ∨ files fs !! out_path = None
                  ∧ downloads ev = [chexmix_file_url tf_name]
                  ∧ ∃ status_code reason,
                      requests_get E (chexmix_file_url tf_name)
                      = Response status_code reason content))).
Proof.
  intros out_path. unfold load_tf_chexmix_bed. wp.
  eapply ends_weaken; [apply os_makedirs_cases|]. cbn beta.
  intros r fsa eva (-> & Hfiles & Hgrow & [(e & -> & -> & Hcls)|[-> Hdir]]).
  { split; [done|]. split; [done|]. split; [|done]. intros _ _.
    split; [done|]. split; [done|]. exists e. split; [done|]. right. by repeat split. }
  wp. eapply ends_weaken; [apply download_tf_chexmix_bed_cases|]. cbn beta zeta.
  fold out_path. intros r fs1 ev1 Hcases.
  destruct Hcases as [(Hthere & -> & -> & ->)
                     |[(Hno & [e ->] & -> & Hdl & Hx)
                      |(Hno & -> & Hdl & Hx & st & reason & content & Hget & ->)]].
  - (* the path was there *)
    unfold pd_read_csv. wp. eapply ends_weaken; [apply read_file_cases|]. cbn beta.
    intros r fs2 ev2 (-> & -> & Hr).
    destruct (files fsa !! out_path) as [content|] eqn:Hfile.
    + subst r. wp.
      assert (isdir out_path fs = true → isfile out_path fs = false → False) as Hboth.
      { intros _ Hf%bool_decide_eq_false. apply Hf. rewrite <- Hfiles, Hfile. by eexists. }
      destruct (read_csv E content) as [e|df] eqn:Hparse; wp.
      { split; [done|]. split; [by intros; rewrite Hfiles|]. split; [|done].
        intros Hd Hf. by destruct (Hboth Hd Hf). }
      unfold set_columns6. case_bool_decide as Hcols; wp.
      2:{ split; [done|]. split; [by intros; rewrite Hfiles|]. split; [|done].
          intros Hd Hf. by destruct (Hboth Hd Hf). }
      split; [done|]. split; [by intros; rewrite Hfiles|].
      split; [intros Hd Hf; by destruct (Hboth Hd Hf)|].
      intros peaks [= <-]. split; [done|]. exists content, df.
      do 4 (split; [done|]). left. by rewrite <- Hfiles.
    + destruct Hr as (e & -> & Hcls).
      split; [done|]. split; [by intros; rewrite Hfiles|]. split; [|done].
      intros Hd _. split; [done|]. split; [done|]. exists e. split; [done|].
      left. apply Hgrow in Hd. by rewrite Hd in Hcls.
  - split; [done|]. split; [by intros; rewrite Hfiles|]. split; [|done].
    intros Hd _. apply Hgrow in Hd. by rewrite Hd, orb_true_r in Hno.
  - set (fs1 := {| files := <[ out_path := content ]> (files fsa); dirs := dirs fsa |}).
    assert (∀ p, p ≠ out_path → files fs1 !! p = files fs !! p) as Hother.
    { intros p Hp. unfold fs1. cbn [files].
      rewrite lookup_insert_ne by done. by rewrite Hfiles. }
    assert (isdir out_path fs = true → isfile out_path fs = false → False) as Hboth.
    { intros Hd%Hgrow _. by rewrite Hd, orb_true_r in Hno. }
    unfold pd_read_csv. wp. eapply ends_of_run.
    { apply read_file_run. unfold fs1. cbn [files]. apply lookup_insert_eq. }
    wp. destruct (read_csv E content) as [e|df] eqn:Hparse; wp.
    { rewrite !app_nil_r. split; [done|]. split; [done|]. split; [|done].
      intros Hd Hf. by destruct (Hboth Hd Hf). }
    unfold set_columns6. case_bool_decide as Hcols; wp.
    2:{ rewrite !app_nil_r. split; [done|]. split; [done|]. split; [|done].
        intros Hd Hf. by destruct (Hboth Hd Hf). }
    rewrite !app_nil_r. split; [done|]. split; [done|].
    split; [intros Hd Hf; by destruct (Hboth Hd Hf)|].
    intros peaks [= <-]. split; [done|]. exists content, df.
    split; [unfold fs1; cbn [files]; apply lookup_insert_eq|].
    do 3 (split; [done|]). right. split.
    + apply orb_false_iff in Hno as [Hno _]. apply bool_decide_eq_false in Hno.
      rewrite <- Hfiles. by apply eq_None_not_Some.
    + split; [done|]. by exists st, reason.
Qed.

(** X8.  What [load_tf_chexmix_bed] returns is what is on disk.  When it
    returns, the destination directory is there, the peak file is there,
    it parses to a table of six columns and the peaks returned are the rows
    of that table; no other file was touched; and the file is the one that
    was there before the call, or, if there was none, the body of the
    response to the one request. *)
Theorem load_tf_chexmix_bed_returns_the_file
  (tf_name dest_dir : string) (fs : FS) (peaks : list PeakRow) :
  let out_path := chexmix_out_path tf_name dest_dir in
  let run := load_tf_chexmix_bed E tf_name dest_dir fs in
  result run = Ok peaks →
  isdir dest_dir (state run) = true
  ∧ (∀ p, p ≠ out_path → files (state run) !! p = files fs !! p)
  ∧ extractions (events run) = []
  ∧ ∃ content df,
      files (state run) !! out_path = Some content
      ∧ read_csv E content = inr df
      ∧ ncols df = 6
      ∧ peaks = peak_row <$> rows df
      ∧ ((files fs !! out_path = Some content ∧ downloads (events run) = [])
         ∨ (files fs !! out_path = None
            ∧ downloads (events run) = [chexmix_file_url tf_name]
            ∧ ∃ status_code reason,
                requests_get E (chexmix_file_url tf_name)
                = Response status_code reason content)).
Proof.
  intros out_path run. subst run.
  pose proof (load_tf_chexmix_bed_ends tf_name dest_dir fs) as Hends.
  cbn zeta in Hends. fold out_path in Hends.
  destruct (load_tf_chexmix_bed E tf_name dest_dir fs) as [[r fs'] ev] eqn:Hrun.
  apply (ends_inv _ _ _ _ _ _ Hends) in Hrun as (Hx & Hother & _ & Hok).
  unfold result, state, events. cbn [fst snd]. intros ->.
  destruct (Hok peaks eq_refl) as [Hd Hfile]. by repeat split.
Qed.

(** X9.  A directory in the place of the peak file.  [os.path.exists] takes it
    for the download, so no request is sent, and the load can only fail:
    where the destination directory can be made, reading the path raises
    [IsADirectoryError]. *)
Theorem load_tf_chexmix_bed_path_is_directory
  (tf_name dest_dir : string) (fs : FS) :
  let out_path := chexmix_out_path tf_name dest_dir in
  let run := load_tf_chexmix_bed E tf_name dest_dir fs in
  isdir out_path fs = true →
  isfile out_path fs = false →
  downloads (events run) = []
  ∧ files (state run) = files fs
  ∧ ∃ e, result run = Raised e
         ∧ (exn_cls e = IsADirectoryError
            ∨ (state run = fs ∧ events run = []
               ∧ (exn_cls e = FileExistsError ∨ exn_cls e = NotADirectoryError))).
Proof.
  intros out_path run Hdir Hfile. subst run.
  pose proof (load_tf_chexmix_bed_ends tf_name dest_dir fs) as Hends.
  cbn zeta in Hends. fold out_path in Hends.
  destruct (load_tf_chexmix_bed E tf_name dest_dir fs) as [[r fs'] ev] eqn:Hrun.
  apply (ends_inv _ _ _ _ _ _ Hends) in Hrun as (_ & _ & Hd & _).
  unfold result, state, events. cbn [fst snd]. by apply Hd.
Qed.

End PeaksMore.


(** ** What [main] requests and extracts *)

Lemma string_app_inj_l (t s1 s2 : string) : t +:+ s1 = t +:+ s2 → s1 = s2.
Proof. induction t as [|c t IH]; [done|]. simpl. intros [= H]. by apply IH. Qed.

Lemma sample_url_inj (s1 s2 : string) : sample_url s1 = sample_url s2 → s1 = s2.
Proof.
  unfold sample_url. intros H%string_app_inj_l. by apply string_app_inj_r in H.
Qed.

Lemma chexmix_url_not_sample (tf_name sample : string) :
  chexmix_file_url tf_name = sample_url sample → False.
Proof.
  unfold chexmix_file_url, sample_url, chexmix_url, base_url. simpl. discriminate.
Qed.

Lemma downloads_Stdout line ev : downloads (Stdout line :: ev) = downloads ev.
Proof. reflexivity. Qed.
Lemma extractions_Stdout line ev : extractions (Stdout line :: ev) = extractions ev.
Proof. reflexivity. Qed.
Lemma downloads_nil : downloads [] = [].
Proof. reflexivity. Qed.
Lemma extractions_nil : extractions [] = [].
Proof. reflexivity. Qed.

Create Rewrite HintDb events.
#[global] Hint Rewrite downloads_Stdout extractions_Stdout downloads_nil extractions_nil
  downloads_app extractions_app @app_nil_r : events.

Lemma ends_and {A} (m : M A) (fs : FS) (Q1 Q2 : outcome A → FS → list event → Prop) :
  ends m fs Q1 → ends m fs Q2 → ends m fs (λ r fs' ev, Q1 r fs' ev ∧ Q2 r fs' ev).
Proof.
  intros H1 H2. destruct (m fs) as [[r fs'] ev] eqn:Hrun.
  eapply ends_of_run; [exact Hrun|]. split; by eapply ends_inv.
Qed.

Lemma grows_isfile_false fs fs' p :
  grows fs fs' → isfile p fs' = false → isfile p fs = false.
Proof.
  intros [Hf _] H. destruct (isfile p fs) eqn:Hp; [|done].
  apply Hf in Hp. congruence.
Qed.

Lemma grows_isdir_false fs fs' p :
  grows fs fs' → isdir p fs' = false → isdir p fs = false.
Proof.
  intros [_ Hd] H. destruct (isdir p fs) eqn:Hp; [|done].
  apply Hd in Hp. congruence.
Qed.

Section Requests.
Context (E : Env).

Lemma zip_extractall_target zip ep fs :
  ends (zip_extractall E zip ep) fs (λ r fs' ev,
    extractions ev = [] ∨ extractions ev = [(zip, ep)]).
Proof.
  eapply ends_weaken; [apply ends_zip_extractall|]. cbn beta.
  intros r fs' ev (_ & _ & _ & [[-> _]| ->]); [by left|by right].
Qed.

(** The one archive a call of the fetcher can extract. *)
Lemma download_and_extract_zip_target sample dest fs :
  ends (download_and_extract_zip E sample dest) fs (λ r fs' ev,
    extractions ev = []
    ∨ extractions ev = [(zip_path sample dest, path_join dest sample)]).
Proof.
  unfold download_and_extract_zip. wp.
  assert (ends
    (if negb (isfile (zip_path sample dest) fs)
     then
      print ("Downloading " +:+ sample_url sample +:+ " ...");;
      r <- http_get E (sample_url sample);;
      raise_for_status (sample_url sample) r.1.1 r.1.2;;
      write_file (zip_path sample dest) r.2
     else print (zip_path sample dest +:+ " already downloaded."))
    fs
    (λ r fs1 ev1, extractions ev1 = [])) as Hblock.
  { destruct (isfile (zip_path sample dest) fs) eqn:Hf; cbn [negb]; [by wp|].
    wp. apply ends_http_get.
    destruct (requests_get E (sample_url sample)) as [st reason content|e]; [|done].
    wp. apply ends_raise_for_status; [done|]. cbn [fst snd].
    by apply ends_write_file. }
  eapply ends_weaken; [exact Hblock|]. clear Hblock. cbn beta.
  intros [[]|e|] fs1 ev1 Hex; [|by left..].
  wp. destruct (isdir (path_join dest sample) fs1); cbn [negb]; wp.
  { left. by rewrite !extractions_app, Hex. }
  eapply ends_weaken; [apply zip_extractall_target|]. cbn beta.
  intros r fs2 ev2 Hev2.
  assert (extractions (ev1 ++ Stdout ("Extracting " +:+ zip_path sample dest
                                   +:+ " to " +:+ path_join dest sample) :: ev2)
          = extractions ev2) as Hx1.
  { by rewrite extractions_app, Hex. }
  destruct r as [[]|e|].
  - wp. rewrite app_nil_r. by rewrite Hx1.
  - by rewrite Hx1.
  - by rewrite Hx1.
Qed.

(** One turn of the loop of [main]: at most the request for the archive of
    its sample, sent only when the archive is not on disk, and at most the
    extraction of that archive, done only when its directory is not there;
    when the turn ends normally the archive is on disk. *)
Lemma replicate_body_ends chexmix_df row fs :
  let sample := cell_str (snd row) in
  ends (replicate_body E chexmix_df row) fs (λ r fs' ev,
    grows fs fs'
    ∧ downloads ev
      = (if isfile (zip_path sample data_dir) fs then [] else [sample_url sample])
    ∧ (extractions ev = []
       ∨ (extractions ev = [(zip_path sample data_dir, path_join data_dir sample)]
          ∧ isdir (path_join data_dir sample) fs = false))
    ∧ (∀ t, r = Ok t → isfile (zip_path sample data_dir) fs' = true)).
Proof.
  intros sample. unfold replicate_body. fold sample. wp.
  eapply ends_weaken.
  { apply ends_and; [apply download_and_extract_zip_ends
                    |apply download_and_extract_zip_target]. }
  cbn beta. intros r fs1 ev1 [(Hg & _ & Hdl & _ & Hskip & Hok) Htarget].
  assert (extractions ev1 = []
          ∨ extractions ev1 = [(zip_path sample data_dir, path_join data_dir sample)]
            ∧ isdir (path_join data_dir sample) fs = false) as Hx.
  { destruct Htarget as [?|Hone]; [by left|]. right. split; [done|].
    destruct (isdir (path_join data_dir sample) fs) eqn:Hd; [|done].
    rewrite (Hskip eq_refl) in Hone. done. }
  destruct r as [ep|e|]; [|done..].
  destruct (Hok ep eq_refl) as [-> Hzip]. wp.
  eapply ends_weaken; [apply load_all_motif_bed_files_ends|]. cbn beta.
  intros r fs2 ev2 (-> & _ & Hdl2 & Hx2 & _).
  destruct r as [[|kv dict]|e|].
  - wp. autorewrite with events. rewrite Hdl2, Hx2. by autorewrite with events.
  - wp. eapply ends_weaken; [apply merge_motif_with_chexmix_m_ends|]. cbn beta.
    intros r fs3 ev3 (-> & -> & Hd3 & Hx3). wp.
    autorewrite with events. rewrite Hdl2, Hx2, Hd3, Hx3. by autorewrite with events.
  - autorewrite with events. rewrite Hdl2, Hx2. by autorewrite with events.
  - autorewrite with events. rewrite Hdl2, Hx2. by autorewrite with events.
Qed.

(** The loop of [main]: every request is for the archive of a sample of the
    list whose archive was not on disk when the loop began, no URL is
    requested twice, and every extraction is of the archive of a sample of
    the list whose directory was not there when the loop began. *)
Lemma for_replicates_ends chexmix_df replicates acc fs :
  ends (for_replicates E chexmix_df replicates acc) fs (λ r fs' ev,
    grows fs fs'
    ∧ NoDup (downloads ev)
    ∧ length (downloads ev) ≤ length replicates
    ∧ length (extractions ev) ≤ length replicates
    ∧ (∀ url, url ∈ downloads ev →
         ∃ row, row ∈ replicates
                ∧ url = sample_url (cell_str (snd row))
                ∧ isfile (zip_path (cell_str (snd row)) data_dir) fs = false)
    ∧ (∀ x, x ∈ extractions ev →
         ∃ row, row ∈ replicates
                ∧ x = (zip_path (cell_str (snd row)) data_dir,
                       path_join data_dir (cell_str (snd row)))
                ∧ isdir (path_join data_dir (cell_str (snd row))) fs = false)).
Proof.
  revert acc fs. induction replicates as [|row l IH]; intros acc fs.
  { simpl. wp. split; [done|]. split; [constructor|]. do 2 (split; [done|]).
    split; by intros ? ?%elem_of_nil. }
  cbn [for_replicates]. wp.
  eapply ends_weaken; [apply replicate_body_ends|]. cbn beta zeta.
  set (sample := cell_str (snd row)).
  intros r fs1 ev1 (Hg & Hdl & Hx & Hok).
  assert (NoDup (downloads ev1)) as Hnd1.
  { rewrite Hdl. destruct (isfile _ fs); [constructor|apply NoDup_singleton]. }
  assert (length (downloads ev1) ≤ 1) as Hl1.
  { rewrite Hdl. destruct (isfile _ fs); simpl; lia. }
  assert (length (extractions ev1) ≤ 1) as Hlx1.
  { destruct Hx as [->|[-> _]]; simpl; lia. }
  assert (∀ url, url ∈ downloads ev1 →
            url = sample_url sample ∧ isfile (zip_path sample data_dir) fs = false)
    as Hurl1.
  { intros url. rewrite Hdl. destruct (isfile _ fs); [by intros ?%elem_of_nil|].
    by intros ->%list_elem_of_singleton. }
  assert (∀ x, x ∈ extractions ev1 →
            x = (zip_path sample data_dir, path_join data_dir sample)
            ∧ isdir (path_join data_dir sample) fs = false) as Hx1.
  { intros x. destruct Hx as [->|[-> Hd]]; [by intros ?%elem_of_nil|].
    by intros ->%list_elem_of_singleton. }
  assert (∀ ev2 fs2,
    grows fs1 fs2 → NoDup (downloads ev2)
    → length (downloads ev2) ≤ length l → length (extractions ev2) ≤ length l
    → (∀ url, url ∈ downloads ev2 →
         ∃ row, row ∈ l ∧ url = sample_url (cell_str (snd row))
                ∧ isfile (zip_path (cell_str (snd row)) data_dir) fs1 = false)
    → (∀ x, x ∈ extractions ev2 →
         ∃ row, row ∈ l
                ∧ x = (zip_path (cell_str (snd row)) data_dir,
                       path_join data_dir (cell_str (snd row)))
                ∧ isdir (path_join data_dir (cell_str (snd row))) fs1 = false)
    → isfile (zip_path sample data_dir) fs1 = true
    → grows fs fs2
      ∧ NoDup (downloads (ev1 ++ ev2))
      ∧ length (downloads (ev1 ++ ev2)) ≤ length (row :: l)
      ∧ length (extractions (ev1 ++ ev2)) ≤ length (row :: l)
      ∧ (∀ url, url ∈ downloads (ev1 ++ ev2) →
           ∃ row0, row0 ∈ row :: l ∧ url = sample_url (cell_str (snd row0))
                  ∧ isfile (zip_path (cell_str (snd row0)) data_dir) fs = false)
      ∧ (∀ x, x ∈ extractions (ev1 ++ ev2) →
           ∃ row0, row0 ∈ row :: l
                  ∧ x = (zip_path (cell_str (snd row0)) data_dir,
                         path_join data_dir (cell_str (snd row0)))
                  ∧ isdir (path_join data_dir (cell_str (snd row0))) fs = false))
    as Hstep.
  { intros ev2 fs2 Hg2 Hnd2 Hl2 Hlx2 Hurl2 Hx2 Hzip.
    rewrite downloads_app, extractions_app, !length_app. cbn [length].
    split; [by trans fs1|]. split; [|split; [lia|split; [lia|split]]].
    - apply NoDup_app. split; [done|]. split; [|done].
      intros url [-> _]%Hurl1 (row2 & _ & Heq & Hno)%Hurl2.
      apply sample_url_inj in Heq. fold sample in Hzip. rewrite <- Heq in Hno.
      congruence.
    - intros url [Hin|Hin]%elem_of_app.
      + destruct (Hurl1 url Hin) as [-> Hno]. exists row. split; [by left|done].
      + destruct (Hurl2 url Hin) as (row2 & Hrow2 & -> & Hno). exists row2.
        split; [by right|]. split; [done|]. by eapply grows_isfile_false.
    - intros x [Hin|Hin]%elem_of_app.
      + destruct (Hx1 x Hin) as [-> Hno]. exists row. split; [by left|done].
      + destruct (Hx2 x Hin) as (row2 & Hrow2 & -> & Hno). exists row2.
        split; [by right|]. split; [done|]. by eapply grows_isdir_false. }
  assert (grows fs fs1
      ∧ NoDup (downloads ev1)
      ∧ length (downloads ev1) ≤ length (row :: l)
      ∧ length (extractions ev1) ≤ length (row :: l)
      ∧ (∀ url, url ∈ downloads ev1 →
           ∃ row0, row0 ∈ row :: l ∧ url = sample_url (cell_str (snd row0))
                  ∧ isfile (zip_path (cell_str (snd row0)) data_dir) fs = false)
      ∧ (∀ x, x ∈ extractions ev1 →
           ∃ row0, row0 ∈ row :: l
                  ∧ x = (zip_path (cell_str (snd row0)) data_dir,
                         path_join data_dir (cell_str (snd row0)))
                  ∧ isdir (path_join data_dir (cell_str (snd row0))) fs = false))
    as Hstop.
  { split; [done|]. split; [done|]. cbn [length]. split; [lia|]. split; [lia|].
    split.
    - intros url [-> Hno]%Hurl1. exists row. split; [by left|done].
    - intros x [-> Hno]%Hx1. exists row. split; [by left|done]. }
  destruct r as [[t|]|e|]; [| |done..].
  - eapply ends_weaken; [apply IH|]. cbn beta.
    intros r fs2 ev2 (Hg2 & Hnd2 & Hl2 & Hlx2 & Hurl2 & Hx2).
    apply Hstep; try done. by eapply Hok.
  - eapply ends_weaken; [apply IH|]. cbn beta.
    intros r fs2 ev2 (Hg2 & Hnd2 & Hl2 & Hlx2 & Hurl2 & Hx2).
    apply Hstep; try done. by eapply Hok.
Qed.

End Requests.


Section MainRequests.
Context (E : Env).

Lemma load_tf_chexmix_bed_requests tf_name dest_dir fs :
  let out_path := chexmix_out_path tf_name dest_dir in
  ends (load_tf_chexmix_bed E tf_name dest_dir) fs (λ r fs' ev,
    grows fs fs' ∧ extractions ev = []
    ∧ (downloads ev = []
       ∨ (downloads ev = [chexmix_file_url tf_name]
          ∧ isfile out_path fs || isdir out_path fs = false))).
Proof.
  intros out_path. unfold load_tf_chexmix_bed. wp.
  eapply ends_weaken; [apply os_makedirs_cases|]. cbn beta.
  intros r fsa eva (-> & Hfiles & Hgrow & Hr).
  assert (isfile out_path fsa || isdir out_path fsa = false →
          isfile out_path fs || isdir out_path fs = false) as Hback.
  { intros [Hf Hd]%orb_false_iff. apply orb_false_iff.
    split; [by eapply grows_isfile_false|by eapply grows_isdir_false]. }
  destruct r as [[]|e|]; [|by split; [|split; [|left]]..].
  wp. eapply ends_weaken; [apply download_tf_chexmix_bed_cases|]. cbn beta zeta.
  fold out_path. intros r fs1 ev1 Hcases.
  assert (grows fs fs1 ∧ extractions ev1 = []
          ∧ (downloads ev1 = []
             ∨ downloads ev1 = [chexmix_file_url tf_name]
               ∧ isfile out_path fs || isdir out_path fs = false)) as (Hg & Hx & Hd).
  { destruct Hcases as [(Hthere & -> & -> & ->)
                       |[(Hno & _ & -> & Hdl & Hx)
                        |(Hno & -> & Hdl & Hx & st & reason & content & Hget & ->)]].
    - split; [done|]. split; [done|]. by left.
    - split; [done|]. split; [done|]. right. auto.
    - split; [trans fsa; [done|apply grows_write_file]|]. split; [done|]. right. auto. }
  destruct r as [p|e|]; [|done..].
  unfold pd_read_csv. wp. apply ends_read_file.
  { intros e _. by autorewrite with events. }
  intros c _. wp. destruct (read_csv E c) as [e|df]; wp.
  { by autorewrite with events. }
  unfold set_columns6. case_bool_decide; wp; by autorewrite with events.
Qed.

Lemma main_save_effects tf_name tables fs :
  ends (main_save tf_name tables) fs (λ r fs' ev,
    grows fs fs' ∧ downloads ev = [] ∧ extractions ev = []).
Proof.
  unfold main_save. destruct (aggregate tables); [|by wp].
  wp. apply ends_write_file; [done|]. wp. split; [apply grows_write_file|done].
Qed.

(** The requests and the extractions of a run of [main]. *)
Lemma main_effects tf_name fs :
  let replicates :=
    match result (get_replicates_for_tf E tf_name metadata_xlsx fs) with
    | Ok l => l
    | _ => []
    end in
  let out_path := chexmix_out_path tf_name data_dir in
  ends (main E tf_name) fs (λ r fs' ev,
    grows fs fs'
    ∧ (∀ e, result (get_replicates_for_tf E tf_name metadata_xlsx fs) = Raised e →
         r = Raised e ∧ fs' = fs ∧ ev = [])
    ∧ NoDup (downloads ev)
    ∧ length (downloads ev) ≤ 1 + length replicates
    ∧ length (extractions ev) ≤ length replicates
    ∧ (∀ url, url ∈ downloads ev →
         (url = chexmix_file_url tf_name
          ∧ isfile out_path fs || isdir out_path fs = false)
         ∨ ∃ row, row ∈ replicates
                  ∧ url = sample_url (cell_str (snd row))
                  ∧ isfile (zip_path (cell_str (snd row)) data_dir) fs = false)
    ∧ (∀ x, x ∈ extractions ev →
         ∃ row, row ∈ replicates
                ∧ x = (zip_path (cell_str (snd row)) data_dir,
                       path_join data_dir (cell_str (snd row)))
                ∧ isdir (path_join data_dir (cell_str (snd row))) fs = false)).
Proof.
  intros replicates out_path. subst replicates. unfold main, main_load.
  destruct (get_replicates_for_tf E tf_name metadata_xlsx fs) as [[r0 fs0] ev0] eqn:Hrep.
  pose proof Hrep as Hrep'.
  apply (ends_inv _ _ _ _ _ _ (get_replicates_for_tf_ends E _ _ _)) in Hrep' as [-> ->].
  unfold result. cbn [fst].
  wp. eapply ends_of_run; [exact Hrep|].
  destruct r0 as [replicates|e|].
  2,3: split; [done|]; split; [by intros ? [= <-]|]; split; [constructor|];
       split; [simpl; lia|]; split; [done|]; split; by intros ? ?%elem_of_nil.
  wp. eapply ends_weaken; [apply load_tf_chexmix_bed_requests|]. cbn beta zeta.
  fold out_path. intros r fs1 ev1 (Hg1 & Hx1 & Hd1).
  assert (NoDup (downloads ev1)) as Hnd1.
  { destruct Hd1 as [->|[-> _]]; [constructor|apply NoDup_singleton]. }
  assert (length (downloads ev1) ≤ 1) as Hl1.
  { destruct Hd1 as [->|[-> _]]; simpl; lia. }
  assert (∀ url, url ∈ downloads ev1 →
            url = chexmix_file_url tf_name
            ∧ isfile out_path fs || isdir out_path fs = false) as Hurl1.
  { intros url. destruct Hd1 as [->|[-> ?]]; [by intros ?%elem_of_nil|].
    by intros ->%list_elem_of_singleton. }
  destruct r as [chexmix_df|e|].
  2,3: autorewrite with events; rewrite Hx1;
       (split; [done|]); (split; [done|]); (split; [done|]); (split; [lia|]);
       (split; [simpl; lia|]);
       (split; [by intros url ?%Hurl1; left|by intros ? ?%elem_of_nil]).
  wp. cbn [fst snd]. eapply ends_weaken; [apply for_replicates_ends|]. cbn beta.
  intros r fs2 ev2 (Hg2 & Hnd2 & Hl2 & Hlx2 & Hurl2 & Hx2).
  assert (∀ ev3 fs3, grows fs2 fs3 → downloads ev3 = [] → extractions ev3 = [] →
    grows fs fs3
    ∧ NoDup (downloads
         (Stdout ("Found " +:+ pretty (length replicates) +:+ " replicates for TF "
                  +:+ tf_name +:+ ".") :: ev1 ++ ev2 ++ ev3))
    ∧ length (downloads
         (Stdout ("Found " +:+ pretty (length replicates) +:+ " replicates for TF "
                  +:+ tf_name +:+ ".") :: ev1 ++ ev2 ++ ev3))
      ≤ 1 + length replicates
    ∧ length (extractions
         (Stdout ("Found " +:+ pretty (length replicates) +:+ " replicates for TF "
                  +:+ tf_name +:+ ".") :: ev1 ++ ev2 ++ ev3))
      ≤ length replicates
    ∧ (∀ url, url ∈ downloads
         (Stdout ("Found " +:+ pretty (length replicates) +:+ " replicates for TF "
                  +:+ tf_name +:+ ".") :: ev1 ++ ev2 ++ ev3) →
         (url = chexmix_file_url tf_name
          ∧ isfile out_path fs || isdir out_path fs = false)
         ∨ ∃ row, row ∈ replicates
                  ∧ url = sample_url (cell_str (snd row))
                  ∧ isfile (zip_path (cell_str (snd row)) data_dir) fs = false)
    ∧ (∀ x, x ∈ extractions
         (Stdout ("Found " +:+ pretty (length replicates) +:+ " replicates for TF "
                  +:+ tf_name +:+ ".") :: ev1 ++ ev2 ++ ev3) →
         ∃ row, row ∈ replicates
                ∧ x = (zip_path (cell_str (snd row)) data_dir,
                       path_join data_dir (cell_str (snd row)))
                ∧ isdir (path_join data_dir (cell_str (snd row))) fs = false)) as Hall.
  { intros ev3 fs3 Hg3 Hd3 Hx3. autorewrite with events.
    rewrite Hd3, Hx3, Hx1. autorewrite with events. cbn [app].
    split; [by trans fs1; [|trans fs2]|].
    split; [|split; [rewrite length_app; lia|split; [done|split]]].
    - apply NoDup_app. split; [done|]. split; [|done].
      intros url [-> _]%Hurl1 (row & _ & Heq & _)%Hurl2.
      by apply chexmix_url_not_sample in Heq.
    - intros url [Hin|Hin]%elem_of_app; [left; by apply Hurl1|right].
      destruct (Hurl2 url Hin) as (row & Hrow & -> & Hno). exists row.
      split; [done|]. split; [done|]. by eapply grows_isfile_false.
    - intros x Hin. destruct (Hx2 x Hin) as (row & Hrow & -> & Hno). exists row.
      split; [done|]. split; [done|]. by eapply grows_isdir_false. }
  destruct r as [tables|e|].
  - eapply ends_weaken; [apply main_save_effects|]. cbn beta.
    intros r fs3 ev3 (Hg3 & Hd3 & Hx3). rewrite (app_nil_r ev1).
    destruct (Hall ev3 fs3) as [Hg Hrest]; [done..|].
    split; [done|]. split; [by intros ? [=]|]. exact Hrest.
  - specialize (Hall [] fs2). rewrite !app_nil_r in Hall. rewrite (app_nil_r ev1).
    destruct Hall as [Hg Hrest]; [done..|].
    split; [done|]. split; [by intros ? [=]|]. exact Hrest.
  - specialize (Hall [] fs2). rewrite !app_nil_r in Hall. rewrite (app_nil_r ev1).
    destruct Hall as [Hg Hrest]; [done..|].
    split; [done|]. split; [by intros ? [=]|]. exact Hrest.
Qed.


(** X20.  [main] requests no URL twice, and at most one URL more than there are
    replicates: the peak file and one archive for a replicate.  When the
    metadata cannot be read it requests nothing. *)
Theorem main_requests_each_url_once (tf_name : string) (fs : FS) :
  NoDup (downloads (events (main E tf_name fs)))
  ∧ (∀ replicates,
       result (get_replicates_for_tf E tf_name metadata_xlsx fs) = Ok replicates →
       length (downloads (events (main E tf_name fs))) ≤ 1 + length replicates)
  ∧ (∀ e,
       result (get_replicates_for_tf E tf_name metadata_xlsx fs) = Raised e →
       downloads (events (main E tf_name fs)) = []).
Proof.
  pose proof (main_effects tf_name fs) as Hends. cbn zeta in Hends.
  destruct (main E tf_name fs) as [[r fs'] ev] eqn:Hrun.
  apply (ends_inv _ _ _ _ _ _ Hends) in Hrun as (_ & Hraised & Hnd & Hlen & _).
  unfold events. cbn [snd]. split; [done|]. split.
  - intros replicates Hrep. by rewrite Hrep in Hlen.
  - intros e Hrep. by destruct (Hraised e Hrep) as (_ & _ & ->).
Qed.


End MainRequests.


(** ** Whitespace and case in names *)

Lemma string_app_assoc (a b c : string) : (a +:+ b) +:+ c = a +:+ (b +:+ c).
Proof. induction a as [|x a IH]; [done|]. rewrite !string_app_cons. by rewrite IH. Qed.

Lemma string_app_nil_r (s : string) : s +:+ "" = s.
Proof. induction s as [|c s IH]; [done|]. rewrite string_app_cons. by rewrite IH. Qed.

Lemma rev_app_append (s acc : string) :
  String.rev_app s acc = String.rev s +:+ acc.
Proof.
  unfold String.rev. revert acc. induction s as [|c s IH]; intros acc; [done|].
  simpl. rewrite IH, (IH (String c "")), string_app_assoc. done.
Qed.

Lemma rev_app_involutive (s a b : string) :
  String.rev_app (String.rev_app s a) b = String.rev_app a (s +:+ b).
Proof.
  revert a b. induction s as [|c s IH]; intros a b; [done|]. simpl. by rewrite IH.
Qed.

Lemma rev_involutive (s : string) : String.rev (String.rev s) = s.
Proof. unfold String.rev. rewrite rev_app_involutive. simpl. apply string_app_nil_r. Qed.

Lemma rev_append (a b : string) :
  String.rev (a +:+ b) = String.rev b +:+ String.rev a.
Proof.
  revert b. induction a as [|c a IH]; intros b.
  - change ("" +:+ b) with b. change (String.rev "") with "".
    by rewrite string_app_nil_r.
  - rewrite string_app_cons. unfold String.rev at 1 3. simpl.
    rewrite !rev_app_append, IH. by rewrite string_app_assoc.
Qed.

Lemma is_space_lower_char (c : ascii) : is_space (lower_char c) = is_space c.
Proof. by destruct c as [[] [] [] [] [] [] [] []]. Qed.

Lemma head_ok_lstrip (s : string) : head_ok (lstrip s).
Proof.
  induction s as [|c s IH]; [done|]. simpl. by destruct (is_space c) eqn:Hc.
Qed.

Lemma lstrip_head_ok (s : string) : lstrip s = s ↔ head_ok s.
Proof.
  destruct s as [|c s]; [done|]. simpl. destruct (is_space c) eqn:Hc; [|done].
  split; [|done]. intros Heq. exfalso.
  assert (∀ t, String.length (lstrip t) ≤ String.length t) as Hlen.
  { induction t as [|c' t IH]; [done|]. simpl. destruct (is_space c'); simpl; lia. }
  specialize (Hlen s). rewrite Heq in Hlen. simpl in Hlen. lia.
Qed.

Lemma lstrip_suffix (s : string) : ∃ pre, s = pre +:+ lstrip s.
Proof.
  induction s as [|c s [pre IH]]; [by exists ""|]. simpl.
  destruct (is_space c); [|by exists ""]. exists (String c pre).
  rewrite string_app_cons. by rewrite <- IH.
Qed.

Lemma head_ok_app (a b : string) : head_ok (a +:+ b) → a ≠ "" → head_ok a.
Proof. by destruct a. Qed.

Lemma head_ok_app_iff (a b : string) : a ≠ "" → head_ok (a +:+ b) ↔ head_ok a.
Proof. by destruct a. Qed.

Lemma is_space_kelvin (c0 c1 c2 : ascii) :
  is_kelvin_sign c0 c1 c2 = true → is_space c0 = false ∧ is_space c2 = false.
Proof.
  unfold is_kelvin_sign, is_space.
  intros [[H0%Nat.eqb_eq _]%andb_true_iff H2%Nat.eqb_eq]%andb_true_iff.
  by rewrite H0, H2.
Qed.

Lemma lower_eq_nil (s : string) : lower s = "" → s = "".
Proof.
  destruct s as [|c [|c1 [|c2 s]]]; try done.
  change (lower (String c (String c1 (String c2 s))))
    with (if is_kelvin_sign c c1 c2 then String "k" (lower s)
          else String (lower_char c) (lower (String c1 (String c2 s)))).
  by destruct (is_kelvin_sign c c1 c2).
Qed.

(** [lower] keeps whitespace at the two ends, and puts none there. *)
Lemma head_ok_lower (s : string) : head_ok (lower s) ↔ head_ok s.
Proof.
  destruct s as [|c [|c1 [|c2 s]]]; [done| | |].
  - cbn [lower head_ok]. by rewrite is_space_lower_char.
  - cbn [lower head_ok]. by rewrite is_space_lower_char.
  - change (lower (String c (String c1 (String c2 s))))
      with (if is_kelvin_sign c c1 c2 then String "k" (lower s)
            else String (lower_char c) (lower (String c1 (String c2 s)))).
    destruct (is_kelvin_sign c c1 c2) eqn:Hk.
    + apply is_space_kelvin in Hk as [H0 _]. cbn [head_ok]. by rewrite H0.
    + cbn [head_ok]. by rewrite is_space_lower_char.
Qed.

Lemma last_ok_cons (c : ascii) (s : string) :
  s ≠ "" → last_ok (String c s) ↔ last_ok s.
Proof. by destruct s. Qed.

Lemma last_ok_lower (s : string) : last_ok (lower s) ↔ last_ok s.
Proof.
  remember (String.length s) as n eqn:Hn. revert s Hn.
  induction n as [n IH] using lt_wf_ind. intros s Hn.
  destruct s as [|c [|c1 [|c2 s]]]; [done| | |].
  - cbn [lower last_ok]. by rewrite is_space_lower_char.
  - assert (lower (String c (String c1 "")) = String (lower_char c) (lower (String c1 "")))
      as -> by done.
    rewrite (last_ok_cons (lower_char c)) by (by intros ?%lower_eq_nil).
    rewrite (last_ok_cons c) by done. apply (IH 1); [simpl in Hn; lia|done].
  - change (lower (String c (String c1 (String c2 s))))
      with (if is_kelvin_sign c c1 c2 then String "k" (lower s)
            else String (lower_char c) (lower (String c1 (String c2 s)))).
    destruct (is_kelvin_sign c c1 c2) eqn:Hk.
    + apply is_space_kelvin in Hk as [_ H2].
      rewrite (last_ok_cons c), (last_ok_cons c1) by done.
      destruct s as [|c3 s]; [by cbn [lower last_ok]|].
      rewrite (last_ok_cons "k") by (by intros ?%lower_eq_nil).
      rewrite (last_ok_cons c2) by done.
      apply (IH (String.length (String c3 s))); [simpl in Hn |- *; lia|done].
    + rewrite (last_ok_cons (lower_char c)) by (by intros ?%lower_eq_nil).
      rewrite (last_ok_cons c) by done.
      apply (IH (String.length (String c1 (String c2 s)))); [simpl in Hn |- *; lia|done].
Qed.

Lemma rev_eq_nil (s : string) : String.rev s = "" → s = "".
Proof. intros H. rewrite <- (rev_involutive s), H. done. Qed.

Lemma head_ok_rev_lstrip (s : string) :
  head_ok (String.rev s) → head_ok (String.rev (lstrip s)).
Proof.
  destruct (lstrip_suffix s) as [pre Hs]. rewrite Hs at 1. rewrite rev_append.
  intros H. destruct (decide (String.rev (lstrip s) = "")) as [->|Hne]; [done|].
  by eapply head_ok_app.
Qed.

Lemma strip_fixed (s : string) :
  strip s = s ↔ head_ok s ∧ head_ok (String.rev s).
Proof.
  unfold strip, rstrip. split.
  - intros Heq. rewrite <- Heq at 1 2. rewrite rev_involutive. split.
    + apply head_ok_rev_lstrip. rewrite rev_involutive. apply head_ok_lstrip.
    + apply head_ok_lstrip.
  - intros [H1 H2]. apply lstrip_head_ok in H1, H2. by rewrite H1, H2, rev_involutive.
Qed.

Lemma strip_idemp (s : string) : strip (strip s) = strip s.
Proof.
  apply strip_fixed. unfold strip, rstrip. rewrite rev_involutive. split.
  - apply head_ok_rev_lstrip. rewrite rev_involutive. apply head_ok_lstrip.
  - apply head_ok_lstrip.
Qed.

Lemma head_ok_rev (s : string) : head_ok (String.rev s) ↔ last_ok s.
Proof.
  induction s as [|c s IH]; [done|].
  change (String c s) with (String c "" +:+ s) at 1. rewrite rev_append.
  change (String.rev (String c "")) with (String c "").
  destruct s as [|c1 s]; [done|].
  rewrite head_ok_app_iff by (by intros ?%rev_eq_nil). rewrite IH.
  symmetry. by apply last_ok_cons.
Qed.

(** A name that equals, lower-cased, a trimmed name lower-cased is itself
    trimmed. *)
Lemma lower_strip_trimmed (s tf_name : string) :
  lower (strip s) = lower tf_name → strip tf_name = tf_name.
Proof.
  intros Heq. pose proof (strip_idemp s) as [H1 H2]%strip_fixed.
  apply strip_fixed. split.
  - apply head_ok_lower. rewrite <- Heq. by apply head_ok_lower.
  - apply head_ok_rev, last_ok_lower. rewrite <- Heq.
    by apply last_ok_lower, head_ok_rev.
Qed.

Lemma tf_mask_lower (a b : string) (r : MetaRow) :
  lower a = lower b → tf_mask a r = tf_mask b r.
Proof. intros H. unfold tf_mask. by rewrite H. Qed.

Lemma replicates_of_sheet_lower (a b : string) (df : list MetaRow) :
  lower a = lower b → replicates_of_sheet a df = replicates_of_sheet b df.
Proof.
  intros H. unfold replicates_of_sheet. do 2 f_equal.
  induction df as [|r df IH]; [done|]. cbn [List.filter].
  by rewrite (tf_mask_lower a b r H), IH.
Qed.






(** ** The metadata reader *)

Section Reader.
Context (E : Env).


(** X2.  A requested name that begins or ends with whitespace matches no row:
    the names of the sheet are trimmed before the comparison and the
    requested name is not, so [get_replicates_for_tf] returns, when it
    returns, no replicate at all. *)
Theorem get_replicates_for_tf_padded_request
  (tf_name metadata_file : string) (fs : FS) (replicates : list (cell * cell)) :
  strip tf_name ≠ tf_name →
  result (get_replicates_for_tf E tf_name metadata_file fs) = Ok replicates →
  replicates = [].
Proof.
  intros Hpad.
  assert (∀ df, replicates_of_sheet tf_name df = []) as Hnone.
  { intros df. apply replicates_of_sheet_no_match. intros r _. unfold tf_mask.
    destruct (tf_common_name r) as [s|]; [|done]. apply bool_decide_eq_false.
    intros Heq. by apply Hpad, (lower_strip_trimmed s). }
  unfold get_replicates_for_tf, result.
  destruct (pd_read_excel E metadata_file sheet_name fs) as [[[df|e|] fs1] ev1] eqn:Hread.
  - rewrite (bind_Ok _ _ _ _ _ _ Hread). unfold ret, prepend. cbn [fst snd].
    intros [= <-]. apply Hnone.
  - by rewrite (bind_Raised _ _ _ _ _ _ Hread).
  - unfold bind. by rewrite Hread.
Qed.

End Reader.
(** ** [main], from the metadata to the output file *)

Lemma bind_assoc {A B C} (m : M A) (k : A → M B) (k' : B → M C) (fs : FS) :
  bind (bind m k) k' fs = bind m (λ x, bind (k x) k') fs.
Proof.
  unfold bind. destruct (m fs) as [[[a|e|] fs1] ev1]; [|done..].
  destruct (k a fs1) as [[[b|e|] fs2] ev2]; unfold prepend; cbn [fst snd]; [|done..].
  destruct (k' b fs2) as [[r fs3] ev3]. cbn [fst snd]. by rewrite (assoc_L (++)).
Qed.

Lemma bind_ext {A B} (m : M A) (k1 k2 : A → M B) (fs : FS) :
  (∀ a fs', k1 a fs' = k2 a fs') → bind m k1 fs = bind m k2 fs.
Proof.
  intros H. unfold bind. destruct (m fs) as [[[a|e|] fs1] ev1]; [|done..].
  by rewrite H.
Qed.

Lemma write_file_fails p c fs :
  negb (isdir p fs) && (bool_decide (dirname p = "") || isdir (dirname p) fs) = false →
  ∃ e, write_file p c fs = (Raised e, fs, [])
       ∧ (exn_cls e = IsADirectoryError ∨ exn_cls e = FileNotFoundError).
Proof.
  intros H. unfold write_file. erewrite bind_Ok by reflexivity.
  destruct (isdir p fs); [eexists; split; [reflexivity|by left]|].
  cbn [negb andb] in H. rewrite H. eexists; split; [reflexivity|by right].
Qed.

Section MainMore.
Context (E : Env).

Lemma main_unfold tf_name fs :
  main E tf_name fs
  = match result (get_replicates_for_tf E tf_name metadata_xlsx fs) with
    | Ok replicates =>
        prepend [Stdout ("Found " +:+ pretty (length replicates) +:+
                         " replicates for TF " +:+ tf_name +:+ ".")]
          (main_rest E tf_name replicates fs)
    | Raised e => (Raised e, fs, [])
    | Diverges => (Diverges, fs, [])
    end.
Proof.
  unfold main, main_load, main_rest. rewrite !bind_assoc.
  destruct (get_replicates_for_tf E tf_name metadata_xlsx fs) as [[r fs0] ev0] eqn:Hrep.
  pose proof Hrep as Hrep'.
  apply (ends_inv _ _ _ _ _ _ (get_replicates_for_tf_ends E _ _ _)) in Hrep' as [-> ->].
  unfold result. cbn [fst]. destruct r as [replicates|e|].
  - rewrite (bind_Ok _ _ _ _ _ _ Hrep). unfold prepend at 1. cbn [app].
    rewrite bind_assoc. erewrite (bind_Ok (print _)) by reflexivity.
    rewrite bind_assoc. by f_equal.
  - by rewrite (bind_Raised _ _ _ _ _ _ Hrep).
  - unfold bind. by rewrite Hrep.
Qed.

Lemma load_tf_chexmix_bed_lower a b dest_dir :
  isascii a = true → isascii b = true → lower a = lower b →
  load_tf_chexmix_bed E a dest_dir = load_tf_chexmix_bed E b dest_dir.
Proof.
  intros Ha Hb H. unfold load_tf_chexmix_bed, download_tf_chexmix_bed, chexmix_file_url,
    chexmix_out_path, chexmix_filename.
  by rewrite (capitalize_eq_of_lower a b Ha Hb H).
Qed.

Lemma main_rest_lower a b replicates :
  isascii a = true → isascii b = true → lower a = lower b →
  main_rest E a replicates = main_rest E b replicates.
Proof.
  intros Ha Hb H. unfold main_rest, main_save, output_bed_file.
  by rewrite (load_tf_chexmix_bed_lower a b data_dir Ha Hb H), H.
Qed.

Lemma get_replicates_for_tf_lower a b metadata_file fs :
  lower a = lower b →
  get_replicates_for_tf E a metadata_file fs = get_replicates_for_tf E b metadata_file fs.
Proof.
  intros H. unfold get_replicates_for_tf. apply bind_ext. intros df fs'.
  by rewrite (replicates_of_sheet_lower a b df H).
Qed.

(** X18.  [main] does not look at the case of the name it is given, for
    names of ASCII characters.  For two such names that are equal once
    lower-cased, from the same file system, [main] ends in the same way and
    leaves the same file system, the same output file included; it sends
    the same requests, extracts the same archives and prints the same lines,
    but for the line "Found n replicates for TF", which quotes the name as
    given. *)
Theorem main_ignores_case (a b : string) (fs : FS) :
  isascii a = true → isascii b = true →
  lower a = lower b →
  result (main E a fs) = result (main E b fs)
  ∧ state (main E a fs) = state (main E b fs)
  ∧ output_bed_file a = output_bed_file b
  ∧ ((events (main E a fs) = [] ∧ events (main E b fs) = [])
     ∨ ∃ (n : nat) rest,
         events (main E a fs)
         = Stdout ("Found " +:+ pretty n +:+ " replicates for TF " +:+ a +:+ ".")
           :: rest
         ∧ events (main E b fs)
           = Stdout ("Found " +:+ pretty n +:+ " replicates for TF " +:+ b +:+ ".")
             :: rest).
Proof.
  intros Ha Hb H. rewrite !main_unfold.
  rewrite (get_replicates_for_tf_lower a b _ fs H).
  destruct (result (get_replicates_for_tf E b metadata_xlsx fs)) as [replicates|e|].
  - rewrite (main_rest_lower a b replicates Ha Hb H).
    unfold result, state, events, prepend. cbn [fst snd app].
    do 2 (split; [done|]). split; [unfold output_bed_file; by rewrite H|].
    right. by eexists _, _.
  - do 2 (split; [done|]). split; [unfold output_bed_file; by rewrite H|]. by left.
  - do 2 (split; [done|]). split; [unfold output_bed_file; by rewrite H|]. by left.
Qed.

(** X17.  A factor without replicates still costs the load of its peaks.  When
    the metadata gives no replicate for the name, [main] goes on to fetch
    and parse the peak file all the same; then it prints that there are no
    results and returns, or raises what the load raised.  The file system is
    the one the load left. *)
Theorem main_without_replicates (tf_name : string) (fs : FS) :
  result (get_replicates_for_tf E tf_name metadata_xlsx fs) = Ok [] →
  let load := load_tf_chexmix_bed E tf_name data_dir fs in
  let run := main E tf_name fs in
  state run = state load
  ∧ downloads (events run) = downloads (events load)
  ∧ extractions (events run) = []
  ∧ match result load with
    | Ok _ =>
        result run = Ok tt
        ∧ events run
          = Stdout ("Found 0 replicates for TF " +:+ tf_name +:+ ".")
            :: events load ++ [Stdout "No results found for any replicates."]
    | Raised e =>
        result run = Raised e
        ∧ events run
          = Stdout ("Found 0 replicates for TF " +:+ tf_name +:+ ".") :: events load
    | Diverges => False
    end.
Proof.
  intros Hrep load run. subst run load. rewrite main_unfold, Hrep.
  unfold main_rest.
  pose proof (terminates_load_tf_chexmix_bed E tf_name data_dir fs) as Hterm.
  pose proof (load_tf_chexmix_bed_requests E tf_name data_dir fs) as Hload.
  cbn zeta in Hload.
  destruct (load_tf_chexmix_bed E tf_name data_dir fs) as [[r fs1] ev1] eqn:Hrun.
  pose proof Hrun as Hrun'.
  apply (ends_inv _ _ _ _ _ _ Hload) in Hrun' as (_ & Hx & _).
  unfold result in Hterm. cbn [fst] in Hterm.
  destruct r as [chexmix_df|e|]; [| |done].
  - erewrite bind_Ok by eassumption.
    unfold result, state, events, prepend, for_replicates, main_save, aggregate,
      bind, ret, print, emit. cbn [fst snd app].
    autorewrite with events. rewrite Hx. by repeat split.
  - erewrite bind_Raised by eassumption.
    unfold result, state, events, prepend. cbn [fst snd app].
    autorewrite with events. rewrite Hx. by repeat split.
Qed.

(** X16.  The peaks come first.  When the load of the peak file fails, [main]
    raises what the load raised, with the file system the load left: no
    archive of a sample was requested or extracted, and no file but the
    peak file can have been written. *)
Theorem main_stops_when_the_peak_load_fails
  (tf_name : string) (fs : FS) (replicates : list (cell * cell)) (e : exn) :
  result (get_replicates_for_tf E tf_name metadata_xlsx fs) = Ok replicates →
  result (load_tf_chexmix_bed E tf_name data_dir fs) = Raised e →
  let load := load_tf_chexmix_bed E tf_name data_dir fs in
  let run := main E tf_name fs in
  result run = Raised e
  ∧ state run = state load
  ∧ events run
    = Stdout ("Found " +:+ pretty (length replicates) +:+ " replicates for TF "
              +:+ tf_name +:+ ".") :: events load
  ∧ extractions (events run) = []
  ∧ (∀ url, url ∈ downloads (events run) → url = chexmix_file_url tf_name)
  ∧ (∀ p, p ≠ chexmix_out_path tf_name data_dir →
       files (state run) !! p = files fs !! p).
Proof.
  intros Hrep Hfail load run. subst run load. rewrite main_unfold, Hrep.
  unfold main_rest.
  pose proof (load_tf_chexmix_bed_requests E tf_name data_dir fs) as Hreq.
  pose proof (load_tf_chexmix_bed_ends E tf_name data_dir fs) as Hload.
  cbn zeta in Hreq, Hload.
  destruct (load_tf_chexmix_bed E tf_name data_dir fs) as [[r fs1] ev1] eqn:Hrun.
  unfold result in Hfail. cbn [fst] in Hfail. subst r.
  pose proof Hrun as Hrun'.
  apply (ends_inv _ _ _ _ _ _ Hreq) in Hrun' as (_ & Hx & Hd).
  pose proof Hrun as Hrun''.
  apply (ends_inv _ _ _ _ _ _ Hload) in Hrun'' as (_ & Hother & _).
  erewrite bind_Raised by eassumption.
  unfold result, state, events, prepend. cbn [fst snd app].
  autorewrite with events. rewrite Hx. do 4 (split; [done|]). split; [|done].
  intros url. destruct Hd as [->|[-> _]]; [by intros ?%elem_of_nil|].
  by intros ->%list_elem_of_singleton.
Qed.

(** X10.  A sample without motif files is passed over.  When the archive of a
    sample is fetched and the file of its motif 1 is not there, the turn of
    the loop prints that the sample is skipped, adds no table, and the loop
    goes on with the replicates that follow, from the file system the fetch
    left. *)
Theorem for_replicates_passes_over_sample_without_motifs
  (chexmix_df : list PeakRow) (row : cell * cell) (rest : list (cell * cell))
  (acc : list (list AggRow)) (fs : FS) (ep : string) (fs1 : FS) (ev1 : list event) :
  let sample := cell_str (snd row) in
  download_and_extract_zip E sample data_dir fs = (Ok ep, fs1, ev1) →
  isfile (motif_file_path ep sample 1) fs1 = false →
  for_replicates E chexmix_df (row :: rest) acc fs
  = prepend
      (Stdout ("Processing replicate: " +:+ cell_str (fst row) +:+
               " Sample ID: " +:+ sample)
       :: ev1
       ++ [Stdout ("No motif files found for sample " +:+ sample +:+ ", skipping.")])
      (for_replicates E chexmix_df rest acc fs1).
Proof.
  intros sample Hfetch Hnone.
  assert (load_all_motif_bed_files E ep sample fs1 = (Ok [], fs1, [])) as Hload.
  { destruct (load_all_motif_bed_files E ep sample fs1) as [[r fs2] ev2] eqn:Hrun.
    apply (ends_inv _ _ _ _ _ _ (load_all_motif_bed_files_ends E ep sample fs1)) in Hrun
      as (-> & _ & _ & _ & Hempty & _).
    by destruct (Hempty Hnone) as [-> ->]. }
  cbn [for_replicates].
  rewrite (bind_Ok _ _ _ _ _ _
             (replicate_body_skips E chexmix_df row fs ep fs1 ev1 fs1 [] Hfetch Hload)).
  by fold sample.
Qed.

(** X15.  The output file is written last.  When the loop of [main] ends
    with tables, [main] writes the output file of the factor, replacing what
    was there, and touches nothing else; the text written begins with the
    line of the eight column names.  When the file cannot be written (a
    directory is in its place, or its directory is missing) [main] raises
    after all the work, and nothing is saved: the file system is the one the
    loop left. *)
Theorem main_writes_the_output_file_last
  (tf_name : string) (fs : FS)
  (replicates : list (cell * cell)) (chexmix_df : list PeakRow)
  (fs0 : FS) (ev0 : list event)
  (tables : list (list AggRow)) (fs1 : FS) (ev1 : list event) :
  main_load E tf_name fs = (Ok (replicates, chexmix_df), fs0, ev0) →
  for_replicates E chexmix_df replicates [] fs0 = (Ok tables, fs1, ev1) →
  tables ≠ [] →
  let path := output_bed_file tf_name in
  let saving := Stdout ("Saving final results to " +:+ path) in
  let writable :=
    negb (isdir path fs1)
    && (bool_decide (dirname path = "") || isdir (dirname path) fs1) in
  (writable = true →
     ∃ body,
       main E tf_name fs
       = (Ok tt,
          {| files := <[ path := join_with tab final_columns +:+ newline +:+ body ]>
                        (files fs1);
             dirs := dirs fs1 |},
          ev0 ++ ev1 ++ [saving; Stdout "Pipeline finished."]))
  ∧ (writable = false →
       ∃ e, main E tf_name fs = (Raised e, fs1, ev0 ++ ev1 ++ [saving])).
Proof.
  intros Hload Hloop Htables path saving writable. subst writable.
  unfold main. rewrite (bind_Ok _ _ _ _ _ _ Hload). cbn [fst snd].
  rewrite (bind_Ok _ _ _ _ _ _ Hloop). unfold main_save.
  destruct (aggregate tables) as [out|] eqn:Hagg; [|by destruct tables].
  fold path. erewrite (bind_Ok (print _)) by reflexivity.
  split; intros Hw.
  - apply andb_true_iff in Hw as [Hd%negb_true_iff Hup].
    rewrite (bind_Ok _ _ _ _ _ _ (write_file_run path _ fs1 Hd Hup)).
    eexists. unfold prepend, print, emit, to_csv_text. cbn [fst snd app]. reflexivity.
  - destruct (write_file_fails path (to_csv_text out) fs1 Hw) as (e & Hfail & Hcls).
    exists e. rewrite (bind_Raised _ _ _ _ _ _ Hfail). unfold prepend. by cbn [fst snd app].
Qed.

(** X23.  The script as a whole fails only before it has done anything.  It
    always ends; and when it raises, no line was printed, no request was
    sent and no file was written: either the output directory could not be
    made or the metadata could not be read.  Once the metadata is read,
    nothing makes the script fail. *)
Theorem script_fails_only_at_the_start (fs : FS) :
  let run := script E fs in
  (result run = Diverges → False)
  ∧ (∀ e, result run = Raised e →
       events run = [] ∧ files (state run) = files fs
       ∧ (result (os_makedirs output_dir fs) = Raised e
          ∨ (result (os_makedirs output_dir fs) = Ok tt
             ∧ result (pd_read_excel E metadata_xlsx sheet_name
                         (state (os_makedirs output_dir fs))) = Raised e)))
  ∧ (∀ content df,
       result (os_makedirs output_dir fs) = Ok tt →
       files fs !! metadata_xlsx = Some content →
       read_excel E content sheet_name = inr df →
       result run = Ok tt).
Proof.
  intros run. subst run. unfold script, run_all_tfs.
  pose proof (os_makedirs_cases output_dir fs) as Hmk.
  unfold state at 2.
  destruct (os_makedirs output_dir fs) as [[r0 fs0] ev0] eqn:Hmake. cbn [fst snd].
  apply (ends_inv _ _ _ _ _ _ Hmk) in Hmake as Hmk'.
  destruct Hmk' as (-> & Hfiles & _ & [(e0 & -> & -> & _)|[-> _]]).
  { rewrite (bind_Raised _ _ _ _ _ _ Hmake). unfold result, state, events. cbn [fst snd].
    split; [done|]. split; [|done]. intros e [= <-]. by repeat split; [left]. }
  rewrite (bind_Ok _ _ _ _ _ _ Hmake). unfold prepend. cbn [app].
  assert (ends (pd_read_excel E metadata_xlsx sheet_name) fs0 (λ r fs' ev,
            fs' = fs0 ∧ ev = []
            ∧ ∀ content df, files fs0 !! metadata_xlsx = Some content →
                read_excel E content sheet_name = inr df → r = Ok df)) as Hread.
  { unfold pd_read_excel. wp. eapply ends_weaken; [apply read_file_cases|]. cbn beta.
    intros r fs' ev (-> & -> & Hr).
    destruct (files fs0 !! metadata_xlsx) as [content|] eqn:Hfile.
    - subst r. wp. destruct (read_excel E content sheet_name) as [e|df] eqn:Hx; wp.
      + do 2 (split; [done|]). intros c d [= <-]. congruence.
      + do 2 (split; [done|]). intros c d [= <-]. congruence.
    - destruct Hr as (e & -> & _). by repeat split. }
  destruct (pd_read_excel E metadata_xlsx sheet_name fs0) as [[r1 fs1] ev1] eqn:Hexcel.
  apply (ends_inv _ _ _ _ _ _ Hread) in Hexcel as Hr. destruct Hr as (-> & -> & Hok).
  destruct r1 as [df|e|].
  - rewrite (bind_Ok _ _ _ _ _ _ Hexcel). pose proof (for_tfs_Ok E (unique_tfs df) fs0) as Hfor.
    destruct (for_tfs E (unique_tfs df) fs0) as [[r2 fs2] ev2]. cbn [fst snd] in *.
    subst r2. unfold result. cbn [fst]. by repeat split.
  - rewrite (bind_Raised _ _ _ _ _ _ Hexcel). unfold result, state, events. cbn [fst snd].
    split; [done|]. split.
    + intros e' [= <-]. do 2 (split; [done|]). right. by split.
    + intros content df _ Hfile Hx. rewrite <- Hfiles in Hfile.
      by specialize (Hok content df Hfile Hx).
  - unfold bind. rewrite Hexcel. unfold result, state, events. cbn [fst snd].
    exfalso. by apply (terminates_pd_read_excel E metadata_xlsx sheet_name fs0);
      rewrite Hexcel.
Qed.

End MainMore.


(** ** Motif files that do not parse, and where the rows come from *)

Section Provenance.
Context (E : Env).

(** X5.  One bad motif file loses the sample.  When the files of the motifs 1
    to i are there and the file of motif i does not parse to a table of six
    columns, [load_all_motif_bed_files] raises, whatever the files before it
    hold: no table is returned, not even those of the motifs before i. *)
Theorem load_all_motif_bed_files_bad_file
  (ep sample : string) (fs : FS) (i : nat) :
  1 ≤ i →
  (∀ j, 1 ≤ j ≤ i → isfile (motif_file_path ep sample j) fs = true) →
  motif_table_at E fs ep sample i = None →
  let run := load_all_motif_bed_files E ep sample fs in
  state run = fs
  ∧ ∃ e, result run = Raised e.
Proof.
  intros Hi Hfiles Hbad run. subst run.
  destruct (load_all_motif_bed_files E ep sample fs) as [[r fs'] ev] eqn:Hrun.
  apply (ends_inv _ _ _ _ _ _ (load_all_motif_bed_files_ends E ep sample fs)) in Hrun
    as (-> & Hnd & _ & _ & _ & _ & Hok).
  unfold result, state. cbn [fst snd]. split; [done|].
  destruct r as [dict|e|]; [|by exists e|done].
  exfalso. destruct (Hok dict eq_refl) as (k & tables & -> & Hkeys & _ & Hstop & Htab).
  assert (i ≤ k) as Hik.
  { destruct (decide (i ≤ k)) as [|Hgt]; [done|].
    rewrite Hfiles in Hstop; [done|lia]. }
  assert (i ∈ fst <$> tables) as Hin.
  { rewrite Hkeys. apply elem_of_seq. lia. }
  apply list_elem_of_fmap in Hin as ([i' t] & -> & Hin).
  apply Htab in Hin. cbn [fst] in Hbad. congruence.
Qed.


(** X7.  The status of the response decides.  When nothing is at the path of
    the peak file, [download_tf_chexmix_bed] sends one request; a status
    from 400 to 599 makes it raise an HTTP error and leave the file system
    as it was; with any other status the body, whatever it is, is saved as
    the peak file (when the file can be written) and the path is returned. *)
Theorem download_tf_chexmix_bed_by_status
  (tf_name dest_dir : string) (fs : FS)
  (status_code : nat) (reason content : string) :
  let out_path := chexmix_out_path tf_name dest_dir in
  let url := chexmix_file_url tf_name in
  let run := download_tf_chexmix_bed E tf_name dest_dir fs in
  isfile out_path fs || isdir out_path fs = false →
  requests_get E url = Response status_code reason content →
  downloads (events run) = [url]
  ∧ if (400 <=? status_code) && (status_code <? 600) then
      state run = fs ∧ ∃ e, result run = Raised e ∧ exn_cls e = HTTPError
    else
      bool_decide (dirname out_path = "") || isdir (dirname out_path) fs = true →
      result run = Ok out_path
      ∧ state run = {| files := <[ out_path := content ]> (files fs);
                       dirs := dirs fs |}.
Proof.
  intros out_path url run Hno Hget. subst run.
  apply orb_false_iff in Hno as Hboth. destruct Hboth as [_ Hd].
  destruct ((400 <=? status_code) && (status_code <? 600)) eqn:Hst.
  - destruct (raise_for_status_refuses url status_code reason fs Hst)
      as (e & Hraise & Hcls).
    assert (download_tf_chexmix_bed E tf_name dest_dir fs
            = (Raised e, fs,
               [Stdout ("Downloading " +:+ chexmix_filename tf_name +:+ " from "
                        +:+ url +:+ " ...");
                HttpGet url])) as ->.
    { apply ends_run. unfold download_tf_chexmix_bed. fold url. fold out_path. wp.
      rewrite Hno. cbn [negb]. wp. apply ends_http_get. rewrite Hget. wp.
      cbn [fst snd]. eapply ends_of_run; [exact Hraise|done]. }
    unfold result, state, events. cbn [fst snd]. split; [done|]. split; [done|].
    by exists e.
  - assert (ends (download_tf_chexmix_bed E tf_name dest_dir) fs (λ r fs' ev,
      downloads ev = [url]
      ∧ (bool_decide (dirname out_path = "") || isdir (dirname out_path) fs = true →
         r = Ok out_path
         ∧ fs' = {| files := <[ out_path := content ]> (files fs);
                    dirs := dirs fs |}))) as Hends.
    { unfold download_tf_chexmix_bed. fold url. fold out_path. wp.
      rewrite Hno. cbn [negb]. wp. apply ends_http_get. rewrite Hget. wp.
      cbn [fst snd]. eapply ends_of_run; [by apply raise_for_status_passes|]. wp.
      destruct (bool_decide (dirname out_path = "") || isdir (dirname out_path) fs)
        eqn:Hup.
      - eapply ends_of_run; [by apply write_file_run|]. wp. by split.
      - apply ends_write_file; [by intros; split|]. wp. by split. }
    destruct (download_tf_chexmix_bed E tf_name dest_dir fs) as [[r fs'] ev] eqn:Hrun.
    by apply (ends_inv _ _ _ _ _ _ Hends) in Hrun.
Qed.

End Provenance.

(** ** A second run of [main] *)

Section Rerun.
Context (E : Env).

Lemma for_replicates_archives chexmix_df replicates acc fs :
  ends (for_replicates E chexmix_df replicates acc) fs (λ r fs' ev,
    ∀ tables, r = Ok tables →
      ∀ row, row ∈ replicates →
        isfile (zip_path (cell_str (snd row)) data_dir) fs' = true).
Proof.
  revert acc fs. induction replicates as [|row l IH]; intros acc fs.
  { simpl. wp. by intros ? _ ? ?%elem_of_nil. }
  cbn [for_replicates]. wp.
  eapply ends_weaken; [apply replicate_body_ends|]. cbn beta zeta.
  intros r fs1 ev1 (_ & _ & _ & Hzip).
  assert (∀ acc', ends (for_replicates E chexmix_df l acc') fs1 (λ r2 fs2 ev2,
            ∀ tables, r2 = Ok tables →
              isfile (zip_path (cell_str (snd row)) data_dir) fs1 = true →
              ∀ row0, row0 ∈ row :: l →
                isfile (zip_path (cell_str (snd row0)) data_dir) fs2 = true)) as Hrest.
  { intros acc'. eapply ends_weaken.
    { apply ends_and; [apply IH|apply for_replicates_ends]. }
    cbn beta. intros r2 fs2 ev2 [Hl (Hg & _)] tables -> Hrow row0 [->|Hin]%elem_of_cons.
    - by apply Hg.
    - by eapply Hl. }
  destruct r as [[t|]|e|]; [| |done..].
  - eapply ends_weaken; [apply Hrest|]. cbn beta.
    intros r2 fs2 ev2 H tables Hr. eapply H; [done|]. by eapply Hzip.
  - eapply ends_weaken; [apply Hrest|]. cbn beta.
    intros r2 fs2 ev2 H tables Hr. eapply H; [done|]. by eapply Hzip.
Qed.

(** When [main] returns, the peak file and the archive of every replicate
    are on disk. *)
Lemma main_caches tf_name fs :
  ends (main E tf_name) fs (λ r fs' ev,
    r = Ok tt →
    isfile (chexmix_out_path tf_name data_dir) fs' = true
    ∧ ∃ replicates,
        result (get_replicates_for_tf E tf_name metadata_xlsx fs) = Ok replicates
        ∧ ∀ row, row ∈ replicates →
            isfile (zip_path (cell_str (snd row)) data_dir) fs' = true).
Proof.
  unfold main, main_load.
  destruct (get_replicates_for_tf E tf_name metadata_xlsx fs) as [[r0 fs0] ev0] eqn:Hrep.
  pose proof Hrep as Hrep'.
  apply (ends_inv _ _ _ _ _ _ (get_replicates_for_tf_ends E _ _ _)) in Hrep' as [-> ->].
  unfold result. cbn [fst].
  wp. eapply ends_of_run; [exact Hrep|].
  destruct r0 as [replicates|e|]; [|done..].
  wp. eapply ends_weaken; [apply load_tf_chexmix_bed_ends|]. cbn beta zeta.
  intros r fs1 ev1 (_ & _ & _ & Hok).
  destruct r as [chexmix_df|e|]; [|done..].
  destruct (Hok chexmix_df eq_refl) as (_ & content & df & Hfile & _).
  assert (isfile (chexmix_out_path tf_name data_dir) fs1 = true) as Hpeak.
  { apply bool_decide_eq_true. rewrite Hfile. by eexists. }
  wp. cbn [fst snd]. eapply ends_weaken.
  { apply ends_and; [apply for_replicates_archives|apply for_replicates_ends]. }
  cbn beta. intros r fs2 ev2 [Hzips (Hg2 & _)].
  destruct r as [tables|e|]; [|done..].
  eapply ends_weaken; [apply main_save_effects|]. cbn beta.
  intros r fs3 ev3 (Hg3 & _) _. split.
  - by apply Hg3, Hg2.
  - exists replicates. split; [done|]. intros row Hrow. apply Hg3. by eapply Hzips.
Qed.

Lemma get_replicates_for_tf_result tf_name metadata_file fs content :
  files fs !! metadata_file = Some content →
  result (get_replicates_for_tf E tf_name metadata_file fs)
  = match read_excel E content sheet_name with
    | inr df => Ok (replicates_of_sheet tf_name df)
    | inl e => Raised e
    end.
Proof.
  intros Hfile. unfold get_replicates_for_tf, pd_read_excel.
  rewrite bind_assoc. rewrite (bind_Ok _ _ _ _ _ _ (read_file_run _ _ _ Hfile)).
  by destruct (read_excel E content sheet_name).
Qed.

(** X24.  A run of [main] that returns leaves nothing to fetch.  When [main]
    returns and has left the metadata file as it was, a second run of
    [main] for the same name, from the file system the first left, sends no
    request at all: the peak file and the archive of every replicate are
    found on disk. *)
Theorem main_again_requests_nothing (tf_name : string) (fs : FS) :
  let first := main E tf_name fs in
  let second := main E tf_name (state first) in
  result first = Ok tt →
  files (state first) !! metadata_xlsx = files fs !! metadata_xlsx →
  downloads (events second) = [].
Proof.
  intros first second Hok Hmeta. subst second first.
  pose proof (main_caches tf_name fs) as Hcache.
  destruct (main E tf_name fs) as [[r fs1] ev1] eqn:Hfirst.
  unfold result, state in Hok, Hmeta |- *. cbn [fst snd] in Hok, Hmeta |- *. subst r.
  apply (ends_inv _ _ _ _ _ _ Hcache) in Hfirst
    as (Hpeak & replicates & Hrep & Hzips); [|done].
  pose proof (main_effects E tf_name fs1) as Hsecond. cbn zeta in Hsecond.
  destruct (main E tf_name fs1) as [[r2 fs2] ev2] eqn:Hrun.
  apply (ends_inv _ _ _ _ _ _ Hsecond) in Hrun as (_ & _ & _ & _ & _ & Hurl & _).
  unfold events. cbn [snd].
  destruct (downloads ev2) as [|url l] eqn:Hd; [done|]. exfalso.
  destruct (Hurl url) as [[_ Hno]|(row & Hrow & _ & Hno)]; [by left| |].
  - by rewrite Hpeak in Hno.
  - assert (fst (fst (get_replicates_for_tf E tf_name metadata_xlsx fs1))
            = Ok replicates) as Hrep1.
    { destruct (files fs !! metadata_xlsx) as [content|] eqn:Hfile.
      - rewrite <- Hrep.
        change (result (get_replicates_for_tf E tf_name metadata_xlsx fs1)
                = result (get_replicates_for_tf E tf_name metadata_xlsx fs)).
        by rewrite (get_replicates_for_tf_result _ _ fs1 content),
          (get_replicates_for_tf_result _ _ fs content).
      - exfalso. revert Hrep. unfold result.
        destruct (get_replicates_for_tf E tf_name metadata_xlsx fs) as [[r0 fs0] ev0]
          eqn:Hrun0.
        assert (ends (get_replicates_for_tf E tf_name metadata_xlsx) fs
                  (λ r _ _, ∀ l, r ≠ Ok l)) as Hnone.
        { unfold get_replicates_for_tf, pd_read_excel. wp.
          apply ends_read_file; [done|]. intros c Hc. congruence. }
        pose proof (ends_inv _ _ _ _ _ _ Hnone Hrun0) as H0. cbn beta in H0.
        cbn [fst]. intros Hr. by apply (H0 replicates). }
    unfold result in Hrow. rewrite Hrep1 in Hrow.
    rewrite (Hzips row Hrow) in Hno. done.
Qed.

End Rerun.

(** ** The further properties on the test bench *)


(** X13 on the test bench.  The aggregation of the two samples' rows of one peak keeps the key. *)
Lemma aggregate_keeps_every_key_run :
  ∃ r', r' ∈ [row_s1] ∧ coord_key r' = coord_key row_s2.
Proof.
  apply (aggregate_keeps_every_key [[row_s1]; [row_s2]] [row_s1]); run_done.
Defined.

(** X14 on the test bench.  A second sample after the first adds no row for a peak already met. *)
Lemma aggregate_extends_run :
  ∃ new, aggregate ([[row_s1]] ++ [[row_s2]]) = Some ([row_s1] ++ new)
         ∧ ∀ r, r ∈ new →
             r ∈ concat [[row_s2]]
             ∧ ∀ r0, r0 ∈ concat [[row_s1]] → coord_key r0 ≠ coord_key r.
Proof. apply (aggregate_extends [[row_s1]] [[row_s2]] [row_s1]). reflexivity. Defined.

(** X11 on the test bench.  The end-to-end scenario: one table for two replicates, one row for one
    peak. *)
Lemma final_table_within_peaks_run :
  length e2e_tables ≤ length abf1_replicates
  ∧ length [row_s1] ≤ length abf1_peaks
  ∧ ∀ r, r ∈ [row_s1] → ∃ R, R ∈ abf1_peaks ∧ coord_key r = peak_key R.
Proof.
  pose (loaded := main_load env_e2e "Abf1" disk0).
  pose (looped := for_replicates env_e2e abf1_peaks abf1_replicates [] (state loaded)).
  apply (final_table_within_peaks env_e2e abf1_peaks abf1_replicates (state loaded)
           e2e_tables (state looped) (events looped) [row_s1]); run_done.
Defined.

(** X3 on the test bench.  The archive of the first sample is not on the server. *)
Lemma download_and_extract_zip_request_fails_run :
  ∃ e,
    download_and_extract_zip env_s1_missing "S1" data_dir disk0
    = (Raised e, disk0,
       [Stdout ("Downloading " +:+ sample_url "S1" +:+ " ...");
        HttpGet (sample_url "S1")])
    ∧ exn_cls e = HTTPError.
Proof.
  apply (download_and_extract_zip_request_fails env_s1_missing "S1" data_dir disk0);
    run_done.
Defined.

(** X4 on the test bench.  The server sends a body that is not an archive. *)
Lemma corrupt_archive_is_never_replaced_run :
  result (download_and_extract_zip env_bad_zip "S1" data_dir
            (state (download_and_extract_zip env_bad_zip "S1" data_dir disk0)))
  = Raised (Exn BadZipFile "File is not a zip file")
  ∧ downloads (events (download_and_extract_zip env_bad_zip "S1" data_dir
                         (state (download_and_extract_zip env_bad_zip "S1" data_dir
                                   disk0))))
    = [].
Proof.
  destruct (corrupt_archive_is_never_replaced env_bad_zip "S1" data_dir disk0
              200 "OK" "not a zip" (Exn BadZipFile "File is not a zip file"))
    as (_ & _ & _ & Hres & _ & Hdl & _); try run_done.
  by split.
Defined.

(** X8 on the test bench.  The peaks of the end-to-end scenario are the rows of the file saved. *)
Lemma load_tf_chexmix_bed_returns_the_file_run :
  isdir data_dir (state (load_tf_chexmix_bed env_e2e "Abf1" data_dir disk0)) = true
  ∧ files (state (load_tf_chexmix_bed env_e2e "Abf1" data_dir disk0))
      !! chexmix_out_path "Abf1" data_dir
    = Some peaks_text.
Proof.
  destruct (load_tf_chexmix_bed_returns_the_file env_e2e "Abf1" data_dir disk0
              abf1_peaks) as (Hdir & _ & _ & content & df & Hfile & _); [run_done|].
  split; [exact Hdir|]. run_done.
Defined.

(** X9 on the test bench.  A directory where the peak file should be. *)
Lemma load_tf_chexmix_bed_path_is_directory_run :
  downloads (events (load_tf_chexmix_bed env_e2e "Abf1" data_dir disk_peak_dir)) = []
  ∧ files (state (load_tf_chexmix_bed env_e2e "Abf1" data_dir disk_peak_dir))
    = files disk_peak_dir.
Proof.
  destruct (load_tf_chexmix_bed_path_is_directory env_e2e "Abf1" data_dir
              disk_peak_dir) as (Hdl & Hfiles & _); [run_done..|].
  by split.
Defined.


(** X2 on the test bench.  The name with a trailing space, as the sheet has it. *)
Lemma get_replicates_for_tf_padded_request_run :
  result (get_replicates_for_tf env_e2e "Abf1 " metadata_xlsx disk_spaced) = Ok []
  ∧ @nil (cell * cell) = [].
Proof.
  split; [run_done|].
  apply (get_replicates_for_tf_padded_request env_e2e "Abf1 " metadata_xlsx
           disk_spaced []); run_done.
Defined.

(** X18 on the test bench.  "ABF1" and "Abf1" in the end-to-end scenario. *)
Lemma main_ignores_case_run :
  result (main env_e2e "ABF1" disk0) = result (main env_e2e "Abf1" disk0)
  ∧ state (main env_e2e "ABF1" disk0) = state (main env_e2e "Abf1" disk0).
Proof.
  destruct (main_ignores_case env_e2e "ABF1" "Abf1" disk0) as (Hres & Hst & _);
    [run_done..|].
  by split.
Defined.

(** X17 on the test bench.  The name with a trailing space: no replicate, and the peak file of
    "Abf1 " is requested all the same. *)
Lemma main_without_replicates_run :
  downloads (events (main env_e2e "Abf1 " disk_spaced))
  = downloads (events (load_tf_chexmix_bed env_e2e "Abf1 " data_dir disk_spaced))
  ∧ downloads (events (main env_e2e "Abf1 " disk_spaced))
    = [chexmix_url +:+ "Abf1 _CX.bed"].
Proof.
  destruct (main_without_replicates env_e2e "Abf1 " disk_spaced)
    as (_ & Hdl & _); [run_done|].
  split; [exact Hdl|]. run_done.
Defined.

(** X16 on the test bench.  No peak file on the server. *)
Lemma main_stops_when_the_peak_load_fails_run :
  result (main env_no_peaks "Abf1" disk0)
  = Raised (Exn HTTPError
              ("404 Client Error: Not Found for url: " +:+ cx_url "Abf1"))
  ∧ extractions (events (main env_no_peaks "Abf1" disk0)) = [].
Proof.
  destruct (main_stops_when_the_peak_load_fails env_no_peaks "Abf1" disk0
              abf1_replicates
              (Exn HTTPError
                 ("404 Client Error: Not Found for url: " +:+ cx_url "Abf1")))
    as (Hres & _ & _ & Hx & _); [run_done..|].
  by split.
Defined.

(** X10 on the test bench.  The first sample has no motif file: the loop goes on with the second. *)
Lemma for_replicates_passes_over_sample_without_motifs_run :
  let loaded := main_load env_no_motifs "Abf1" disk0 in
  let fetched := download_and_extract_zip env_no_motifs "S1" data_dir (state loaded) in
  for_replicates env_no_motifs abf1_peaks
    ((CStr "R1", CStr "S1") :: [(CStr "R2", CStr "S2")]) [] (state loaded)
  = prepend
      (Stdout "Processing replicate: R1 Sample ID: S1"
       :: events fetched
       ++ [Stdout "No motif files found for sample S1, skipping."])
      (for_replicates env_no_motifs abf1_peaks [(CStr "R2", CStr "S2")] []
         (state fetched)).
Proof.
  intros loaded fetched.
  apply (for_replicates_passes_over_sample_without_motifs env_no_motifs abf1_peaks
           (CStr "R1", CStr "S1") [(CStr "R2", CStr "S2")] [] (state loaded)
           (path_join data_dir "S1") (state fetched) (events fetched)); run_done.
Defined.

(** X15 on the test bench.  The output file of the end-to-end scenario. *)
Lemma main_writes_the_output_file_last_run :
  result (main env_e2e "Abf1" disk0) = Ok tt
  ∧ isfile (output_bed_file "Abf1") (state (main env_e2e "Abf1" disk0)) = true.
Proof.
  pose (loaded := main_load env_e2e "Abf1" disk0).
  pose (looped := for_replicates env_e2e abf1_peaks abf1_replicates [] (state loaded)).
  destruct (main_writes_the_output_file_last env_e2e "Abf1" disk0 abf1_replicates
              abf1_peaks (state loaded) (events loaded) e2e_tables (state looped)
              (events looped)) as [Hok _]; [run_done..|].
  destruct Hok as [body Hok]; [run_done|]. rewrite Hok. split; [reflexivity|].
  apply isfile_write.
Defined.

(** X5 on the test bench.  A second motif file of five columns. *)
Lemma load_all_motif_bed_files_bad_file_run :
  ∃ e, result (load_all_motif_bed_files env_e2e "/d/S3" "S3" disk_bad_motif) = Raised e.
Proof.
  apply (load_all_motif_bed_files_bad_file env_e2e "/d/S3" "S3" disk_bad_motif 2).
  - lia.
  - intros j Hj. assert (j = 1 ∨ j = 2) as [-> | ->] by lia; run_done.
  - run_done.
Defined.


(** X7 on the test bench.  The peak file of the end-to-end scenario is saved on a status 200. *)
Lemma download_tf_chexmix_bed_by_status_run :
  result (download_tf_chexmix_bed env_e2e "Abf1" data_dir disk0)
  = Ok (chexmix_out_path "Abf1" data_dir).
Proof.
  destruct (download_tf_chexmix_bed_by_status env_e2e "Abf1" data_dir disk0
              200 "OK" peaks_text) as [_ Hsaved]; [run_done..|].
  apply Hsaved. run_done.
Defined.

(** X24 on the test bench.  The end-to-end scenario, run twice. *)
Lemma main_again_requests_nothing_run :
  downloads (events (main env_e2e "Abf1" (state (main env_e2e "Abf1" disk0)))) = [].
Proof.
  apply (main_again_requests_nothing env_e2e "Abf1" disk0); run_done.
Defined.
